(** * torch_musa: reduction operators and the MUSA stream wrapper

    A shallow embedding of
      - torch_musa/csrc/aten/ops/Reduce.cpp   (reduction, cumulative and
        arg-min/max operators bound to the muDNN primitive library), and
      - torch_musa/csrc/core/MUSAStream.h     (the stream wrapper),
    together with the properties the specification states about them.

    Conventions.  Tensors live in a store and are named by handles, so
    that aliasing of [self] and [out] is visible.  Every operator runs in
    a small state-and-error monad that also records the calls it makes:
    device guards, calls into the primitive library and host-framework
    tensor operations.  The primitive library, the vendor runtime and the
    host framework are black boxes: their answers are parameters of the
    model and the contents of a tensor are kept as a provenance term that
    says which black box wrote them. *)

From Stdlib Require Import ZArith Bool String Lia.
From stdpp Require Import base list.

Local Open Scope Z_scope.

(* ================================================================== *)
(** * Scalar types (c10::ScalarType) *)
(* ================================================================== *)

(** The enumerators of the host framework's [c10::ScalarType]. *)
Inductive ScalarType : Type :=
| Byte | Char | Short | Int | Long
| Half | Float | Double
| ComplexHalf | ComplexFloat | ComplexDouble
| Bool
| QInt8 | QUInt8 | QInt32
| BFloat16
| QUInt4x2 | QUInt2x4
| Undefined.

Definition kLong : ScalarType := Long.
Definition kHalf : ScalarType := Half.
Definition kFloat : ScalarType := Float.
Definition kBFloat16 : ScalarType := BFloat16.

#[global] Instance ScalarType_eq_dec : EqDecision ScalarType.
Proof. solve_decision. Defined.

(** [c10::isIntegralType(t, includeBool)]. *)
Definition isIntegralType (t : ScalarType) (includeBool : bool) : bool :=
  match t with
  | Byte | Char | Int | Long | Short => true
  | Bool => includeBool
  | _ => false
  end.

(** [c10::isFloatingType(t)]. *)
Definition isFloatingType (t : ScalarType) : bool :=
  match t with
  | Double | Float | Half | BFloat16 => true
  | _ => false
  end.


(* ================================================================== *)
(** * Devices (c10::DeviceType, c10::Device) *)
(* ================================================================== *)

(** The enumerators of the host framework's [c10::DeviceType]
    (an [enum class] over [int8_t]), in declaration order. *)
Inductive DeviceType : Type :=
| CPU | CUDA | MKLDNN | OPENGL | OPENCL | IDEEP | HIP | FPGA | ORT | XLA
| Vulkan | Metal | XPU | MPS | Meta | HPU | VE | Lazy | IPU | MTIA
| PrivateUse1.

#[global] Instance DeviceType_eq_dec : EqDecision DeviceType.
Proof. solve_decision. Defined.

(** The numeric value of an enumerator. *)
Definition DeviceType_code (t : DeviceType) : Z :=
  match t with
  | CPU => 0 | CUDA => 1 | MKLDNN => 2 | OPENGL => 3 | OPENCL => 4
  | IDEEP => 5 | HIP => 6 | FPGA => 7 | ORT => 8 | XLA => 9
  | Vulkan => 10 | Metal => 11 | XPU => 12 | MPS => 13 | Meta => 14
  | HPU => 15 | VE => 16 | Lazy => 17 | IPU => 18 | MTIA => 19
  | PrivateUse1 => 20
  end.

(** [at::musa::kMUSA] comes from torch_musa/csrc/core/Device.h, which is
    not among the sources at hand; the backend registers itself under the
    host framework's private-use device type. *)
Definition kMUSA : DeviceType := PrivateUse1.
Definition kCPU : DeviceType := CPU.

(** [DeviceIndex] is an [int8_t]; [-1] stands for "the current device". *)
Abbreviation DeviceIndex := Z (only parsing).

Record Device : Type := mkDevice {
  dev_type : DeviceType;
  dev_index : DeviceIndex
}.

#[global] Instance Device_eq_dec : EqDecision Device.
Proof. solve_decision. Defined.

(* ================================================================== *)
(** * Tensors, their contents and the store *)
(* ================================================================== *)

(** [::musa::dnn::Reduce::Mode], the enumerators this file passes. *)
Inductive ReduceMode : Type :=
| ADD | MEAN | PROD | MAX | MIN | NORM | OR | AND.

(** [::musa::dnn::Cum::Mode] ([CUM_MODE]). *)
Inductive CUM_MODE : Type := CUM_ADD | CUM_MUL.

(** The order handed to [Reduce::SetNormOrd]: the [float] it is computed
    from is kept symbolically. *)
Inductive NormOrd : Type :=
| OrdDefault                      (* 2.0f *)
| OrdOfInt (v : Z)                (* static_cast<float>(val.to<int64_t>()) *)
| OrdOfDouble (bits : Z).         (* static_cast<float>(val.to<double>()) *)

(** Reductions the host framework computes itself. *)
Inductive HostReduce : Type :=
| HostMax | HostMin | HostVar | HostVarMean_var | HostVarMean_mean.

(** The contents of a tensor, as the history of who wrote them.  The
    numeric kernels are closed, so a value written by the primitive
    library is the library's name applied to what it read. *)
Inductive Data : Type :=
| DInput (n : nat)                             (* supplied by the caller *)
| DUninit                                      (* at::empty *)
| DZero                                        (* zero_() *)
| DFill (src : Data)                           (* fill_(src) *)
| DCast (dt : ScalarType) (src : Data)         (* to(dtype), copy_ *)
| DHost (f : HostReduce) (src : Data)          (* host-side reduction *)
| DReduce (m : ReduceMode) (dims : list Z) (ord : option NormOrd)
          (src : Data)                         (* Reduce::Run *)
| DReduceValues (m : ReduceMode) (dim : Z) (src : Data)
                                               (* Reduce::RunWithIndices *)
| DReduceIndices (m : ReduceMode) (dim : Z) (src : Data)
                                  (* RunWithIndices / RunIndices: indices *)
| DCum (m : CUM_MODE) (dim : Z) (src : Data).  (* Cum::Run *)

(** What the operators read of a tensor. *)
Record TensorRec : Type := mkTensor {
  defined : bool;
  scalar_type : ScalarType;
  sizes : list Z;
  device : Device;
  is_contiguous : bool;
  data : Data
}.

(** [Tensor()]: the undefined tensor. *)
Definition undefined_tensor : TensorRec :=
  mkTensor false Undefined [] (mkDevice CPU (-1)) true DUninit.

(** [t.dim()] and [t.numel()]. *)
Definition dim (t : TensorRec) : Z := Z.of_nat (length (sizes t)).
Definition numel (t : TensorRec) : Z := foldr Z.mul 1 (sizes t).

(** A tensor handle ([Tensor], [const Tensor&], [Tensor&]): the name of a
    tensor of the store.  Two handles are [is_same] when they are equal. *)
Abbreviation Tensor := nat (only parsing).

(** A library tensor handle ([muTensor]) wraps the storage of a tensor. *)
Abbreviation muTensor := nat (only parsing).

(** Calls into the primitive library (muDNN) and the helpers that create
    its handles. *)
Inductive LibCall : Type :=
| LCreateMUTensor (t : Tensor)
| LGetMudnnHandle
| LReduce_SetMode (m : ReduceMode)
| LReduce_SetDim (dims : list Z)
| LReduce_SetNormOrd (p : NormOrd)
| LReduce_Run (out inp : muTensor)
| LReduce_RunWithIndices (out ids inp : muTensor)
| LReduce_RunIndices (out inp : muTensor)
| LCum_SetDim (d : Z)
| LCum_SetMode (m : CUM_MODE)
| LCum_Run (out inp : muTensor).

(** Tensor operations of the host framework and of the backend's tensor
    utilities. *)
Inductive HostCall : Type :=
| Hempty (t : Tensor)
| Hzero_ (t : Tensor)
| Hfill_ (t src : Tensor)
| Hcopy_ (dst src : Tensor)
| Hto_dtype (res src : Tensor) (dt : ScalarType)
| Hto_device (res src : Tensor) (d : Device)
| Hcontiguous (res src : Tensor)
| Hflatten (res src : Tensor)
| Hresize_ (t : Tensor) (shape : list Z)
| Hitem (t : Tensor)
| Hpropagate_names (dst src : Tensor)
| Hlazy_init
| Hreduce (f : HostReduce) (res src : Tensor).

(** What an operator does, in order. *)
Inductive Event : Type :=
| EvGuard (d : Device)                  (* a device guard switched to d *)
| EvLib (c : LibCall) (cur : Device)    (* library call, cur was current *)
| EvHost (h : HostCall).

(** [::musa::dnn::Status]. *)
Inductive Status : Type := SUCCESS | FAILURE (code : Z).

(** [at::Scalar], by its tag. *)
Inductive Scalar : Type :=
| ScalarInt (v : Z)
| ScalarDouble (bits : Z)
| ScalarComplex (re im : Z)
| ScalarBool (b : bool).

Definition Scalar_isIntegral (s : Scalar) (includeBool : bool) : bool :=
  match s with
  | ScalarInt _ => true
  | ScalarBool _ => includeBool
  | _ => false
  end.

Definition Scalar_isFloatingPoint (s : Scalar) : bool :=
  match s with ScalarDouble _ => true | _ => false end.

Record State : Type := mkState {
  heap : list TensorRec;
  current_device : Device
}.

(** The tensor a handle names; a handle outside the store reads as the
    undefined tensor. *)
Definition look (h : list TensorRec) (t : Tensor) : TensorRec :=
  default undefined_tensor (h !! t).

Definition tensor (st : State) (t : Tensor) : TensorRec := look (heap st) t.

Definition live (st : State) (t : Tensor) : Prop :=
  (t < length (heap st))%nat.

#[global] Instance live_dec st t : Decision (live st t).
Proof. unfold live. apply _. Defined.

(* ================================================================== *)
(** * The operator monad: state, exceptions and the call record *)
(* ================================================================== *)

Inductive Result (A : Type) : Type :=
| Ok (a : A)
| Err (msg : string).
Arguments Ok {A} a.
Arguments Err {A} msg.

Definition Outcome (A : Type) : Type := (Result A * State * list Event)%type.

Definition M (A : Type) : Type := State -> Outcome A.

Definition out_result {A} (o : Outcome A) : Result A := o.1.1.
Definition out_state {A} (o : Outcome A) : State := o.1.2.
Definition out_trace {A} (o : Outcome A) : list Event := o.2.

#[global] Instance M_ret : MRet M := fun A a st => (Ok a, st, []).

(** A C++ exception leaves the callee at once; what was written stays. *)
#[global] Instance M_bind : MBind M := fun A B f m st =>
  let '(r, st1, tr1) := m st in
  match r with
  | Ok a => let '(r2, st2, tr2) := f a st1 in (r2, st2, tr1 ++ tr2)
  | Err e => (Err e, st1, tr1)
  end.

Definition raise {A} (msg : string) : M A := fun st => (Err msg, st, []).

Definition lift {A} (r : Result A) : M A := fun st => (r, st, []).

Definition emit (ev : Event) : M unit := fun st => (Ok tt, st, [ev]).

Definition get (t : Tensor) : M TensorRec :=
  fun st => (Ok (tensor st t), st, []).

Definition get_current_device : M Device :=
  fun st => (Ok (current_device st), st, []).

Definition alloc (r : TensorRec) : M Tensor :=
  fun st =>
    (Ok (length (heap st)), mkState (heap st ++ [r]) (current_device st), []).

Definition update (t : Tensor) (f : TensorRec -> TensorRec) : M unit :=
  fun st => (Ok tt, mkState (alter f t (heap st)) (current_device st), []).

Definition set_data (d : Data) (r : TensorRec) : TensorRec :=
  mkTensor (defined r) (scalar_type r) (sizes r) (device r)
           (is_contiguous r) d.

Definition set_sizes (s : list Z) (r : TensorRec) : TensorRec :=
  mkTensor (defined r) (scalar_type r) s (device r) true (data r).

(** [TORCH_CHECK(cond, msg)] and [TORCH_INTERNAL_ASSERT(cond, msg)]. *)
Definition TORCH_CHECK (cond : bool) (msg : string) : M unit :=
  if cond then mret tt else raise msg.

(** A device guard ([c10::musa::MUSAGuard], [OptionalDeviceGuard]) is a
    scoped object: it makes [d] current when it is built and restores the
    former device when its scope is left, by return or by exception. *)
Definition with_guard {A} (d : Device) (body : M A) : M A :=
  fun st =>
    let '(r, st1, tr) := body (mkState (heap st) d) in
    (r, mkState (heap st1) (current_device st), EvGuard d :: tr).

(** Checks of the host framework that touch no tensor raise through
    [Result]. *)
#[global] Instance Result_ret : MRet Result := fun A a => Ok a.
#[global] Instance Result_bind : MBind Result := fun A B f r =>
  match r with
  | Ok a => f a
  | Err e => Err e
  end.

(* ================================================================== *)
(** * Dtype inference (Reduce.cpp, lines 116-145) *)
(* ================================================================== *)

Definition musa_get_dtype_from_self (self : TensorRec)
    (dtype : option ScalarType) (promote_integers : bool) : ScalarType :=
  match dtype with
  | Some d => d
  | None =>
      let src_type := scalar_type self in
      if promote_integers && isIntegralType src_type true then kLong
      else src_type
  end.

Definition musa_infer_dtype_from_optional (self : TensorRec)
    (opt_dtype : option ScalarType) (result : TensorRec) : ScalarType :=
  if defined result then
    default (scalar_type result) opt_dtype
  else
    musa_get_dtype_from_self self opt_dtype true.

(* ================================================================== *)
(** * Shape inference of the host framework *)
(* ================================================================== *)

(** The functions of this part belong to the host framework
    (c10/core/WrapDimMinimal.h, ATen/WrapDimUtils.h,
    ATen/WrapDimUtilsMulti.h, ATen/native/ReduceOpsUtils.h); Reduce.cpp
    calls them and they are written here as the framework defines them. *)

(** [c10::maybe_wrap_dim(dim, dim_post_expr)], with [wrap_scalar = true]. *)
Definition maybe_wrap_dim (d dim_post_expr : Z) : Result Z :=
  if decide (- dim_post_expr <= d /\ d < dim_post_expr) then
    Ok (if decide (d < 0) then d + dim_post_expr else d)
  else if decide (dim_post_expr < 0) then
    Err "Rank cannot be negative"
  else if decide (dim_post_expr = 0) then
    if decide (-1 <= d /\ d < 1) then Ok (if decide (d < 0) then d + 1 else d)
    else Err "Dimension out of range"
  else Err "Dimension out of range".

(** [at::maybe_wrap_dims(dims, dim_post_expr)]: every entry is checked and
    wrapped in place, left to right. *)
Definition maybe_wrap_dims (dims : list Z) (dim_post_expr : Z)
  : Result (list Z) :=
  let dim_post_expr := if decide (dim_post_expr <= 0) then 1 else dim_post_expr in
  let min := - dim_post_expr in
  let max := dim_post_expr - 1 in
  mapM (fun d =>
          if decide (d < min \/ d > max) then Err "Dimension out of range"
          else Ok (if decide (d < 0) then d + dim_post_expr else d)) dims.

(** [std::bitset<64>] ([DimMask]) as the integer of its bits. *)
Abbreviation DimMask := Z (only parsing).
Definition dim_bitset_size : Z := 64.
Definition DimMask_all : DimMask := Z.ones dim_bitset_size.  (* DimMask().flip() *)

Fixpoint dim_list_to_bitset_loop (dims : list Z) (ndims : Z) (seen : DimMask)
  : Result DimMask :=
  match dims with
  | [] => Ok seen
  | d :: rest =>
      pos ← maybe_wrap_dim d ndims;
      if Z.testbit seen pos then
        Err "dim appears multiple times in the list of dims"
      else dim_list_to_bitset_loop rest ndims (Z.setbit seen pos)
  end.

(** [at::dim_list_to_bitset(dims, ndims)]. *)
Definition dim_list_to_bitset (dims : list Z) (ndims : Z) : Result DimMask :=
  if decide (ndims <= dim_bitset_size) then
    dim_list_to_bitset_loop dims ndims 0
  else Err "only tensors with up to 64 dims are supported".

(** [at::native::make_dim_mask(dims, ndim)]: an empty list reduces every
    dimension. *)
Definition make_dim_mask (dims : list Z) (ndim : Z) : Result DimMask :=
  match dims with
  | [] => Ok DimMask_all
  | _ => dim_list_to_bitset dims ndim
  end.

(** The loop of [shape_from_dim_mask], from the last dimension down:
    [for (int dim = shape.size() - 1; dim >= 0; dim--)]. *)
Fixpoint shape_from_dim_mask_loop (n : nat) (mask : DimMask) (keepdim : bool)
    (shape : list Z) : list Z :=
  match n with
  | O => shape
  | S d =>
      shape_from_dim_mask_loop d mask keepdim
        (if Z.testbit mask (Z.of_nat d) then
           if keepdim then <[d := 1]> shape else delete d shape
         else shape)
  end.

Definition shape_from_dim_mask (self : TensorRec) (mask : DimMask)
    (keepdim : bool) : list Z :=
  shape_from_dim_mask_loop (length (sizes self)) mask keepdim (sizes self).

(** [at::meta::get_reduction_shape(self, dims, keepdim)]. *)
Definition get_reduction_shape (self : TensorRec) (dims : list Z)
    (keepdim : bool) : Result (list Z) :=
  mask ← make_dim_mask dims (dim self);
  mret (shape_from_dim_mask self mask keepdim).

(** The reduction shape in the words of the specification: a dimension
    that is reduced is removed, or kept with size 1 under [keepdim]; the
    others keep their size.  [reduced i] says whether dimension [i] is
    reduced. *)
Definition reduction_shape_spec (reduced : nat -> bool) (keepdim : bool)
    (shape : list Z) : list Z :=
  mjoin (imap (fun i s => if reduced i then (if keepdim then [1] else [])
                          else [s]) shape).

(** Dimension [i] is reduced by the dim list [dims] of a tensor with
    [ndim] dimensions: the list is empty (a full reduction), or holds [i],
    counted from the front or, negative, from the back. *)
Definition is_reduced (dims : list Z) (ndim : Z) (i : nat) : bool :=
  match dims with
  | [] => true
  | _ => bool_decide (Exists (fun d => d = Z.of_nat i \/ d + Z.max ndim 1 = Z.of_nat i) dims)
  end.

(* ================================================================== *)
(** * The black boxes *)
(* ================================================================== *)

Abbreviation Dimname := string (only parsing).

(** What the model does not compute: the status the primitive library
    answers to a call, and the host-framework functions whose result
    depends on data the model does not hold (type promotion table,
    dimension names, the element of a one-element tensor). *)
Record Env : Type := mkEnv {
  mudnn : LibCall -> Status;
  promoteTypes : ScalarType -> ScalarType -> ScalarType;
  dimnames_to_positions : TensorRec -> list Dimname -> Result (list Z);
  dimname_to_position : TensorRec -> Dimname -> Result Z;
  item_int : TensorRec -> Result Z
}.

(** [static_cast<int>(x)] of an [int64_t]: the low 32 bits, signed. *)
Definition static_cast_int (x : Z) : Z :=
  (x + 2 ^ 31) mod 2 ^ 32 - 2 ^ 31.

Section Operators.

Variable E : Env.

(* ------------------------------------------------------------------ *)
(** ** Tensor operations of the host framework *)
(* ------------------------------------------------------------------ *)

(** [at::empty(shape, options.dtype(dtype))]. *)
Definition at_empty (shape : list Z) (dev : Device) (dtype : ScalarType)
  : M Tensor :=
  t ← alloc (mkTensor true dtype shape dev true DUninit);
  emit (EvHost (Hempty t));;
  mret t.

Definition zero_ (t : Tensor) : M unit :=
  update t (set_data DZero);;
  emit (EvHost (Hzero_ t)).

Definition fill_ (t src : Tensor) : M unit :=
  s ← get src;
  update t (set_data (DFill (data s)));;
  emit (EvHost (Hfill_ t src)).

(** [dst.copy_(src)]: the contents of [src], converted to the scalar type
    of [dst].  The host framework refuses a [src] whose sizes do not
    broadcast to those of [dst]; every copy of Reduce.cpp but the one of
    [NormDtypeOut] is between tensors of the same sizes, and the check is
    left out of the model. *)
Definition copy_ (dst src : Tensor) : M unit :=
  s ← get src;
  d ← get dst;
  update dst (set_data (if decide (scalar_type s = scalar_type d) then data s
                        else DCast (scalar_type d) (data s)));;
  emit (EvHost (Hcopy_ dst src)).

(** [src.to(dtype)]: a new tensor of that scalar type, or [src] itself
    when it has it already. *)
Definition to_dtype (src : Tensor) (dt : ScalarType) : M Tensor :=
  s ← get src;
  if decide (scalar_type s = dt) then mret src
  else
    t ← alloc (mkTensor (defined s) dt (sizes s) (device s)
                        (is_contiguous s) (DCast dt (data s)));
    emit (EvHost (Hto_dtype t src dt));;
    mret t.

(** [src.to("cpu")], [src.to("musa")]: the same contents on device [d]. *)
Definition to_device (src : Tensor) (d : Device) : M Tensor :=
  s ← get src;
  if decide (device s = d) then mret src
  else
    t ← alloc (mkTensor (defined s) (scalar_type s) (sizes s) d
                        (is_contiguous s) (data s));
    emit (EvHost (Hto_device t src d));;
    mret t.

(** [src.flatten()]. *)
Definition flatten (src : Tensor) : M Tensor :=
  s ← get src;
  if decide (dim s = 1) then mret src
  else
    t ← alloc (mkTensor (defined s) (scalar_type s) [numel s] (device s)
                        true (data s));
    emit (EvHost (Hflatten t src));;
    mret t.

(** [at::native::resize_output(out, shape)]: nothing happens when [out]
    has the shape already. *)
Definition resize_output (out : Tensor) (shape : list Z) : M bool :=
  o ← get out;
  if decide (sizes o = shape) then mret false
  else
    update out (set_sizes shape);;
    emit (EvHost (Hresize_ out shape));;
    mret true.

(** [out.resize_(shape)]: a tensor that has the sizes already keeps its
    layout; any other gets the sizes, with contiguous strides. *)
Definition resize_ (out : Tensor) (shape : list Z) : M unit :=
  o ← get out;
  (if decide (sizes o = shape) then mret tt
   else update out (set_sizes shape));;
  emit (EvHost (Hresize_ out shape)).

(** [namedinference::propagate_names] and
    [propagate_names_for_reduction]: names are not part of the model. *)
Definition propagate_names (dst src : Tensor) : M unit :=
  emit (EvHost (Hpropagate_names dst src)).

(** [self.item<int>()]. *)
Definition item (self : Tensor) : M Z :=
  s ← get self;
  emit (EvHost (Hitem self));;
  lift (item_int E s).

(** A reduction the host framework computes itself ([at::max], [at::min],
    [at::native::var], ...): a new tensor of shape [shape]. *)
Definition host_reduce (f : HostReduce) (src : Tensor) (shape : list Z)
  : M Tensor :=
  s ← get src;
  t ← alloc (mkTensor true (scalar_type s) shape (device s) true
                      (DHost f (data s)));
  emit (EvHost (Hreduce f t src));;
  mret t.

(* ------------------------------------------------------------------ *)
(** ** The backend's tensor utilities (torch_musa/csrc/aten/utils) *)
(* ------------------------------------------------------------------ *)

(** Modelled from the spec: [FormatContiguous] and [Contiguous] are
    defined in torch_musa/csrc/aten/utils/Utils.h, which is not among the
    sources at hand; the specification counts them with the marshalling
    of tensors.  They are read off their use in [ReduceIndicesCall],
    which copies the result back when the tensor returned is not the one
    passed: a contiguous tensor is returned as it is, any other is
    copied into a new contiguous tensor. *)
Definition FormatContiguous (t : Tensor) : M Tensor :=
  r ← get t;
  if is_contiguous r then mret t
  else
    c ← alloc (mkTensor (defined r) (scalar_type r) (sizes r) (device r)
                        true (data r));
    emit (EvHost (Hcontiguous c t));;
    mret c.

Definition Contiguous (t : Tensor) : M Tensor := FormatContiguous t.

(** A call into the primitive library, made under the current device. *)
Definition lib_event (c : LibCall) : M unit :=
  fun st => (Ok tt, st, [EvLib c (current_device st)]).

(** A library call that answers a status. *)
Definition lib (c : LibCall) : M Status :=
  lib_event c;;
  mret (mudnn E c).

(** [CreateMUTensor(t)]: a library handle on the storage of [t]. *)
Definition CreateMUTensor (t : Tensor) : M muTensor :=
  lib_event (LCreateMUTensor t);;
  mret t.

Definition GetMudnnHandle : M unit := lib_event LGetMudnnHandle.

(** [CHECK_MUDNN_STATUS(rst, msg)]. *)
Definition CHECK_MUDNN_STATUS (rst : Status) (msg : string) : M unit :=
  match rst with
  | SUCCESS => mret tt
  | FAILURE _ => raise msg
  end.

(* ------------------------------------------------------------------ *)
(** ** The run entry points of the primitive library *)
(* ------------------------------------------------------------------ *)

(** When a run succeeds the library has written its result into the
    storage behind the output handle. *)
Definition Reduce_Run (m : ReduceMode) (dims : list Z) (ord : option NormOrd)
    (out inp : muTensor) : M Status :=
  s ← lib (LReduce_Run out inp);
  match s with
  | SUCCESS =>
      i ← get inp;
      update out (set_data (DReduce m dims ord (data i)));;
      mret s
  | FAILURE _ => mret s
  end.

Definition Reduce_RunWithIndices (m : ReduceMode) (d : Z)
    (out ids inp : muTensor) : M Status :=
  s ← lib (LReduce_RunWithIndices out ids inp);
  match s with
  | SUCCESS =>
      i ← get inp;
      update out (set_data (DReduceValues m d (data i)));;
      update ids (set_data (DReduceIndices m d (data i)));;
      mret s
  | FAILURE _ => mret s
  end.

Definition Reduce_RunIndices (m : ReduceMode) (d : Z)
    (out inp : muTensor) : M Status :=
  s ← lib (LReduce_RunIndices out inp);
  match s with
  | SUCCESS =>
      i ← get inp;
      update out (set_data (DReduceIndices m d (data i)));;
      mret s
  | FAILURE _ => mret s
  end.

Definition Cum_Run (mode : CUM_MODE) (d : Z) (out inp : muTensor) : M Status :=
  s ← lib (LCum_Run out inp);
  match s with
  | SUCCESS =>
      i ← get inp;
      update out (set_data (DCum mode d (data i)));;
      mret s
  | FAILURE _ => mret s
  end.

(* ------------------------------------------------------------------ *)
(** ** ReduceCall and Reduction (Reduce.cpp, lines 147-217) *)
(* ------------------------------------------------------------------ *)

(** The order of the norm, lines 175-186. *)
Definition norm_p_value (p : option Scalar) : M NormOrd :=
  match p with
  | Some val =>
      if Scalar_isIntegral val false then
        mret (match val with ScalarInt v => OrdOfInt v | _ => OrdDefault end)
      else if Scalar_isFloatingPoint val then
        mret (match val with ScalarDouble b => OrdOfDouble b
                        | _ => OrdDefault end)
      else
        TORCH_CHECK false
          "norm_kernel_musa_impl expects norm to be integer or float";;
        mret OrdDefault
  | None => mret OrdDefault
  end.

Definition ReduceCall (output self : Tensor) (dims : list Z) (m : ReduceMode)
    (p : option Scalar) (is_norm : bool) : M unit :=
  self_r ← get self;
  with_guard (device self_r) (
    if decide (numel self_r = 0) then mret tt
    else
      input ← Contiguous self;
      out ← CreateMUTensor output;
      inp ← CreateMUTensor input;
      GetMudnnHandle;;
      s ← lib (LReduce_SetMode m);
      CHECK_MUDNN_STATUS s "SetMode";;
      dim_set ←
        (if decide (dim self_r = 0 /\ numel self_r = 1) then
           s ← lib (LReduce_SetDim []);
           CHECK_MUDNN_STATUS s "SetDim";;
           mret []
         else
           let dim_int := static_cast_int <$> dims in
           s ← lib (LReduce_SetDim dim_int);
           CHECK_MUDNN_STATUS s "SetDim";;
           mret dim_int);
      ord ←
        (if is_norm then
           p_value ← norm_p_value p;
           s ← lib (LReduce_SetNormOrd p_value);
           CHECK_MUDNN_STATUS s "SetNormOrd";;
           mret (Some p_value)
         else mret None);
      s ← Reduce_Run m dim_set ord out inp;
      CHECK_MUDNN_STATUS s "Run").

Definition Reduction (self : Tensor) (dims : list Z) (keepdim : bool)
    (out_dtype : option ScalarType) (m : ReduceMode) (p : option Scalar)
    (is_norm : bool) : M Tensor :=
  self_r ← get self;
  with_guard (device self_r) (
    let out_dtype :=
      musa_infer_dtype_from_optional self_r out_dtype undefined_tensor in
    dims_vec ← lift (maybe_wrap_dims dims (dim self_r));
    shape ← lift (get_reduction_shape self_r dims_vec keepdim);
    output ← at_empty shape (device self_r) out_dtype;
    propagate_names output self;;
    (if decide (numel self_r = 0) then zero_ output
     else ReduceCall output self dims_vec m p is_norm);;
    mret output).

(** [o.value()] of a [c10::optional]. *)
Definition optional_value {A} (o : option A) : M A :=
  match o with
  | Some v => mret v
  | None => raise "bad optional access"
  end.

(* ------------------------------------------------------------------ *)
(** ** Mean, Sum, Prod, Norm (lines 220-392) *)
(* ------------------------------------------------------------------ *)

Definition Mean (self : Tensor) (dtype : option ScalarType) : M Tensor :=
  Reduction self [] false dtype MEAN None false.

Definition MeanDim (self : Tensor) (dims : option (list Z)) (keepdim : bool)
    (dtype : option ScalarType) : M Tensor :=
  d ← optional_value dims;
  Reduction self d keepdim dtype MEAN None false.

Definition MeanOut (self : Tensor) (dims : option (list Z)) (keepdim : bool)
    (dtype : option ScalarType) (output : Tensor) : M Tensor :=
  d ← optional_value dims;
  ReduceCall output self d MEAN None false;;
  mret output.

Definition MeanNamesDim (self : Tensor) (names : list Dimname)
    (keepdim : bool) (dtype : option ScalarType) : M Tensor :=
  s ← get self;
  d ← lift (dimnames_to_positions E s names);
  Reduction self d keepdim dtype MEAN None false.

Definition MeanNamesDimOut (self : Tensor) (names : list Dimname)
    (keepdim : bool) (dtype : option ScalarType) (output : Tensor)
  : M Tensor :=
  s ← get self;
  d ← lift (dimnames_to_positions E s names);
  ReduceCall output self d MEAN None false;;
  mret output.

Definition Sum (self : Tensor) (dtype : option ScalarType) : M Tensor :=
  Reduction self [] false dtype ADD None false.

Definition SumIntListOut (self : Tensor) (dims : option (list Z))
    (keepdim : bool) (opt_dtype : option ScalarType) (output : Tensor)
  : M Tensor :=
  self_r ← get self;
  with_guard (device self_r) (
    d ← optional_value dims;
    dims_vec ← lift (maybe_wrap_dims d (dim self_r));
    shape ← lift (get_reduction_shape self_r dims_vec keepdim);
    resize_ output shape;;
    d ← optional_value dims;
    ReduceCall output self d ADD None false;;
    mret output).

Definition SumDimnameList (self : Tensor) (names : list Dimname)
    (keepdim : bool) (dtype : option ScalarType) : M Tensor :=
  s ← get self;
  d ← lift (dimnames_to_positions E s names);
  Reduction self d keepdim dtype ADD None false.

Definition SumDimnameListOut (self : Tensor) (names : list Dimname)
    (keepdim : bool) (dtype : option ScalarType) (output : Tensor)
  : M Tensor :=
  s ← get self;
  d ← lift (dimnames_to_positions E s names);
  ReduceCall output self d ADD None false;;
  mret output.

Definition SumIntList (self : Tensor) (dims : option (list Z))
    (keepdim : bool) (opt_dtype : option ScalarType) : M Tensor :=
  d ← optional_value dims;
  Reduction self d keepdim opt_dtype ADD None false.

Definition Prod (self : Tensor) (dtype : option ScalarType) : M Tensor :=
  Reduction self [] false dtype PROD None false.

Definition ProdIntOut (self : Tensor) (d : Z) (keepdim : bool)
    (dtype : option ScalarType) (output : Tensor) : M Tensor :=
  ReduceCall output self [d] PROD None false;;
  mret output.

Definition is_norm_dtype (t : ScalarType) : bool :=
  bool_decide (t = Float) || bool_decide (t = Half)
  || bool_decide (t = BFloat16).

Definition NormDtypeOut (self : Tensor) (p : option Scalar) (dims : list Z)
    (keepdim : bool) (dtype : ScalarType) (out : Tensor) : M Tensor :=
  self_r ← get self;
  TORCH_CHECK (is_norm_dtype (scalar_type self_r))
    "Dtype of input tensor of Norm.out only support Float32, Half, BFloat16.";;
  TORCH_CHECK (is_norm_dtype dtype)
    "Dtype of input tensor of Norm.out only support Float32, Half, BFloat16.";;
  out_r ← get out;
  let out_dtype := scalar_type out_r in
  let gpu_lowp_to_f32 :=
    (bool_decide (scalar_type self_r = kHalf)
     || bool_decide (scalar_type self_r = kBFloat16))
    && bool_decide (out_dtype = kFloat) in
  out_temp ← Reduction self dims keepdim
               (Some (if gpu_lowp_to_f32 then scalar_type self_r
                      else out_dtype))
               NORM p true;
  copy_ out out_temp;;
  mret out.

Definition NormOut (self : Tensor) (p : option Scalar) (dims : list Z)
    (keepdim : bool) (out : Tensor) : M Tensor :=
  self_r ← get self;
  NormDtypeOut self p dims keepdim (scalar_type self_r) out.

(* ------------------------------------------------------------------ *)
(** ** Cumulative operators (lines 394-529) *)
(* ------------------------------------------------------------------ *)

(** The scalar types the library computes in (lines 409-431): the pair
    [(in_ctype, out_ctype)] after the promotion and the muDNN workarounds. *)
Definition cumulative_ctypes (in_ctype out_ctype : ScalarType)
  : ScalarType * ScalarType :=
  if isFloatingType in_ctype || isFloatingType out_ctype then
    let out_ctype := promoteTypes E in_ctype out_ctype in
    (out_ctype, out_ctype)
  else if decide (out_ctype = Int \/ out_ctype = Long) then
    if decide (in_ctype = Byte \/ in_ctype = Short) then (Int, out_ctype)
    else if decide (in_ctype = Long) then (in_ctype, in_ctype)
    else (in_ctype, out_ctype)
  else
    if decide (in_ctype = Long) then (in_ctype, in_ctype)
    else
      let out_ctype := Int in
      if decide (in_ctype = Byte \/ in_ctype = Short) then
        (out_ctype, out_ctype)
      else (in_ctype, out_ctype).

(** The [make_proxy] lambda: [t] itself, or [t.to(dtype)]. *)
Definition make_proxy (t : Tensor) (dtype : ScalarType) : M Tensor :=
  r ← get t;
  if decide (dtype <> scalar_type r) then to_dtype t dtype
  else mret t.

Definition CumulativeImpl (out inp : Tensor) (d : Z) (mode : CUM_MODE)
  : M unit :=
  propagate_names out inp;;
  in_r ← get inp;
  if decide (numel in_r = 0) then mret tt
  else
    (if decide (dim in_r = 0) then fill_ out inp else mret tt);;
    in_r ← get inp;
    with_guard (device in_r) (
      out_r ← get out;
      let '(in_ctype, out_ctype) :=
        cumulative_ctypes (scalar_type in_r) (scalar_type out_r) in
      c_in ← make_proxy inp in_ctype;
      c_out ← make_proxy out out_ctype;
      contig_c_in ← FormatContiguous c_in;
      contig_c_out ← FormatContiguous c_out;
      mudnn_out ← CreateMUTensor contig_c_out;
      mudnn_in ← CreateMUTensor contig_c_in;
      GetMudnnHandle;;
      s ← lib (LCum_SetDim (static_cast_int d));
      CHECK_MUDNN_STATUS s "SetDim";;
      s ← lib (LCum_SetMode mode);
      CHECK_MUDNN_STATUS s "SetMode";;
      s ← Cum_Run mode (static_cast_int d) mudnn_out mudnn_in;
      CHECK_MUDNN_STATUS s "CumRun";;
      out_r ← get out;
      if decide (out_ctype <> scalar_type out_r) then copy_ out contig_c_out
      else mret tt).

Definition CumulativeOut (self : Tensor) (d : Z)
    (dtype : option ScalarType) (out : Tensor) (mode : CUM_MODE)
  : M Tensor :=
  match dtype with
  | Some expect_dtype =>
      out_r ← get out;
      let out_dtype := scalar_type out_r in
      TORCH_CHECK (bool_decide (expect_dtype = out_dtype))
        "Expected out tensor to have dtype"
  | None => mret tt
  end;;
  self_r ← get self;
  resize_output out (sizes self_r);;
  CumulativeImpl out self d mode;;
  mret out.

Definition Cumulative_ (self : Tensor) (d : Z) (dtype : option ScalarType)
    (mode : CUM_MODE) : M Tensor :=
  CumulativeImpl self self d mode;;
  mret self.

Definition Cumulative (self : Tensor) (d : Z) (dtype : option ScalarType)
    (mode : CUM_MODE) : M Tensor :=
  self_r ← get self;
  let in_dtype := scalar_type self_r in
  let out_dtype :=
    default (if isIntegralType in_dtype true then Long else in_dtype) dtype in
  out ← at_empty (sizes self_r) (device self_r) out_dtype;
  CumulativeImpl out self d mode;;
  mret out.

(** [GEN_CUMULATIVE_FUNCTION(CumSum, CUM_MODE::ADD)] and
    [GEN_CUMULATIVE_FUNCTION(CumProd, CUM_MODE::MUL)]. *)
Definition CumSum (self : Tensor) (d : Z) (dtype : option ScalarType)
  : M Tensor := Cumulative self d dtype CUM_ADD.
Definition CumSum_ (self : Tensor) (d : Z) (dtype : option ScalarType)
  : M Tensor := Cumulative_ self d dtype CUM_ADD.
Definition CumSumOut (self : Tensor) (d : Z) (dtype : option ScalarType)
    (out : Tensor) : M Tensor := CumulativeOut self d dtype out CUM_ADD.
Definition CumProd (self : Tensor) (d : Z) (dtype : option ScalarType)
  : M Tensor := Cumulative self d dtype CUM_MUL.
Definition CumProd_ (self : Tensor) (d : Z) (dtype : option ScalarType)
  : M Tensor := Cumulative_ self d dtype CUM_MUL.
Definition CumProdOut (self : Tensor) (d : Z) (dtype : option ScalarType)
    (out : Tensor) : M Tensor := CumulativeOut self d dtype out CUM_MUL.

(* ------------------------------------------------------------------ *)
(** ** Any (lines 531-587) *)
(* ------------------------------------------------------------------ *)

Definition Any (self : Tensor) : M Tensor :=
  self_r ← get self;
  out ← Reduction self [] false (Some (scalar_type self_r)) OR None false;
  self_r ← get self;
  if decide (scalar_type self_r <> Bool) then to_dtype out Bool
  else mret out.

(** [out = out.to(ScalarType::Bool)] rebinds the caller's reference: the
    handle returned is the one [out] names afterwards. *)
Definition AnyOut (self out : Tensor) : M Tensor :=
  ReduceCall out self [] OR None false;;
  self_r ← get self;
  if decide (scalar_type self_r <> Bool) then to_dtype out Bool
  else mret out.

(** The condition
    [scalar_type == Bool || item<int>() == 0 || item<int>() == 1],
    evaluated left to right. *)
Definition bool_or_01 (self : Tensor) : M bool :=
  self_r ← get self;
  if decide (scalar_type self_r = Bool) then mret true
  else
    v ← item self;
    if decide (v = 0) then mret true
    else
      v ← item self;
      mret (bool_decide (v = 1)).

Definition AnyDim (self : Tensor) (d : Z) (keepdim : bool) : M Tensor :=
  c ← bool_or_01 self;
  TORCH_CHECK c "Now only support bool type or 0/1 value";;
  self_r ← get self;
  Reduction self [d] keepdim (Some (scalar_type self_r)) OR None false.

Definition AnyDimOut (self : Tensor) (d : Z) (keepdim : bool) (out : Tensor)
  : M Tensor :=
  c ← bool_or_01 self;
  TORCH_CHECK c "Now only support bool type or 0/1 value";;
  ReduceCall out self [d] OR None false;;
  mret out.

(* ------------------------------------------------------------------ *)
(** ** Reductions with indices (lines 589-670) *)
(* ------------------------------------------------------------------ *)

Definition ReduceIndicesCall (output indices self : Tensor) (d : Z)
    (m : ReduceMode) : M unit :=
  self_r ← get self;
  output_r ← get output;
  TORCH_CHECK (bool_decide (scalar_type self_r = scalar_type output_r))
    "scalar_type of in&out must be the same";;
  with_guard (device self_r) (
    out_tmp ← FormatContiguous output;
    indices_tmp ← FormatContiguous indices;
    out ← CreateMUTensor out_tmp;
    ids ← CreateMUTensor indices_tmp;
    inp ← CreateMUTensor self;
    GetMudnnHandle;;
    s ← lib (LReduce_SetMode m);
    CHECK_MUDNN_STATUS s "SetMode";;
    let dim_int := static_cast_int d in
    s ← lib (LReduce_SetDim [dim_int]);
    CHECK_MUDNN_STATUS s "SetDim";;
    s ← Reduce_RunWithIndices m dim_int out ids inp;
    CHECK_MUDNN_STATUS s "RunWithIndices";;
    (if decide (output <> out_tmp) then copy_ output out_tmp else mret tt);;
    (if decide (indices <> indices_tmp) then copy_ indices indices_tmp
     else mret tt)).

Definition ReduceIndicesOnlyCall (output self : Tensor) (d : Z)
    (m : ReduceMode) : M unit :=
  self_r ← get self;
  with_guard (device self_r) (
    out_tmp ← FormatContiguous output;
    out ← CreateMUTensor out_tmp;
    inp ← CreateMUTensor self;
    GetMudnnHandle;;
    s ← lib (LReduce_SetMode m);
    CHECK_MUDNN_STATUS s "SetMode";;
    let dim_int := static_cast_int d in
    s ← lib (LReduce_SetDim [dim_int]);
    CHECK_MUDNN_STATUS s "SetDim";;
    s ← Reduce_RunIndices m dim_int out inp;
    CHECK_MUDNN_STATUS s "RunIndices";;
    if decide (output <> out_tmp) then copy_ output out_tmp else mret tt).

Definition ReductionIndices (self : Tensor) (d : Z) (keepdim : bool)
    (m : ReduceMode) : M (Tensor * Tensor) :=
  self_r ← get self;
  d ← lift (maybe_wrap_dim d (dim self_r));
  dims_vec ← lift (maybe_wrap_dims [d] (dim self_r));
  shape ← lift (get_reduction_shape self_r dims_vec keepdim);
  let out_dtype := scalar_type self_r in
  output ← at_empty shape (device self_r) out_dtype;
  indices ← at_empty shape (device self_r) kLong;
  propagate_names output self;;
  propagate_names indices self;;
  ReduceIndicesCall output indices self d m;;
  mret (output, indices).

(* ------------------------------------------------------------------ *)
(** ** Max, All, ArgMax/ArgMin, Min (lines 672-906) *)
(* ------------------------------------------------------------------ *)

Definition MaxAllCall (self : Tensor) (m : ReduceMode) : M Tensor :=
  self_r ← get self;
  let out_dtype := scalar_type self_r in
  output ← at_empty [] (device self_r) out_dtype;
  (if decide (numel self_r = 0) then zero_ output
   else ReduceCall output self [] m None false);;
  mret output.

(** [at::max(t)] and [at::min(t)] of the host framework, on a CPU tensor:
    a zero-dimensional result; an empty tensor is refused. *)
Definition at_reduce_all (f : HostReduce) (t : Tensor) : M Tensor :=
  r ← get t;
  TORCH_CHECK (bool_decide (numel r <> 0))
    "Expected reduction dim to be specified for input.numel() == 0";;
  host_reduce f t [].

(** [t.to("musa")]: the index left open is the current device's. *)
Definition to_musa (t : Tensor) : M Tensor :=
  cur ← get_current_device;
  to_device t (mkDevice kMUSA (dev_index cur)).

Definition MaxAll (self : Tensor) : M Tensor :=
  self_r ← get self;
  with_guard (device self_r) (
    if decide (scalar_type self_r = Double) then
      c ← to_device self (mkDevice kCPU (-1));
      r ← at_reduce_all HostMax c;
      to_musa r
    else MaxAllCall self MAX).

Definition MaxDim (self : Tensor) (d : Z) (keepdim : bool)
  : M (Tensor * Tensor) :=
  ReductionIndices self d keepdim MAX.

Definition MaxDimMax (self : Tensor) (d : Z) (keepdim : bool)
    (output indices : Tensor) : M (Tensor * Tensor) :=
  self_r ← get self;
  d ← lift (maybe_wrap_dim d (dim self_r));
  dims_vec ← lift (maybe_wrap_dims [d] (dim self_r));
  shape ← lift (get_reduction_shape self_r dims_vec keepdim);
  output_r ← get output;
  (if decide (0 = numel output_r) then resize_output output shape
   else mret false);;
  indices_r ← get indices;
  (if decide (0 = numel indices_r) then resize_output indices shape
   else mret false);;
  ReduceIndicesCall output indices self d MAX;;
  mret (output, indices).

Definition MaxNamesDim (self : Tensor) (name : Dimname) (keepdim : bool)
  : M (Tensor * Tensor) :=
  s ← get self;
  d ← lift (dimname_to_position E s name);
  ReductionIndices self d keepdim MAX.

Definition MaxNamesDimMax (self : Tensor) (name : Dimname) (keepdim : bool)
    (output indices : Tensor) : M (Tensor * Tensor) :=
  s ← get self;
  d ← lift (dimname_to_position E s name);
  ReduceIndicesCall output indices self d MAX;;
  mret (output, indices).

Definition All (self : Tensor) : M Tensor :=
  self_r ← get self;
  output ← Reduction self [] false (Some (scalar_type self_r)) AND None false;
  self_r ← get self;
  if decide (scalar_type self_r <> Bool) then to_dtype output Bool
  else mret output.

(** The condition of [AllDim] and [AllDimOut]:
    [Bool || Byte || item<int>() == 0 || item<int>() == 1]. *)
Definition bool_byte_or_01 (self : Tensor) : M bool :=
  self_r ← get self;
  if decide (scalar_type self_r = Bool) then mret true
  else if decide (scalar_type self_r = Byte) then mret true
  else
    v ← item self;
    if decide (v = 0) then mret true
    else
      v ← item self;
      mret (bool_decide (v = 1)).

Definition AllDim (self : Tensor) (d : Z) (keepdim : bool) : M Tensor :=
  c ← bool_byte_or_01 self;
  TORCH_CHECK c "Now only support bool/uint8 type or 0/1 value";;
  self_r ← get self;
  if decide (scalar_type self_r = Byte) then
    self_ ← to_dtype self Bool;
    Reduction self_ [d] keepdim (Some (scalar_type self_r)) AND None false
  else
    Reduction self [d] keepdim (Some (scalar_type self_r)) AND None false.

Definition AllDimOut (self : Tensor) (d : Z) (keepdim : bool) (out : Tensor)
  : M Tensor :=
  c ← bool_byte_or_01 self;
  TORCH_CHECK c "Now only support bool/uint8 type or 0/1 value";;
  self_r ← get self;
  (if decide (scalar_type self_r = Byte) then
     self_ ← to_dtype self Bool;
     ReduceCall out self_ [d] AND None false
   else
     ReduceCall out self [d] AND None false);;
  mret out.

Definition ArgMinOrMaxOutTemplate (self : Tensor) (d : option Z)
    (result : Tensor) (m : ReduceMode) : M unit :=
  self_ ← (match d with Some _ => mret self | None => flatten self end);
  self_r ← get self;
  dim_ ← (match d with
          | Some v => lift (maybe_wrap_dim v (dim self_r))
          | None => mret 0
          end);
  ReduceIndicesOnlyCall result self_ dim_ m.

Definition argmax_out_musa (self : Tensor) (d : option Z) (keepdim : bool)
    (result : Tensor) : M unit :=
  ArgMinOrMaxOutTemplate self d result MAX.

Definition argmin_out_musa (self : Tensor) (d : option Z) (keepdim : bool)
    (result : Tensor) : M unit :=
  ArgMinOrMaxOutTemplate self d result MIN.

Definition MinAllCall (self : Tensor) (m : ReduceMode) : M Tensor :=
  self_r ← get self;
  let out_dtype := scalar_type self_r in
  output ← at_empty [] (device self_r) out_dtype;
  (if decide (numel self_r = 0) then zero_ output
   else ReduceCall output self [] m None false);;
  mret output.

Definition MinAll (self : Tensor) : M Tensor :=
  self_r ← get self;
  with_guard (device self_r) (
    if decide (scalar_type self_r = Double) then
      c ← to_device self (mkDevice kCPU (-1));
      r ← at_reduce_all HostMin c;
      to_musa r
    else MinAllCall self MIN).

Definition MinDim (self : Tensor) (d : Z) (keepdim : bool)
  : M (Tensor * Tensor) :=
  ReductionIndices self d keepdim MIN.

Definition MinDimMin (self : Tensor) (d : Z) (keepdim : bool)
    (output indices : Tensor) : M (Tensor * Tensor) :=
  ReduceIndicesCall output indices self d MIN;;
  mret (output, indices).

Definition MinNamesDim (self : Tensor) (name : Dimname) (keepdim : bool)
  : M (Tensor * Tensor) :=
  s ← get self;
  d ← lift (dimname_to_position E s name);
  ReductionIndices self d keepdim MIN.

Definition MinNamesDimMin (self : Tensor) (name : Dimname) (keepdim : bool)
    (output indices : Tensor) : M (Tensor * Tensor) :=
  s ← get self;
  d ← lift (dimname_to_position E s name);
  ReduceIndicesCall output indices self d MIN;;
  mret (output, indices).

(* ------------------------------------------------------------------ *)
(** ** Variance (lines 908-938): handed to the host framework *)
(* ------------------------------------------------------------------ *)

(** The shape [at::native::var] and [var_mean] give their results. *)
Definition host_var_shape (self_r : TensorRec) (dims : option (list Z))
    (keepdim : bool) : Result (list Z) :=
  dims_vec ← maybe_wrap_dims (default [] dims) (dim self_r);
  get_reduction_shape self_r dims_vec keepdim.

(** [OptionalDeviceGuard(device_of(self))]. *)
Definition with_optional_guard {A} (self_r : TensorRec) (body : M A) : M A :=
  if defined self_r then with_guard (device self_r) body else body.

Definition VarMeanCorrection (self : Tensor) (dims : option (list Z))
    (correction : option Scalar) (keepdim : bool) : M (Tensor * Tensor) :=
  emit (EvHost Hlazy_init);;
  self_r ← get self;
  with_guard (device self_r) (
    shape ← lift (host_var_shape self_r dims keepdim);
    v ← host_reduce HostVarMean_var self shape;
    mn ← host_reduce HostVarMean_mean self shape;
    mret (v, mn)).

Definition VarCorrection (self : Tensor) (dims : option (list Z))
    (correction : option Scalar) (keepdim : bool) : M Tensor :=
  self_r ← get self;
  with_optional_guard self_r (
    shape ← lift (host_var_shape self_r dims keepdim);
    host_reduce HostVar self shape).

Definition VarOutCorrection (self : Tensor) (dims : option (list Z))
    (correction : option Scalar) (keepdim : bool) (out : Tensor)
  : M Tensor :=
  self_r ← get self;
  with_optional_guard self_r (
    shape ← lift (host_var_shape self_r dims keepdim);
    resize_output out shape;;
    update out (set_data (DHost HostVar (data self_r)));;
    emit (EvHost (Hreduce HostVar out self));;
    mret out).

(* ------------------------------------------------------------------ *)
(** ** The operators of Reduce.cpp, as one family *)
(* ------------------------------------------------------------------ *)

(** A call of an operator of the file with its arguments. *)
Inductive Op : Type :=
| OpMean (self : Tensor) (dtype : option ScalarType)
| OpMeanDim (self : Tensor) (dims : option (list Z)) (keepdim : bool)
            (dtype : option ScalarType)
| OpMeanOut (self : Tensor) (dims : option (list Z)) (keepdim : bool)
            (dtype : option ScalarType) (output : Tensor)
| OpMeanNamesDim (self : Tensor) (names : list Dimname) (keepdim : bool)
                 (dtype : option ScalarType)
| OpMeanNamesDimOut (self : Tensor) (names : list Dimname) (keepdim : bool)
                    (dtype : option ScalarType) (output : Tensor)
| OpSum (self : Tensor) (dtype : option ScalarType)
| OpSumIntListOut (self : Tensor) (dims : option (list Z)) (keepdim : bool)
                  (dtype : option ScalarType) (output : Tensor)
| OpSumDimnameList (self : Tensor) (names : list Dimname) (keepdim : bool)
                   (dtype : option ScalarType)
| OpSumDimnameListOut (self : Tensor) (names : list Dimname)
                      (keepdim : bool) (dtype : option ScalarType)
                      (output : Tensor)
| OpSumIntList (self : Tensor) (dims : option (list Z)) (keepdim : bool)
               (dtype : option ScalarType)
| OpProd (self : Tensor) (dtype : option ScalarType)
| OpProdIntOut (self : Tensor) (d : Z) (keepdim : bool)
               (dtype : option ScalarType) (output : Tensor)
| OpNormDtypeOut (self : Tensor) (p : option Scalar) (dims : list Z)
                 (keepdim : bool) (dtype : ScalarType) (out : Tensor)
| OpNormOut (self : Tensor) (p : option Scalar) (dims : list Z)
            (keepdim : bool) (out : Tensor)
| OpCumSum (self : Tensor) (d : Z) (dtype : option ScalarType)
| OpCumSum_ (self : Tensor) (d : Z) (dtype : option ScalarType)
| OpCumSumOut (self : Tensor) (d : Z) (dtype : option ScalarType)
              (out : Tensor)
| OpCumProd (self : Tensor) (d : Z) (dtype : option ScalarType)
| OpCumProd_ (self : Tensor) (d : Z) (dtype : option ScalarType)
| OpCumProdOut (self : Tensor) (d : Z) (dtype : option ScalarType)
               (out : Tensor)
| OpAny (self : Tensor)
| OpAnyOut (self out : Tensor)
| OpAnyDim (self : Tensor) (d : Z) (keepdim : bool)
| OpAnyDimOut (self : Tensor) (d : Z) (keepdim : bool) (out : Tensor)
| OpMaxAll (self : Tensor)
| OpMaxDim (self : Tensor) (d : Z) (keepdim : bool)
| OpMaxDimMax (self : Tensor) (d : Z) (keepdim : bool)
              (output indices : Tensor)
| OpMaxNamesDim (self : Tensor) (name : Dimname) (keepdim : bool)
| OpMaxNamesDimMax (self : Tensor) (name : Dimname) (keepdim : bool)
                   (output indices : Tensor)
| OpAll (self : Tensor)
| OpAllDim (self : Tensor) (d : Z) (keepdim : bool)
| OpAllDimOut (self : Tensor) (d : Z) (keepdim : bool) (out : Tensor)
| OpArgmaxOut (self : Tensor) (d : option Z) (keepdim : bool)
              (result : Tensor)
| OpArgminOut (self : Tensor) (d : option Z) (keepdim : bool)
              (result : Tensor)
| OpMinAll (self : Tensor)
| OpMinDim (self : Tensor) (d : Z) (keepdim : bool)
| OpMinDimMin (self : Tensor) (d : Z) (keepdim : bool)
              (output indices : Tensor)
| OpMinNamesDim (self : Tensor) (name : Dimname) (keepdim : bool)
| OpMinNamesDimMin (self : Tensor) (name : Dimname) (keepdim : bool)
                   (output indices : Tensor)
| OpVarMeanCorrection (self : Tensor) (dims : option (list Z))
                      (correction : option Scalar) (keepdim : bool)
| OpVarCorrection (self : Tensor) (dims : option (list Z))
                  (correction : option Scalar) (keepdim : bool)
| OpVarOutCorrection (self : Tensor) (dims : option (list Z))
                     (correction : option Scalar) (keepdim : bool)
                     (out : Tensor).

(** What an operator hands back. *)
Inductive OpResult : Type :=
| RNone
| ROne (t : Tensor)
| RPair (values indices : Tensor).

Definition one (m : M Tensor) : M OpResult := t ← m; mret (ROne t).
Definition pair (m : M (Tensor * Tensor)) : M OpResult :=
  p ← m; mret (RPair p.1 p.2).
Definition none (m : M unit) : M OpResult := m;; mret RNone.

Definition exec (op : Op) : M OpResult :=
  match op with
  | OpMean self dtype => one (Mean self dtype)
  | OpMeanDim self dims keepdim dtype => one (MeanDim self dims keepdim dtype)
  | OpMeanOut self dims keepdim dtype output =>
      one (MeanOut self dims keepdim dtype output)
  | OpMeanNamesDim self names keepdim dtype =>
      one (MeanNamesDim self names keepdim dtype)
  | OpMeanNamesDimOut self names keepdim dtype output =>
      one (MeanNamesDimOut self names keepdim dtype output)
  | OpSum self dtype => one (Sum self dtype)
  | OpSumIntListOut self dims keepdim dtype output =>
      one (SumIntListOut self dims keepdim dtype output)
  | OpSumDimnameList self names keepdim dtype =>
      one (SumDimnameList self names keepdim dtype)
  | OpSumDimnameListOut self names keepdim dtype output =>
      one (SumDimnameListOut self names keepdim dtype output)
  | OpSumIntList self dims keepdim dtype =>
      one (SumIntList self dims keepdim dtype)
  | OpProd self dtype => one (Prod self dtype)
  | OpProdIntOut self d keepdim dtype output =>
      one (ProdIntOut self d keepdim dtype output)
  | OpNormDtypeOut self p dims keepdim dtype out =>
      one (NormDtypeOut self p dims keepdim dtype out)
  | OpNormOut self p dims keepdim out =>
      one (NormOut self p dims keepdim out)
  | OpCumSum self d dtype => one (CumSum self d dtype)
  | OpCumSum_ self d dtype => one (CumSum_ self d dtype)
  | OpCumSumOut self d dtype out => one (CumSumOut self d dtype out)
  | OpCumProd self d dtype => one (CumProd self d dtype)
  | OpCumProd_ self d dtype => one (CumProd_ self d dtype)
  | OpCumProdOut self d dtype out => one (CumProdOut self d dtype out)
  | OpAny self => one (Any self)
  | OpAnyOut self out => one (AnyOut self out)
  | OpAnyDim self d keepdim => one (AnyDim self d keepdim)
  | OpAnyDimOut self d keepdim out => one (AnyDimOut self d keepdim out)
  | OpMaxAll self => one (MaxAll self)
  | OpMaxDim self d keepdim => pair (MaxDim self d keepdim)
  | OpMaxDimMax self d keepdim output indices =>
      pair (MaxDimMax self d keepdim output indices)
  | OpMaxNamesDim self name keepdim => pair (MaxNamesDim self name keepdim)
  | OpMaxNamesDimMax self name keepdim output indices =>
      pair (MaxNamesDimMax self name keepdim output indices)
  | OpAll self => one (All self)
  | OpAllDim self d keepdim => one (AllDim self d keepdim)
  | OpAllDimOut self d keepdim out => one (AllDimOut self d keepdim out)
  | OpArgmaxOut self d keepdim result =>
      none (argmax_out_musa self d keepdim result)
  | OpArgminOut self d keepdim result =>
      none (argmin_out_musa self d keepdim result)
  | OpMinAll self => one (MinAll self)
  | OpMinDim self d keepdim => pair (MinDim self d keepdim)
  | OpMinDimMin self d keepdim output indices =>
      pair (MinDimMin self d keepdim output indices)
  | OpMinNamesDim self name keepdim => pair (MinNamesDim self name keepdim)
  | OpMinNamesDimMin self name keepdim output indices =>
      pair (MinNamesDimMin self name keepdim output indices)
  | OpVarMeanCorrection self dims correction keepdim =>
      pair (VarMeanCorrection self dims correction keepdim)
  | OpVarCorrection self dims correction keepdim =>
      one (VarCorrection self dims correction keepdim)
  | OpVarOutCorrection self dims correction keepdim out =>
      one (VarOutCorrection self dims correction keepdim out)
  end.

End Operators.

(** The input tensor of an operator call. *)
Definition op_self (op : Op) : Tensor :=
  match op with
  | OpMean self _ | OpMeanDim self _ _ _ | OpMeanOut self _ _ _ _
  | OpMeanNamesDim self _ _ _ | OpMeanNamesDimOut self _ _ _ _
  | OpSum self _ | OpSumIntListOut self _ _ _ _
  | OpSumDimnameList self _ _ _ | OpSumDimnameListOut self _ _ _ _
  | OpSumIntList self _ _ _ | OpProd self _ | OpProdIntOut self _ _ _ _
  | OpNormDtypeOut self _ _ _ _ _ | OpNormOut self _ _ _ _
  | OpCumSum self _ _ | OpCumSum_ self _ _ | OpCumSumOut self _ _ _
  | OpCumProd self _ _ | OpCumProd_ self _ _ | OpCumProdOut self _ _ _
  | OpAny self | OpAnyOut self _ | OpAnyDim self _ _ | OpAnyDimOut self _ _ _
  | OpMaxAll self | OpMaxDim self _ _ | OpMaxDimMax self _ _ _ _
  | OpMaxNamesDim self _ _ | OpMaxNamesDimMax self _ _ _ _
  | OpAll self | OpAllDim self _ _ | OpAllDimOut self _ _ _
  | OpArgmaxOut self _ _ _ | OpArgminOut self _ _ _
  | OpMinAll self | OpMinDim self _ _ | OpMinDimMin self _ _ _ _
  | OpMinNamesDim self _ _ | OpMinNamesDimMin self _ _ _ _
  | OpVarMeanCorrection self _ _ _ | OpVarCorrection self _ _ _
  | OpVarOutCorrection self _ _ _ _ => self
  end.

(* ================================================================== *)
(** * Streams (MUSAStream.h) *)
(* ================================================================== *)

(* ------------------------------------------------------------------ *)
(** ** c10::Stream, the host framework's stream value *)
(* ------------------------------------------------------------------ *)

(** [StreamId] is an [int64_t]. *)
Abbreviation StreamId := Z (only parsing).

Record Stream : Type := mkStream {
  stream_device : Device;
  stream_id : StreamId
}.

#[global] Instance Stream_eq_dec : EqDecision Stream.
Proof. solve_decision. Defined.

Definition Stream_device_type (s : Stream) : DeviceType :=
  dev_type (stream_device s).
Definition Stream_device_index (s : Stream) : DeviceIndex :=
  dev_index (stream_device s).

(** [Stream::operator==]: same device and same id. *)
Definition Stream_eqb (a b : Stream) : bool :=
  bool_decide (stream_device a = stream_device b)
  && bool_decide (stream_id a = stream_id b).

(** [c10::StreamData3]. *)
Record StreamData3 : Type := mkStreamData3 {
  sd_stream_id : StreamId;
  sd_device_index : DeviceIndex;
  sd_device_type : DeviceType
}.

Definition Stream_pack3 (s : Stream) : StreamData3 :=
  mkStreamData3 (stream_id s) (Stream_device_index s) (Stream_device_type s).

(** [c10::isValidDeviceType]: true of every enumerator. *)
Definition isValidDeviceType (d : DeviceType) : bool :=
  match d with
  | CPU | CUDA | MKLDNN | OPENGL | OPENCL | IDEEP | HIP | FPGA | ORT | XLA
  | Vulkan | Metal | XPU | MPS | Meta | HPU | VE | Lazy | IPU | MTIA
  | PrivateUse1 => true
  end.

Definition Stream_unpack3 (stream_id : StreamId) (device_index : DeviceIndex)
    (device_type : DeviceType) : Result Stream :=
  if isValidDeviceType device_type then
    Ok (mkStream (mkDevice device_type device_index) stream_id)
  else Err "isValidDeviceType(device_type)".

(** [static_cast<uint64_t>(x)] and the 64-bit left shift. *)
Definition to_uint64 (x : Z) : Z := x mod 2 ^ 64.
Definition shl64 (x n : Z) : Z := Z.shiftl x n mod 2 ^ 64.

(** [Stream::hash()]: device type, device index and the low 48 bits of the
    id, packed into one 64-bit word. *)
Definition Stream_hash (s : Stream) : Z :=
  Z.lor (Z.lor (shl64 (to_uint64 (DeviceType_code (Stream_device_type s))) 56)
               (shl64 (to_uint64 (Stream_device_index s)) 48))
        (Z.land (to_uint64 (stream_id s)) (shl64 1 48 - 1)).

(* ------------------------------------------------------------------ *)
(** ** The vendor runtime *)
(* ------------------------------------------------------------------ *)

(** [musaError_t], as far as the wrapper tells the codes apart. *)
Inductive musaError_t : Type :=
| musaSuccess
| musaErrorNotReady
| musaErrorOther (code : Z).

#[global] Instance musaError_t_eq_dec : EqDecision musaError_t.
Proof. solve_decision. Defined.

(** What the wrapper sees of the runtime: the current device and the
    pending error that [musaGetLastError] hands out and clears. *)
Record RuntimeState : Type := mkRuntime {
  rt_device : Device;
  rt_last_error : musaError_t
}.

(** The wrapper. *)
Record MUSAStream : Type := mkMUSAStream { stream_ : Stream }.

(** The answers of the vendor runtime and of the standard library's
    [std::hash<uint64_t>]: black boxes. *)
Record Runtime : Type := mkRuntimeEnv {
  streamQuery : MUSAStream -> RuntimeState -> musaError_t;
  streamSynchronize : MUSAStream -> RuntimeState -> musaError_t;
  streamGetPriority : MUSAStream -> RuntimeState -> musaError_t * Z;
  deviceGetStreamPriorityRange : RuntimeState -> musaError_t * Z * Z;
  std_hash_uint64 : Z -> Z
}.

Definition R (A : Type) : Type := RuntimeState -> Result A * RuntimeState.

#[global] Instance R_ret : MRet R := fun A a rt => (Ok a, rt).
#[global] Instance R_bind : MBind R := fun A B f m rt =>
  let '(r, rt1) := m rt in
  match r with
  | Ok a => f a rt1
  | Err e => (Err e, rt1)
  end.

Definition R_raise {A} (msg : string) : R A := fun rt => (Err msg, rt).

(** A runtime call that fails leaves its code as the pending error. *)
Definition record_error (e : musaError_t) (rt : RuntimeState) : RuntimeState :=
  match e with
  | musaSuccess => rt
  | _ => mkRuntime (rt_device rt) e
  end.

(** [musaGetLastError()]: hands out the pending error and clears it. *)
Definition musaGetLastError : R musaError_t :=
  fun rt => (Ok (rt_last_error rt), mkRuntime (rt_device rt) musaSuccess).

(** [c10::DeviceGuard guard(d)] around [body]. *)
Definition with_device_guard {A} (d : Device) (body : R A) : R A :=
  fun rt =>
    let '(r, rt1) := body (mkRuntime d (rt_last_error rt)) in
    (r, mkRuntime (rt_device rt) (rt_last_error rt1)).

(** Modelled from the spec: [TORCH_MUSA_CHECK] and
    [TORCH_MUSA_ERROR_HANDLE] are macros of
    torch_musa/csrc/core/MUSAException.h, which is not among the sources at
    hand.  The specification's "forward the call, translate the error":
    the check raises when the code is not [musaSuccess], the handle marks
    a code the caller deals with itself and passes it on. *)
Definition TORCH_MUSA_CHECK (err : musaError_t) : R unit :=
  if decide (err = musaSuccess) then mret tt else R_raise "MUSA error".

Definition TORCH_MUSA_ERROR_HANDLE (err : musaError_t) : musaError_t := err.

Section Streams.

Variable RT : Runtime.

Definition musaStreamQuery (s : MUSAStream) : R musaError_t :=
  fun rt => let e := streamQuery RT s rt in (Ok e, record_error e rt).

Definition musaStreamSynchronize (s : MUSAStream) : R musaError_t :=
  fun rt => let e := streamSynchronize RT s rt in (Ok e, record_error e rt).

Definition musaStreamGetPriority (s : MUSAStream) : R (musaError_t * Z) :=
  fun rt =>
    let '(e, p) := streamGetPriority RT s rt in (Ok (e, p), record_error e rt).

Definition musaDeviceGetStreamPriorityRange : R (musaError_t * Z * Z) :=
  fun rt =>
    let '(e, least, greatest) := deviceGetStreamPriorityRange RT rt in
    (Ok (e, least, greatest), record_error e rt).

(* ------------------------------------------------------------------ *)
(** ** class MUSAStream *)
(* ------------------------------------------------------------------ *)

(** [explicit MUSAStream(Stream stream)]. *)
Definition MUSAStream_of (stream : Stream) : Result MUSAStream :=
  if decide (Stream_device_type stream = kMUSA) then Ok (mkMUSAStream stream)
  else Err "stream_.device_type() == kMUSA".

(** [explicit MUSAStream(Unchecked, Stream stream)]. *)
Definition MUSAStream_unchecked (stream : Stream) : MUSAStream :=
  mkMUSAStream stream.

Definition unwrap (s : MUSAStream) : Stream := stream_ s.

(** [operator==] and [operator!=]. *)
Definition MUSAStream_eqb (a b : MUSAStream) : bool :=
  Stream_eqb (unwrap a) (unwrap b).
Definition MUSAStream_neqb (a b : MUSAStream) : bool :=
  negb (Stream_eqb (unwrap a) (unwrap b)).

Definition device_type (s : MUSAStream) : DeviceType := kMUSA.
Definition device_index (s : MUSAStream) : DeviceIndex :=
  Stream_device_index (stream_ s).
Definition MUSAStream_device (s : MUSAStream) : Device :=
  mkDevice kMUSA (device_index s).
Definition id (s : MUSAStream) : StreamId := stream_id (stream_ s).

Definition query (s : MUSAStream) : R bool :=
  with_device_guard (stream_device (stream_ s)) (
    e ← musaStreamQuery s;
    let err := TORCH_MUSA_ERROR_HANDLE e in
    if decide (err = musaSuccess) then mret true
    else
      (if decide (err <> musaErrorNotReady) then TORCH_MUSA_CHECK err
       else
         (* ignore and clear the error if not ready *)
         musaGetLastError;; mret tt);;
      mret false).

Definition synchronize (s : MUSAStream) : R unit :=
  with_device_guard (stream_device (stream_ s)) (
    e ← musaStreamSynchronize s;
    TORCH_MUSA_CHECK e).

(** [int] arithmetic wraps to 32 bits. *)
Definition int_sub (a b : Z) : Z := static_cast_int (a - b).

Definition priority (s : MUSAStream) : R Z :=
  with_device_guard (stream_device (stream_ s)) (
    ep ← musaStreamGetPriority s;
    TORCH_MUSA_CHECK ep.1;;
    mret (int_sub ep.2 1)).

Definition pack3 (s : MUSAStream) : StreamData3 := Stream_pack3 (stream_ s).

Definition unpack3 (stream_id : StreamId) (device_index : DeviceIndex)
    (device_type : DeviceType) : Result MUSAStream :=
  s ← Stream_unpack3 stream_id device_index device_type;
  MUSAStream_of s.

Definition priority_range : R (Z * Z) :=
  r ← musaDeviceGetStreamPriorityRange;
  let '(e, least_priority, greatest_priority) := r in
  TORCH_MUSA_CHECK e;;
  (if decide (least_priority >= 1) then mret tt
   else R_raise "Unexpected MUSA stream priority range");;
  (if decide (greatest_priority <= 0) then mret tt
   else R_raise "Unexpected MUSA stream priority range");;
  mret (0, -1).

(** [std::hash<c10::Stream>] and [std::hash<c10::musa::MUSAStream>]. *)
Definition std_hash_Stream (s : Stream) : Z :=
  std_hash_uint64 RT (Stream_hash s).
Definition std_hash_MUSAStream (s : MUSAStream) : Z :=
  std_hash_Stream (unwrap s).

End Streams.

(* ================================================================== *)
(** * Vocabulary of the statements *)
(* ================================================================== *)

(** The rule in the words of the specification. *)
Definition reduction_dtype_rule (self_type : ScalarType)
    (opt_dtype : option ScalarType) (result : option ScalarType) : ScalarType :=
  match opt_dtype, result with
  | Some d, _ => d
  | None, Some r => r
  | None, None =>
      if isIntegralType self_type true then Long else self_type
  end.

(** [unpack3] applied to the three fields of [pack3]. *)
Definition roundtrip (s : MUSAStream) : Result MUSAStream :=
  let d := pack3 s in
  unpack3 (sd_stream_id d) (sd_device_index d) (sd_device_type d).

(** What an operator keeps of a tensor it writes to. *)
Definition same_meta (r r' : TensorRec) : Prop :=
  defined r = defined r' /\ scalar_type r = scalar_type r'
  /\ device r = device r'.

(** The same, with the sizes and the layout. *)
Definition same_shape (r r' : TensorRec) : Prop :=
  same_meta r r' /\ sizes r = sizes r' /\ is_contiguous r = is_contiguous r'.

(** [st'] comes after [st]: the tensors of [st] are still there, related
    by [S], and the current device is the same. *)
Definition st_le (S : relation TensorRec) (st st' : State) : Prop :=
  (length (heap st) <= length (heap st'))%nat
  /\ (forall t, live st t -> S (tensor st t) (tensor st' t))
  /\ current_device st' = current_device st.

(** [m] leaves every tensor it finds related by [S] to what it was. *)
Definition respects (S : relation TensorRec) {A} (m : M A) : Prop :=
  forall st, st_le S st (out_state (m st)).

(** The outcome of [m] started in [st] satisfies [Q]. *)
Definition wp {A} (m : M A) (st : State)
    (Q : Result A -> State -> list Event -> Prop) : Prop :=
  Q (out_result (m st)) (out_state (m st)) (out_trace (m st)).

(** A dim in range [-n, n), counted from the front. *)
Definition wrap_of (n d : Z) : Z := if decide (d < 0) then d + n else d.

(** Calls into the primitive library. *)
Definition is_lib (ev : Event) : bool :=
  match ev with EvLib _ _ => true | _ => false end.

(** The run entry points of the primitive library. *)
Definition is_run_call (c : LibCall) : bool :=
  match c with
  | LReduce_Run _ _ | LReduce_RunWithIndices _ _ _ | LReduce_RunIndices _ _
  | LCum_Run _ _ => true
  | _ => false
  end.

(** A call of a run entry point. *)
Definition is_lib_run (ev : Event) : bool :=
  match ev with
  | EvLib c _ => is_run_call c
  | _ => false
  end.

(** A reduction of the host framework, or the zero fill of a result. *)
Definition host_reduces (ev : Event) : bool :=
  match ev with
  | EvHost (Hreduce _ _ _) | EvHost (Hzero_ _) => true
  | _ => false
  end.





(** The library call [ev] was made while [d] was the current device. *)
Definition lib_under (d : Device) (ev : Event) : Prop :=
  match ev with EvLib _ cur => cur = d | _ => True end.

(** Every library call of the record was made under device [d], and
    after a guard had switched to [d]. *)
Definition guarded (d : Device) (tr : list Event) : Prop :=
  forall i c cur, tr !! i = Some (EvLib c cur) ->
    cur = d /\ exists j, (j < i)%nat /\ tr !! j = Some (EvGuard d).

(** What the record of an operator with input device [d] has to satisfy;
    [nonempty] says the input has elements and [r] is the outcome. *)
Definition trace_spec {A} (d : Device) (nonempty : Prop) (r : Result A)
    (tr : list Event) : Prop :=
  guarded d tr
  /\ (nonempty ->
      Forall (fun ev => host_reduces ev = false) tr
      /\ (forall a, r = Ok a -> Exists (fun ev => is_lib_run ev = true) tr)).

(** Started under device [d], [m] makes its library calls under [d]. *)
Definition under (d : Device) {A} (m : M A) : Prop :=
  forall st, current_device st = d -> Forall (lib_under d) (out_trace (m st)).

(** [m] makes no reduction and no zero fill on the host side. *)
Definition quiet {A} (m : M A) : Prop :=
  forall st, Forall (fun ev => host_reduces ev = false) (out_trace (m st)).

(** When [m] returns, it has called a run entry point of the library. *)
Definition runs {A} (m : M A) : Prop :=
  forall st a, out_result (m st) = Ok a ->
    Exists (fun ev => is_lib_run ev = true) (out_trace (m st)).

(** [m] makes no library call. *)
Definition libfree {A} (m : M A) : Prop :=
  forall st, Forall (fun ev => is_lib ev = false) (out_trace (m st)).

(** Operators that hand the reduction to the host framework. *)
Definition host_delegated (op : Op) (st : State) : bool :=
  match op with
  | OpMaxAll self | OpMinAll self =>
      bool_decide (scalar_type (tensor st self) = Double)
  | OpVarMeanCorrection _ _ _ _ | OpVarCorrection _ _ _ _
  | OpVarOutCorrection _ _ _ _ _ => true
  | _ => false
  end.


(** The primitive library answers every call with success. *)
Definition lib_succeeds (E : Env) : Prop := forall c, mudnn E c = SUCCESS.

(** The order of a norm is an integer or a floating-point scalar. *)
Definition norm_ord_ok (p : option Scalar) : Prop :=
  match p with
  | Some (ScalarComplex _ _) | Some (ScalarBool _) => False
  | _ => True
  end.

(** The dim list is one the host framework accepts for [ndim] dimensions:
    every entry in range, no dimension named twice, at most 64
    dimensions. *)
Definition dims_ok (dims : list Z) (ndim : Z) : Prop :=
  Forall (fun d => - Z.max ndim 1 <= d < Z.max ndim 1) dims
  /\ NoDup (wrap_of (Z.max ndim 1) <$> dims)
  /\ (dims <> [] -> ndim <= dim_bitset_size).

(** [m] returns: no exception leaves it. *)
Definition total {A} (m : M A) : Prop :=
  forall st, exists a, out_result (m st) = Ok a.

(** [m] returns, and what it returns is [v]. *)
Definition returns {A} (m : M A) (v : A) : Prop :=
  forall st, out_result (m st) = Ok v.

(** What the library reads: the input in the scalar type it computes in. *)
Definition cum_source (in_ctype : ScalarType) (in_r : TensorRec) : Data :=
  if decide (scalar_type in_r = in_ctype) then data in_r
  else DCast in_ctype (data in_r).

(** Device 0 of the backend. *)
Definition musa0 : Device := mkDevice kMUSA 0.

(** A store with one contiguous 2x3 tensor of scalar type [dt]. *)
Definition st1 (dt : ScalarType) : State :=
  mkState [mkTensor true dt [2; 3] musa0 true (DInput 0)] musa0.

(** A primitive library that succeeds, with the promotion of a type
    with itself. *)
Definition E_ok : Env :=
  mkEnv (fun _ => SUCCESS) (fun a b => a) (fun _ _ => Ok [])
        (fun _ _ => Ok 0) (fun _ => Ok 0).

(** A store with a contiguous 2x3 Float tensor (handle 0) and a
    non-contiguous 2x3 Float tensor (handle 1), such as the view that
    takes every second column of a 2x6 tensor. *)
Definition st2 : State :=
  mkState [mkTensor true Float [2; 3] musa0 true (DInput 0);
           mkTensor true Float [2; 3] musa0 false (DInput 1)] musa0.

(** A stream of device 0 of the backend. *)
Definition stream0 : MUSAStream := mkMUSAStream (mkStream musa0 3).

(** A runtime whose calls succeed, with the priority range the vendor
    documents. *)
Definition RT_ok : Runtime :=
  mkRuntimeEnv (fun _ _ => musaSuccess) (fun _ _ => musaSuccess)
               (fun _ _ => (musaSuccess, 1)) (fun _ => (musaSuccess, 1, 0))
               (fun x => x).

(** The runtime with device 0 current and no pending error. *)
Definition rt0 : RuntimeState := mkRuntime musa0 musaSuccess.

(** The order [ReduceCall] hands to a norm: 2 when none is given. *)
Definition norm_ord_value (p : option Scalar) : NormOrd :=
  match p with
  | Some (ScalarInt v) => OrdOfInt v
  | Some (ScalarDouble b) => OrdOfDouble b
  | _ => OrdDefault
  end.

(** The dims and the order of the run that [ReduceCall] makes. *)
Definition run_dims (self_r : TensorRec) (dims : list Z) : list Z :=
  if decide (dim self_r = 0 /\ numel self_r = 1) then []
  else static_cast_int <$> dims.

Definition run_ord (p : option Scalar) (is_norm : bool) : option NormOrd :=
  if is_norm then Some (norm_ord_value p) else None.

(** The dim [ArgMinOrMaxOutTemplate] reduces along: the wrapped one, or 0
    of the flattened input when none is given. *)
Definition arg_dim (self_r : TensorRec) (d : option Z) : Z :=
  match d with
  | Some v => wrap_of (Z.max (dim self_r) 1) v
  | None => 0
  end.

(** The sizes of the tensor [ArgMinOrMaxOutTemplate] hands to the
    library: those of the input, or the one size of the flattened input
    when no dim is given. *)
Definition arg_input_sizes (self_r : TensorRec) (d : option Z) : list Z :=
  match d with
  | Some _ => sizes self_r
  | None => [numel self_r]
  end.

(** The mixed-precision case of [NormDtypeOut]: a Half or BFloat16 input
    with a Float [out] is reduced in the type of the input. *)
Definition gpu_lowp_to_f32 (self_r out_r : TensorRec) : bool :=
  (bool_decide (scalar_type self_r = kHalf)
   || bool_decide (scalar_type self_r = kBFloat16))
  && bool_decide (scalar_type out_r = kFloat).

(** The operators that may resize a tensor they are given. *)
Definition resizes (op : Op) : bool :=
  match op with
  | OpSumIntListOut _ _ _ _ _ | OpCumSumOut _ _ _ _ | OpCumProdOut _ _ _ _
  | OpMaxDimMax _ _ _ _ _ | OpVarOutCorrection _ _ _ _ _ => true
  | _ => false
  end.

(** The value [item<int>()] reads is 0 or 1. *)
Definition item_is_01 (E : Env) (r : TensorRec) : Prop :=
  item_int E r = Ok 0 \/ item_int E r = Ok 1.

(** What a cumulative operator leaves in its output: the result of the
    library, converted when the library computed in another type. *)
Definition cum_result (E : Env) (mode : CUM_MODE) (d : Z)
    (in_r : TensorRec) (out_type : ScalarType) : Data :=
  let cts := cumulative_ctypes E (scalar_type in_r) out_type in
  let res := DCum mode (static_cast_int d) (cum_source cts.1 in_r) in
  if decide (cts.2 = out_type) then res else DCast out_type res.

(** The run of the cumulative primitive recorded in [ev], if it is one,
    was given an output of scalar type [out_ct] and an input of scalar
    type [in_ct]. *)
Definition cum_run_types (st : State) (in_ct out_ct : ScalarType)
    (ev : Event) : Prop :=
  match ev with
  | EvLib (LCum_Run o i) _ =>
      scalar_type (tensor st o) = out_ct /\ scalar_type (tensor st i) = in_ct
  | _ => True
  end.

(** A store with a contiguous 2x3 Float input (handle 0), a
    non-contiguous Float output of two elements (handle 1) and a
    contiguous Long output of two elements (handle 2). *)
Definition st3 : State :=
  mkState [mkTensor true Float [2; 3] musa0 true (DInput 0);
           mkTensor true Float [2] musa0 false (DInput 1);
           mkTensor true Long [2] musa0 true (DInput 2)] musa0.

(** A store with an input without elements (handle 0) and an output
    (handle 1). *)
Definition st_empty : State :=
  mkState [mkTensor true Float [0; 3] musa0 true (DInput 0);
           mkTensor true Float [3] musa0 true (DInput 1)] musa0.


(** What [MaxAll] and [MinAll] return for an input with elements: the
    reduction of the host framework for a Double input, that of the
    library otherwise. *)
Definition reduce_all_data (f : HostReduce) (m : ReduceMode)
    (self_r : TensorRec) : Data :=
  if decide (scalar_type self_r = Double) then DHost f (data self_r)
  else DReduce m [] None (data self_r).

(** What [Any] and [All] hand back for the input [self_r]: the reduction
    of all its elements by the library in mode [m] (the zero fill for an
    input without elements), converted to Bool when [self_r] is not
    Bool. *)
Definition any_all_data (m : ReduceMode) (self_r : TensorRec) : Data :=
  let red := if decide (numel self_r = 0) then DZero
             else DReduce m [] None (data self_r) in
  if decide (scalar_type self_r = Bool) then red else DCast Bool red.



(** A tensor the computation may write to: one of the outputs [W], or one
    made after the computation began, when the store held [n] tensors. *)
Definition owned (W : nat -> Prop) (n : nat) (t : nat) : Prop :=
  W t \/ (n <= t)%nat.

(** Started in a store of at least [n] tensors, [m] leaves each of the
    first [n] as it was, the outputs [W] apart, lets the store only grow,
    and what it returns satisfies [P]. *)
Definition writes_within (W : nat -> Prop) (n : nat) {A} (m : M A)
    (P : A -> Prop) : Prop :=
  forall st, (n <= length (heap st))%nat ->
    (length (heap st) <= length (heap (out_state (m st))))%nat
    /\ (forall t, (t < n)%nat -> ~ W t ->
        tensor (out_state (m st)) t = tensor st t)
    /\ (forall a, out_result (m st) = Ok a -> P a).





(* ================================================================== *)
(** * Theorems *)
(* ================================================================== *)

(* ------------------------------------------------------------------ *)
(** ** Scalar types of reductions; streams *)
(* ------------------------------------------------------------------ *)

(** C1: [musa_infer_dtype_from_optional] returns [opt_dtype] when it has
    a value; otherwise the scalar type of [result] when [result] is
    defined; otherwise the scalar type of [self], except that an integral
    type of [self], Bool included, gives Long. *)
Theorem musa_infer_dtype_from_optional_rule
    (self : TensorRec) (opt_dtype : option ScalarType) (result : TensorRec) :
  musa_infer_dtype_from_optional self opt_dtype result =
  reduction_dtype_rule (scalar_type self) opt_dtype
    (if defined result then Some (scalar_type result) else None).
Proof.
  unfold musa_infer_dtype_from_optional, musa_get_dtype_from_self,
    reduction_dtype_rule.
  destruct (defined result), opt_dtype; reflexivity.
Qed.

Section StreamFacts.
Variable RT : Runtime.

Lemma Stream_eqb_eq (a b : Stream) : Stream_eqb a b = true <-> a = b.
Proof.
  unfold Stream_eqb. rewrite andb_true_iff, !bool_decide_eq_true.
  destruct a, b; simpl. split; [intros [-> ->]|intros [= -> ->]]; done.
Qed.

Lemma MUSAStream_eqb_eq (a b : MUSAStream) :
  MUSAStream_eqb a b = true <-> a = b.
Proof.
  unfold MUSAStream_eqb, unwrap. rewrite Stream_eqb_eq.
  destruct a, b; simpl. split; congruence.
Qed.

(** C8: [unpack3] applied to the three fields that [s.pack3()] produces
    gives a stream equal to [s] under [operator==], which compares the
    wrapped streams, and streams that compare equal have equal hashes.
    The constructor that [unpack3] goes through checks the device type:
    the round trip returns exactly for the streams of the backend's own
    device type, which is what the checked constructor admits. *)
Theorem pack3_unpack3_hash :
  (forall s s' : MUSAStream, roundtrip s = Ok s' -> MUSAStream_eqb s' s = true)
  /\ (forall s : MUSAStream,
        Stream_device_type (unwrap s) = kMUSA <->
        exists s', roundtrip s = Ok s')
  /\ (forall a b : MUSAStream,
        MUSAStream_eqb a b = true ->
        std_hash_MUSAStream RT a = std_hash_MUSAStream RT b).
Proof.
  split; [|split].
  - intros [[[ty ix] i]] s'. unfold roundtrip, pack3, unpack3, Stream_pack3,
      Stream_unpack3, MUSAStream_of, Stream_device_type, Stream_device_index.
    simpl. destruct ty; simpl; try discriminate.
    intros [= <-]. by apply MUSAStream_eqb_eq.
  - intros [[[ty ix] i]]. unfold roundtrip, pack3, unpack3, Stream_pack3,
      Stream_unpack3, MUSAStream_of, Stream_device_type, Stream_device_index,
      unwrap. simpl. split.
    + intros ->. simpl. eauto.
    + destruct ty; simpl; intros [s' H]; try discriminate. done.
  - intros a b H. apply MUSAStream_eqb_eq in H. by subst.
Qed.

(** C7: [query] returns true exactly when the runtime reports success
    for the stream; when the runtime reports not-ready it clears the
    pending error and returns false; for every other code it raises
    instead of returning. *)
Theorem query_spec (s : MUSAStream) (rt : RuntimeState) :
  let e := streamQuery RT s
             (mkRuntime (stream_device (stream_ s)) (rt_last_error rt)) in
  ((query RT s rt).1 = Ok true <-> e = musaSuccess)
  /\ (e = musaErrorNotReady ->
      (query RT s rt).1 = Ok false
      /\ rt_last_error (query RT s rt).2 = musaSuccess)
  /\ (e <> musaSuccess -> e <> musaErrorNotReady ->
      exists msg, (query RT s rt).1 = Err msg).
Proof.
  intros e. unfold query, with_device_guard, musaStreamQuery, mbind, R_bind,
    TORCH_MUSA_ERROR_HANDLE, TORCH_MUSA_CHECK, musaGetLastError, R_raise,
    mret, R_ret.
  fold e. destruct e as [| |c] eqn:He; simpl.
  - repeat split; try done.
  - repeat split; try done.
  - repeat split; try done. eauto.
Qed.

(** C6: [priority] returns the priority the runtime reports for the
    stream, minus 1, which takes the vendor's levels 1 and 0 to 0 and -1;
    [priority_range] returns the pair (0, -1), and only after it has
    asserted that the least priority the device reports is at least 1 and
    the greatest is at most 0. *)
Theorem priority_and_priority_range (s : MUSAStream) (rt : RuntimeState)
    (p : Z) (e : musaError_t) (least greatest : Z) :
  streamGetPriority RT s
    (mkRuntime (stream_device (stream_ s)) (rt_last_error rt))
    = (musaSuccess, p) ->
  - 2 ^ 31 < p < 2 ^ 31 ->
  deviceGetStreamPriorityRange RT rt = (e, least, greatest) ->
  (priority RT s rt).1 = Ok (p - 1)
  /\ (p = 1 -> (priority RT s rt).1 = Ok 0)
  /\ (p = 0 -> (priority RT s rt).1 = Ok (-1))
  /\ (forall pr, (priority_range RT rt).1 = Ok pr ->
        pr = (0, -1) /\ e = musaSuccess /\ least >= 1 /\ greatest <= 0)
  /\ (e = musaSuccess -> least >= 1 -> greatest <= 0 ->
      (priority_range RT rt).1 = Ok (0, -1)).
Proof.
  intros H Hp Hr.
  assert ((priority RT s rt).1 = Ok (p - 1)) as Hprio.
  { unfold priority, with_device_guard, musaStreamGetPriority, mbind, R_bind,
      TORCH_MUSA_CHECK, mret, R_ret. rewrite H. simpl.
    unfold int_sub, static_cast_int. f_equal.
    rewrite Z.mod_small; lia. }
  split; [done|]. split; [by intros ->|]. split; [by intros ->|].
  unfold priority_range, musaDeviceGetStreamPriorityRange, mbind, R_bind,
    TORCH_MUSA_CHECK, R_raise, mret, R_ret. rewrite Hr. simpl.
  destruct e; simpl; try (split; intros; done).
  destruct (decide (least >= 1)); simpl; [|split; intros; done].
  destruct (decide (greatest <= 0)); simpl; [|split; intros; done].
  split; [intros pr [= <-]|]; done.
Qed.

End StreamFacts.

(* ------------------------------------------------------------------ *)
(** ** Frame conditions on the store *)
(* ------------------------------------------------------------------ *)

#[global] Instance same_meta_preorder : PreOrder same_meta.
Proof.
  split.
  - by intros r.
  - intros a b c (?&?&?) (?&?&?). repeat split; congruence.
Qed.

#[global] Instance same_shape_preorder : PreOrder same_shape.
Proof.
  split.
  - by intros r.
  - intros a b c ((?&?&?)&?&?) ((?&?&?)&?&?). repeat split; congruence.
Qed.

Lemma look_app_l h r t : (t < length h)%nat -> look (h ++ [r]) t = look h t.
Proof. unfold look. intros. by rewrite lookup_app_l. Qed.

Lemma look_app_new h r : look (h ++ [r]) (length h) = r.
Proof.
  unfold look. rewrite lookup_app_r by lia. by rewrite Nat.sub_diag.
Qed.

Lemma look_alter h f t t' :
  look (alter f t h) t' =
  if decide (t = t' /\ (t < length h)%nat) then f (look h t') else look h t'.
Proof.
  unfold look.
  destruct (decide (t = t')) as [->|Hne].
  - rewrite list_lookup_alter_eq.
    destruct (h !! t') as [r|] eqn:H; simpl.
    + apply lookup_lt_Some in H. rewrite decide_True; done.
    + apply lookup_ge_None in H. rewrite decide_False; [done|lia].
  - rewrite list_lookup_alter_ne by done. rewrite decide_False; [done|tauto].
Qed.


Section Respects.
Context (S : relation TensorRec) `{!PreOrder S}.

Lemma st_le_refl st : st_le S st st.
Proof. repeat split; done. Qed.

Lemma st_le_trans st1 st2 st3 :
  st_le S st1 st2 -> st_le S st2 st3 -> st_le S st1 st3.
Proof.
  intros (?&H1&?) (?&H2&?). repeat split; [lia| |congruence].
  intros t Ht. etrans; [by apply H1|]. apply H2. unfold live in *. lia.
Qed.

Lemma st_le_live st st' t : st_le S st st' -> live st t -> live st' t.
Proof. intros (?&_). unfold live. lia. Qed.

Lemma respects_ret {A} (a : A) : respects S (mret a).
Proof. intros st. apply st_le_refl. Qed.
Lemma respects_raise {A} msg : respects S (@raise A msg).
Proof. intros st. apply st_le_refl. Qed.
Lemma respects_lift {A} (r : Result A) : respects S (lift r).
Proof. intros st. apply st_le_refl. Qed.
Lemma respects_emit ev : respects S (emit ev).
Proof. intros st. apply st_le_refl. Qed.
Lemma respects_get t : respects S (get t).
Proof. intros st. apply st_le_refl. Qed.
Lemma respects_get_current_device : respects S get_current_device.
Proof. intros st. apply st_le_refl. Qed.
Lemma respects_lib_event c : respects S (lib_event c).
Proof. intros st. apply st_le_refl. Qed.
Lemma respects_TORCH_CHECK c msg : respects S (TORCH_CHECK c msg).
Proof. intros st. destruct c; apply st_le_refl. Qed.

Lemma respects_alloc r : respects S (alloc r).
Proof.
  intros st. unfold alloc, out_state. simpl. repeat split; simpl.
  - rewrite length_app. lia.
  - intros t Ht. unfold tensor. simpl. rewrite look_app_l by done. done.
Qed.

Lemma respects_update t f :
  (forall r, S r (f r)) -> respects S (update t f).
Proof.
  intros Hf st. unfold update, out_state. simpl. repeat split; simpl.
  - by rewrite length_alter.
  - intros t' Ht. unfold tensor. simpl. rewrite look_alter.
    case_decide; [apply Hf|done].
Qed.

Lemma respects_bind {A B} (m : M A) (f : A -> M B) :
  respects S m -> (forall a, respects S (f a)) -> respects S (m ≫= f).
Proof.
  intros Hm Hf st. specialize (Hm st).
  unfold mbind, M_bind, out_state in *.
  destruct (m st) as [[[a|e] st1] tr1]; simpl in *; [|done].
  specialize (Hf a st1). destruct (f a st1) as [[r2 st2] tr2]; simpl in *.
  by eapply st_le_trans.
Qed.

Lemma respects_guard {A} d (body : M A) :
  respects S body -> respects S (with_guard d body).
Proof.
  intros Hb st. specialize (Hb (mkState (heap st) d)).
  unfold with_guard, out_state in *.
  destruct (body _) as [[r st1] tr]; simpl in *.
  destruct Hb as (?&?&?). repeat split; simpl; done.
Qed.

End Respects.

Lemma same_meta_set_data d r : same_meta r (set_data d r).
Proof. by destruct r. Qed.
Lemma same_shape_set_data d r : same_shape r (set_data d r).
Proof. by destruct r. Qed.
Lemma same_meta_set_sizes s r : same_meta r (set_sizes s r).
Proof. by destruct r. Qed.

Create HintDb frame discriminated.
#[global] Hint Resolve respects_ret respects_raise respects_lift respects_emit
  respects_get respects_get_current_device respects_lib_event
  respects_TORCH_CHECK respects_alloc respects_update respects_guard
  same_meta_set_data same_shape_set_data same_meta_set_sizes : frame.

Ltac frame_step :=
  match goal with
  | |- respects _ (mbind _ _) => apply respects_bind; [apply _| |intros ?]
  | |- respects _ (with_guard _ _) => apply respects_guard
  | |- respects _ (if ?c then _ else _) => destruct c
  | |- respects _ (match ?x with _ => _ end) => destruct x
  | |- respects _ _ => solve [eauto with frame typeclass_instances]
  end.
Ltac frame := repeat frame_step.

Section Frames.
Variable E : Env.
Context (S : relation TensorRec) `{!PreOrder S}.
Hypothesis S_data : forall d r, S r (set_data d r).

Local Hint Resolve S_data : frame.

Lemma respects_at_empty shape dev dt : respects S (at_empty shape dev dt).
Proof. unfold at_empty. frame. Qed.
Lemma respects_zero_ t : respects S (zero_ t).
Proof. unfold zero_. frame. Qed.
Lemma respects_fill_ t src : respects S (fill_ t src).
Proof. unfold fill_. frame. Qed.
Lemma respects_copy_ dst src : respects S (copy_ dst src).
Proof. unfold copy_. frame. Qed.
Lemma respects_to_dtype src dt : respects S (to_dtype src dt).
Proof. unfold to_dtype. frame. Qed.
Lemma respects_to_device src d : respects S (to_device src d).
Proof. unfold to_device. frame. Qed.
Lemma respects_flatten src : respects S (flatten src).
Proof. unfold flatten. frame. Qed.
Lemma respects_propagate_names dst src : respects S (propagate_names dst src).
Proof. unfold propagate_names. frame. Qed.
Lemma respects_item self : respects S (item E self).
Proof. unfold item. frame. Qed.
Lemma respects_host_reduce f src shape : respects S (host_reduce f src shape).
Proof. unfold host_reduce. frame. Qed.
Lemma respects_FormatContiguous t : respects S (FormatContiguous t).
Proof. unfold FormatContiguous. frame. Qed.
Lemma respects_Contiguous t : respects S (Contiguous t).
Proof. apply respects_FormatContiguous. Qed.
Lemma respects_lib c : respects S (lib E c).
Proof. unfold lib. frame. Qed.
Lemma respects_CreateMUTensor t : respects S (CreateMUTensor t).
Proof. unfold CreateMUTensor. frame. Qed.
Lemma respects_GetMudnnHandle : respects S GetMudnnHandle.
Proof. unfold GetMudnnHandle. frame. Qed.
Lemma respects_CHECK_MUDNN_STATUS s msg : respects S (CHECK_MUDNN_STATUS s msg).
Proof. unfold CHECK_MUDNN_STATUS. frame. Qed.
Lemma respects_optional_value {A} (o : option A) : respects S (optional_value o).
Proof. unfold optional_value. frame. Qed.

Local Hint Resolve respects_at_empty respects_zero_ respects_fill_
  respects_copy_ respects_to_dtype respects_to_device respects_flatten
  respects_propagate_names respects_item respects_host_reduce
  respects_FormatContiguous respects_Contiguous respects_lib
  respects_CreateMUTensor respects_GetMudnnHandle respects_CHECK_MUDNN_STATUS
  respects_optional_value : frame.

Lemma respects_Reduce_Run m dims ord out inp :
  respects S (Reduce_Run E m dims ord out inp).
Proof. unfold Reduce_Run. frame. Qed.
Lemma respects_Reduce_RunWithIndices m d out ids inp :
  respects S (Reduce_RunWithIndices E m d out ids inp).
Proof. unfold Reduce_RunWithIndices. frame. Qed.
Lemma respects_Reduce_RunIndices m d out inp :
  respects S (Reduce_RunIndices E m d out inp).
Proof. unfold Reduce_RunIndices. frame. Qed.
Lemma respects_Cum_Run m d out inp : respects S (Cum_Run E m d out inp).
Proof. unfold Cum_Run. frame. Qed.
Lemma respects_norm_p_value p : respects S (norm_p_value p).
Proof. unfold norm_p_value. frame. Qed.

Local Hint Resolve respects_Reduce_Run respects_Reduce_RunWithIndices
  respects_Reduce_RunIndices respects_Cum_Run respects_norm_p_value : frame.

Lemma respects_ReduceCall output self dims m p is_norm :
  respects S (ReduceCall E output self dims m p is_norm).
Proof. unfold ReduceCall. frame. Qed.
Local Hint Resolve respects_ReduceCall : frame.

Lemma respects_Reduction self dims keepdim dt m p is_norm :
  respects S (Reduction E self dims keepdim dt m p is_norm).
Proof. unfold Reduction. frame. Qed.
Local Hint Resolve respects_Reduction : frame.

Lemma respects_make_proxy t dt : respects S (make_proxy t dt).
Proof. unfold make_proxy. frame. Qed.
Local Hint Resolve respects_make_proxy : frame.

Lemma respects_CumulativeImpl out inp d mode :
  respects S (CumulativeImpl E out inp d mode).
Proof. unfold CumulativeImpl. frame. Qed.
Local Hint Resolve respects_CumulativeImpl : frame.

Lemma respects_ReduceIndicesCall output indices self d m :
  respects S (ReduceIndicesCall E output indices self d m).
Proof. unfold ReduceIndicesCall. frame. Qed.
Lemma respects_ReduceIndicesOnlyCall output self d m :
  respects S (ReduceIndicesOnlyCall E output self d m).
Proof. unfold ReduceIndicesOnlyCall. frame. Qed.
Local Hint Resolve respects_ReduceIndicesCall respects_ReduceIndicesOnlyCall
  : frame.
Lemma respects_ReductionIndices self d keepdim m :
  respects S (ReductionIndices E self d keepdim m).
Proof. unfold ReductionIndices. frame. Qed.

End Frames.

#[global] Hint Resolve respects_at_empty respects_zero_ respects_fill_
  respects_copy_ respects_to_dtype respects_to_device respects_flatten
  respects_propagate_names respects_item respects_host_reduce
  respects_FormatContiguous respects_Contiguous respects_lib
  respects_CreateMUTensor respects_GetMudnnHandle respects_CHECK_MUDNN_STATUS
  respects_optional_value respects_Reduce_Run respects_Reduce_RunWithIndices
  respects_Reduce_RunIndices respects_Cum_Run respects_norm_p_value
  respects_ReduceCall respects_Reduction respects_make_proxy
  respects_CumulativeImpl respects_ReduceIndicesCall
  respects_ReduceIndicesOnlyCall respects_ReductionIndices : frame.

Lemma respects_resize_output out shape :
  respects same_meta (resize_output out shape).
Proof. unfold resize_output. frame. Qed.
Lemma respects_resize_ out shape : respects same_meta (resize_ out shape).
Proof. unfold resize_. frame. Qed.
#[global] Hint Resolve respects_resize_output respects_resize_ : frame.

(* ------------------------------------------------------------------ *)
(** ** Running an operator from a state *)
(* ------------------------------------------------------------------ *)

Lemma wp_ret {A} (a : A) st Q : Q (Ok a) st [] -> wp (mret a) st Q.
Proof. done. Qed.
Lemma wp_raise {A} msg st (Q : Result A -> _) :
  Q (Err msg) st [] -> wp (raise msg) st Q.
Proof. done. Qed.
Lemma wp_lift {A} (r : Result A) st Q : Q r st [] -> wp (lift r) st Q.
Proof. done. Qed.
Lemma wp_emit ev st Q : Q (Ok tt) st [ev] -> wp (emit ev) st Q.
Proof. done. Qed.
Lemma wp_get t st Q : Q (Ok (tensor st t)) st [] -> wp (get t) st Q.
Proof. done. Qed.
Lemma wp_get_current_device st Q :
  Q (Ok (current_device st)) st [] -> wp get_current_device st Q.
Proof. done. Qed.
Lemma wp_alloc r st Q :
  Q (Ok (length (heap st))) (mkState (heap st ++ [r]) (current_device st)) []
  -> wp (alloc r) st Q.
Proof. done. Qed.
Lemma wp_update t f st Q :
  Q (Ok tt) (mkState (alter f t (heap st)) (current_device st)) []
  -> wp (update t f) st Q.
Proof. done. Qed.
Lemma wp_lib_event c st Q :
  Q (Ok tt) st [EvLib c (current_device st)] -> wp (lib_event c) st Q.
Proof. done. Qed.

Lemma wp_bind {A B} (m : M A) (f : A -> M B) st Q :
  wp m st (fun r st1 tr1 =>
    match r with
    | Ok a => wp (f a) st1 (fun r2 st2 tr2 => Q r2 st2 (tr1 ++ tr2))
    | Err e => Q (Err e) st1 tr1
    end) ->
  wp (m ≫= f) st Q.
Proof.
  unfold wp, mbind, M_bind, out_result, out_state, out_trace.
  destruct (m st) as [[[a|e] st1] tr1]; simpl; [|done].
  destruct (f a st1) as [[r2 st2] tr2]; simpl. done.
Qed.

Lemma wp_guard {A} d (body : M A) st Q :
  wp body (mkState (heap st) d) (fun r st1 tr =>
    Q r (mkState (heap st1) (current_device st)) (EvGuard d :: tr)) ->
  wp (with_guard d body) st Q.
Proof.
  unfold wp, with_guard, out_result, out_state, out_trace.
  destruct (body _) as [[r st1] tr]; simpl. done.
Qed.

Lemma wp_wand {A} (m : M A) st (Q Q' : Result A -> State -> list Event -> Prop) :
  wp m st Q -> (forall r st' tr, Q r st' tr -> Q' r st' tr) -> wp m st Q'.
Proof. unfold wp. auto. Qed.

Lemma wp_respects S {A} (m : M A) st Q :
  respects S m ->
  (forall r st' tr, st_le S st st' -> Q r st' tr) ->
  wp m st Q.
Proof. intros Hm HQ. apply HQ, Hm. Qed.

Lemma wp_run {A} (m : M A) st Q r st' tr :
  wp m st Q -> m st = (r, st', tr) -> Q r st' tr.
Proof. unfold wp, out_result, out_state, out_trace. intros H Hm. by rewrite Hm in H. Qed.

Ltac wp_prim :=
  lazymatch goal with
  | |- wp (mret _) _ _ => apply wp_ret
  | |- wp (raise _) _ _ => apply wp_raise
  | |- wp (lift ?r) _ _ => apply wp_lift
  | |- wp (emit _) _ _ => apply wp_emit
  | |- wp (get _) _ _ => apply wp_get
  | |- wp get_current_device _ _ => apply wp_get_current_device
  | |- wp (alloc _) _ _ => apply wp_alloc
  | |- wp (update _ _) _ _ => apply wp_update
  | |- wp (lib_event _) _ _ => apply wp_lib_event
  | |- wp (mbind _ _) _ _ => apply wp_bind
  | |- wp (with_guard _ _) _ _ => apply wp_guard
  end.

Ltac wp_unfold :=
  lazymatch goal with
  | |- wp ?m ?st ?Q =>
      let m' := eval cbv delta
        [at_empty zero_ fill_ copy_ to_dtype to_device flatten resize_output
         resize_ propagate_names item host_reduce FormatContiguous Contiguous
         lib CreateMUTensor GetMudnnHandle CHECK_MUDNN_STATUS TORCH_CHECK
         optional_value Reduce_Run Reduce_RunWithIndices Reduce_RunIndices
         Cum_Run norm_p_value make_proxy to_musa at_reduce_all
         with_optional_guard] in m in
      progress change (wp m' st Q)
  end.

Ltac wp_step :=
  first
    [ wp_prim
    | lazymatch goal with
      | |- wp (if ?c then _ else _) _ _ => destruct c eqn:?
      | |- wp (match ?x with _ => _ end) _ _ => destruct x eqn:?
      | |- wp (let '(_, _) := ?x in _) _ _ => destruct x eqn:?
      | |- match ?x with Ok _ => _ | Err _ => _ end => destruct x eqn:?
      end
    | wp_unfold ];
  cbv beta iota; cbn [heap current_device].

Ltac wp_go := repeat wp_step.

Lemma look_alter_set_data h d t t' :
  same_shape (look h t') (look (alter (set_data d) t h) t').
Proof. rewrite look_alter. case_decide; [|done]. apply same_shape_set_data. Qed.

Lemma device_look_alter_set_data h d t t' :
  device (look (alter (set_data d) t h) t') = device (look h t').
Proof. rewrite look_alter. by case_decide. Qed.
Lemma sizes_look_alter_set_data h d t t' :
  sizes (look (alter (set_data d) t h) t') = sizes (look h t').
Proof. rewrite look_alter. by case_decide. Qed.
Lemma scalar_type_look_alter_set_data h d t t' :
  scalar_type (look (alter (set_data d) t h) t') = scalar_type (look h t').
Proof. rewrite look_alter. by case_decide. Qed.
Lemma numel_look_alter_set_data h d t t' :
  numel (look (alter (set_data d) t h) t') = numel (look h t').
Proof. rewrite look_alter. by case_decide. Qed.
Lemma device_look_alter_set_sizes h s t t' :
  device (look (alter (set_sizes s) t h) t') = device (look h t').
Proof. rewrite look_alter. by case_decide. Qed.
Lemma scalar_type_look_alter_set_sizes h s t t' :
  scalar_type (look (alter (set_sizes s) t h) t') = scalar_type (look h t').
Proof. rewrite look_alter. by case_decide. Qed.

Lemma look_app_new_eq h r n : n = length h -> look (h ++ [r]) n = r.
Proof. intros ->. apply look_app_new. Qed.

Ltac heap_len :=
  solve [ unfold live in *; cbn [heap] in *;
          rewrite ?length_alter, ?length_app in *; cbn [length] in *; lia ].

Ltac heap_simpl :=
  unfold tensor, live in *; cbn [heap current_device] in *;
  repeat first
    [ rewrite look_app_new in *
    | rewrite device_look_alter_set_data in *
    | rewrite sizes_look_alter_set_data in *
    | rewrite scalar_type_look_alter_set_data in *
    | rewrite numel_look_alter_set_data in *
    | rewrite device_look_alter_set_sizes in *
    | rewrite scalar_type_look_alter_set_sizes in *
    | rewrite look_alter in *
    | rewrite look_app_l in * by heap_len
    | rewrite look_app_new_eq in * by heap_len
    | rewrite length_alter in *
    | rewrite length_app in * ];
  cbn [length] in *.

(** After an operator that respects [S], a tensor that was live is
    related by [S] to what it was. *)
Lemma st_le_tensor S st st' t :
  st_le S st st' -> live st t -> S (tensor st t) (tensor st' t).
Proof. intros (_&H&_). apply H. Qed.
Lemma st_le_length S st st' :
  st_le S st st' -> (length (heap st) <= length (heap st'))%nat.
Proof. by intros (H&_). Qed.

Section Results.
Variable E : Env.

Lemma Reduction_result self dims keepdim dt m p is_norm st :
  live st self ->
  wp (Reduction E self dims keepdim dt m p is_norm) st (fun r st' tr =>
    forall out, r = Ok out ->
      exists dims_vec shape,
        maybe_wrap_dims dims (dim (tensor st self)) = Ok dims_vec
        /\ get_reduction_shape (tensor st self) dims_vec keepdim = Ok shape
        /\ live st' out
        /\ sizes (tensor st' out) = shape
        /\ scalar_type (tensor st' out) =
           musa_infer_dtype_from_optional (tensor st self) dt undefined_tensor).
Proof.
  intros Hself. unfold Reduction.
  wp_go; try (intros; discriminate).
  - intros out [= <-]. exists a, a0. heap_simpl.
    repeat split; try done. simpl. lia.
  - eapply (wp_respects same_shape).
    { apply respects_ReduceCall; [apply _|apply same_shape_set_data]. }
    intros r st' tr Hle. destruct r; [|intros; discriminate].
    wp_go. intros out [= <-]. exists a, a0.
    pose proof (st_le_tensor _ _ _ (length (heap st)) Hle) as Ht.
    pose proof (st_le_length _ _ _ Hle) as Hl.
    heap_simpl. destruct Ht as ((_&Hdt&_)&Hsz&_); [simpl; lia|].
    simpl in *. repeat split; try done. lia.
Qed.
End Results.

(* ------------------------------------------------------------------ *)
(** ** Shape inference *)
(* ------------------------------------------------------------------ *)

Lemma Result_mapM_cons {A B} (f : A -> Result B) x l :
  mapM f (x :: l) =
  match f x with
  | Ok y => match mapM f l with Ok k => Ok (y :: k) | Err e => Err e end
  | Err e => Err e
  end.
Proof. done. Qed.

Lemma maybe_wrap_dims_Ok dims n dims_vec :
  0 <= n ->
  maybe_wrap_dims dims n = Ok dims_vec ->
  Forall (fun d => - Z.max n 1 <= d < Z.max n 1) dims
  /\ dims_vec = wrap_of (Z.max n 1) <$> dims.
Proof.
  intros Hn. unfold maybe_wrap_dims.
  replace (if decide (n <= 0) then 1 else n) with (Z.max n 1)
    by (case_decide; lia).
  generalize (Z.max n 1). intros k. revert dims_vec.
  induction dims as [|d dims IH]; intros dims_vec.
  - intros [= <-]. by split.
  - rewrite Result_mapM_cons.
    case_decide as Hd; [done|].
    destruct (mapM _ dims) as [l|e] eqn:Hl; simpl; [|done].
    intros [= <-]. destruct (IH l eq_refl) as [HF ->].
    split; [constructor; [lia|done]|done].
Qed.

Lemma maybe_wrap_dims_total dims n :
  Forall (fun d => - Z.max n 1 <= d < Z.max n 1) dims ->
  0 <= n ->
  maybe_wrap_dims dims n = Ok (wrap_of (Z.max n 1) <$> dims).
Proof.
  intros HF Hn. unfold maybe_wrap_dims.
  replace (if decide (n <= 0) then 1 else n) with (Z.max n 1)
    by (case_decide; lia).
  revert HF. generalize (Z.max n 1). intros k HF.
  induction HF as [|d dims Hd HF IH]; [done|].
  rewrite Result_mapM_cons.
  rewrite decide_False by lia. rewrite IH. done.
Qed.

Lemma maybe_wrap_dim_wrapped w n :
  0 <= n -> 0 <= w < Z.max n 1 -> maybe_wrap_dim w n = Ok w.
Proof.
  intros Hn Hw. unfold maybe_wrap_dim.
  case_decide as H1.
  - by rewrite decide_False by lia.
  - rewrite decide_False by lia. rewrite decide_True by lia.
    rewrite decide_True by lia. by rewrite decide_False by lia.
Qed.

Lemma dim_list_to_bitset_loop_spec dims n seen mask :
  0 <= n ->
  Forall (fun w => 0 <= w < Z.max n 1) dims ->
  dim_list_to_bitset_loop dims n seen = Ok mask ->
  NoDup dims
  /\ (forall i, 0 <= i ->
        Z.testbit mask i = Z.testbit seen i || bool_decide (i ∈ dims))
  /\ (forall w, w ∈ dims -> Z.testbit seen w = false).
Proof.
  intros Hn HF. revert seen. induction HF as [|w dims Hw HF IH]; intros seen.
  - cbn [dim_list_to_bitset_loop]. intros [= <-]. split; [constructor|]. split.
    + intros i Hi. rewrite bool_decide_eq_false_2; [by rewrite orb_false_r|].
      by intros ?%elem_of_nil.
    + by intros w ?%elem_of_nil.
  - cbn [dim_list_to_bitset_loop]. rewrite maybe_wrap_dim_wrapped by done.
    unfold mbind, Result_bind.
    destruct (Z.testbit seen w) eqn:Hs; [done|].
    intros H. destruct (IH _ H) as (Hnd & Hbits & Hfresh).
    split; [|split].
    + constructor; [|done]. intros Hin. specialize (Hfresh _ Hin).
      rewrite Z.setbit_eq in Hfresh by lia. done.
    + intros i Hi. rewrite Hbits by done. rewrite Z.setbit_eqb by lia.
      destruct (Z.eqb_spec w i) as [->|Hne]; simpl.
      * rewrite bool_decide_eq_true_2 by left. by rewrite !orb_true_r.
      * f_equal. apply bool_decide_ext. rewrite elem_of_cons.
        split; [tauto|]. intros [|]; [congruence|done].
    + intros w' [->|Hin]%elem_of_cons; [done|].
      specialize (Hfresh _ Hin). rewrite Z.setbit_eqb in Hfresh by lia.
      by apply orb_false_iff in Hfresh as [_ ?].
Qed.

Lemma dim_list_to_bitset_loop_total dims n seen :
  0 <= n ->
  Forall (fun w => 0 <= w < Z.max n 1) dims ->
  NoDup dims ->
  (forall w, w ∈ dims -> Z.testbit seen w = false) ->
  exists mask, dim_list_to_bitset_loop dims n seen = Ok mask.
Proof.
  intros Hn HF. revert seen. induction HF as [|w dims Hw HF IH]; intros seen.
  - cbn [dim_list_to_bitset_loop]. eauto.
  - intros Hnd Hfresh. apply NoDup_cons in Hnd as [Hni Hnd].
    cbn [dim_list_to_bitset_loop].
    rewrite maybe_wrap_dim_wrapped by done. unfold mbind, Result_bind.
    rewrite Hfresh by left. apply IH; [done|].
    intros w' Hin. rewrite Z.setbit_neq; [|lia|intros ->; done].
    apply Hfresh. by right.
Qed.

(** The loop against the shape in the words of the specification. *)
Lemma shape_from_dim_mask_loop_spec n mask keepdim shape :
  (n <= length shape)%nat ->
  shape_from_dim_mask_loop n mask keepdim shape =
  reduction_shape_spec (fun i => Z.testbit mask (Z.of_nat i)) keepdim
    (take n shape) ++ drop n shape.
Proof.
  revert shape. induction n as [|d IH]; intros shape Hn.
  - by rewrite take_0, drop_0.
  - cbn [shape_from_dim_mask_loop].
    destruct (lookup_lt_is_Some_2 shape d) as [x Hx]; [lia|].
    rewrite (take_S_r _ _ _ Hx).
    pose proof (take_drop_middle _ _ _ Hx) as Hsh.
    assert (length (take d shape) = d) as Hl by (rewrite length_take; lia).
    set (l1 := take d shape) in *. set (l2 := drop (S d) shape) in *.
    clearbody l1 l2. subst shape d.
    unfold reduction_shape_spec. rewrite imap_app, join_app.
    cbn [imap mjoin list_join]. rewrite Nat.add_0_r, app_nil_r.
    fold (reduction_shape_spec (fun i => Z.testbit mask (Z.of_nat i))
            keepdim l1).
    assert (forall y, shape_from_dim_mask_loop (length l1) mask keepdim
                        (l1 ++ y) =
              reduction_shape_spec (fun i => Z.testbit mask (Z.of_nat i))
                keepdim l1 ++ y) as IHy.
    { intros y. rewrite IH by (rewrite length_app; lia).
      by rewrite take_app_length, drop_app_length. }
    destruct (Z.testbit mask (Z.of_nat (length l1))); [destruct keepdim|].
    + rewrite insert_app_r_alt by lia. rewrite Nat.sub_diag.
      cbn [insert list_insert]. rewrite IHy. by rewrite <- app_assoc.
    + rewrite delete_middle. rewrite IHy. by rewrite app_nil_r.
    + rewrite IHy. by rewrite <- app_assoc.
Qed.

Lemma reduction_shape_spec_ext f g keepdim shape :
  (forall i, (i < length shape)%nat -> f i = g i) ->
  reduction_shape_spec f keepdim shape = reduction_shape_spec g keepdim shape.
Proof.
  intros H. unfold reduction_shape_spec. f_equal. apply imap_ext.
  intros i x Hx. by rewrite H by by eapply lookup_lt_Some.
Qed.

Lemma is_reduced_wrapped dims n i :
  Forall (fun d => - Z.max n 1 <= d < Z.max n 1) dims ->
  dims <> [] ->
  (Z.of_nat i < n) ->
  is_reduced dims n i = bool_decide (Z.of_nat i ∈ wrap_of (Z.max n 1) <$> dims).
Proof.
  intros HF Hne Hi. unfold is_reduced. destruct dims as [|d0 dims0]; [done|].
  apply bool_decide_ext. rewrite Exists_exists, list_elem_of_fmap.
  split.
  - intros (d & Hd & Hor). exists d. split; [|done].
    rewrite Forall_forall in HF. specialize (HF _ Hd).
    unfold wrap_of. case_decide; lia.
  - intros (d & Hd & Hin). exists d. split; [done|].
    unfold wrap_of in Hd. case_decide; lia.
Qed.

Theorem get_reduction_shape_spec self_r dims dims_vec keepdim shape :
  dim self_r <= dim_bitset_size ->
  maybe_wrap_dims dims (dim self_r) = Ok dims_vec ->
  get_reduction_shape self_r dims_vec keepdim = Ok shape ->
  shape = reduction_shape_spec (is_reduced dims (dim self_r)) keepdim
            (sizes self_r).
Proof.
  intros H64 Hw Hs. assert (0 <= dim self_r) as Hn by (unfold dim; lia).
  apply maybe_wrap_dims_Ok in Hw as [HF ->]; [|done].
  unfold get_reduction_shape, mbind, Result_bind in Hs.
  destruct (make_dim_mask _ _) as [mask|e] eqn:Hm; [|done].
  injection Hs as <-. unfold shape_from_dim_mask.
  rewrite shape_from_dim_mask_loop_spec by done.
  rewrite firstn_all, drop_all, app_nil_r.
  apply reduction_shape_spec_ext. intros i Hi.
  assert (Z.of_nat i < dim self_r) as Hi2 by (unfold dim; lia).
  destruct dims as [|d0 dims0].
  - simpl in Hm. injection Hm as <-. simpl.
    unfold DimMask_all. rewrite Z.testbit_ones_nonneg; [|done|lia].
    apply Z.ltb_lt. unfold dim_bitset_size in *. lia.
  - rewrite is_reduced_wrapped by done.
    set (ws := wrap_of (Z.max (dim self_r) 1) <$> d0 :: dims0) in *.
    assert (make_dim_mask ws (dim self_r) =
            dim_list_to_bitset ws (dim self_r)) as Hmm by done.
    rewrite Hmm in Hm. unfold dim_list_to_bitset in Hm.
    case_decide; [|done].
    apply dim_list_to_bitset_loop_spec in Hm as (_ & Hbits & _); [|done|].
    + rewrite Hbits by lia. by rewrite Z.testbit_0_l.
    + subst ws. apply Forall_fmap. eapply Forall_impl; [done|].
      intros d Hd. unfold compose, wrap_of. cbv beta in *. case_decide; lia.
Qed.

(** A reduction of a tensor with elements has elements. *)
Lemma numel_nonzero l : foldr Z.mul 1 l <> 0 <-> Forall (fun s => s <> 0) l.
Proof.
  induction l as [|x l IH]; simpl.
  - split; [constructor|lia].
  - rewrite Forall_cons, <- IH. nia.
Qed.

Lemma shape_from_dim_mask_loop_Forall (P : Z -> Prop) n mask keepdim shape :
  P 1 -> Forall P shape ->
  Forall P (shape_from_dim_mask_loop n mask keepdim shape).
Proof.
  intros H1. revert shape. induction n as [|d IH]; intros shape HF; [done|].
  cbn [shape_from_dim_mask_loop]. apply IH.
  destruct (Z.testbit mask (Z.of_nat d)); [destruct keepdim|]; [| |done].
  - by apply Forall_insert.
  - by apply Forall_delete.
Qed.

Lemma get_reduction_shape_numel self_r dims keepdim shape :
  get_reduction_shape self_r dims keepdim = Ok shape ->
  numel self_r <> 0 -> foldr Z.mul 1 shape <> 0.
Proof.
  unfold get_reduction_shape, mbind, Result_bind, numel.
  destruct (make_dim_mask _ _) as [mask|e]; [|done].
  intros [= <-]. rewrite !numel_nonzero. intros HF.
  by apply shape_from_dim_mask_loop_Forall.
Qed.

(* ------------------------------------------------------------------ *)
(** ** Records of library calls *)
(* ------------------------------------------------------------------ *)

Lemma guarded_nil d : guarded d [].
Proof. intros i c cur H. by rewrite lookup_nil in H. Qed.

Lemma guarded_app d tr1 tr2 :
  guarded d tr1 -> guarded d tr2 -> guarded d (tr1 ++ tr2).
Proof.
  intros H1 H2 i c cur Hi. apply lookup_app_Some in Hi as [Hi|[Hl Hi]].
  - destruct (H1 _ _ _ Hi) as (-> & j & Hj & Hg). split; [done|].
    exists j. split; [done|]. by apply lookup_app_l_Some.
  - destruct (H2 _ _ _ Hi) as (-> & j & Hj & Hg). split; [done|].
    exists (length tr1 + j)%nat. split; [lia|].
    rewrite lookup_app_r by lia. by replace (length tr1 + j - length tr1)%nat
      with j by lia.
Qed.

Lemma guarded_cons d ev tr :
  is_lib ev = false -> guarded d tr -> guarded d (ev :: tr).
Proof.
  intros Hev H. change (ev :: tr) with ([ev] ++ tr). apply guarded_app; [|done].
  intros [|i] c cur Hi; simpl in Hi; [|by rewrite lookup_nil in Hi].
  injection Hi as ->. done.
Qed.

Lemma guarded_guard d tr :
  Forall (lib_under d) tr -> guarded d (EvGuard d :: tr).
Proof.
  intros HF [|i] c cur Hi; simpl in Hi; [done|].
  rewrite Forall_lookup in HF. specialize (HF _ _ Hi). simpl in HF.
  split; [done|]. exists 0%nat. split; [lia|done].
Qed.

Create HintDb trace discriminated.
#[global] Hint Resolve guarded_nil guarded_app guarded_cons guarded_guard
  : trace.
#[global] Hint Extern 1 (is_lib _ = false) => reflexivity : trace.
#[global] Hint Extern 1 (host_reduces _ = false) => reflexivity : trace.
#[global] Hint Extern 1 (lib_under _ _) => exact I : trace.
#[global] Hint Extern 1 (lib_under _ _) => reflexivity : trace.

Ltac solve_Forall :=
  repeat first
    [ assumption
    | apply Forall_nil_2
    | apply Forall_cons_2; [solve [simpl; auto with trace]|]
    | apply Forall_app_2 ].

Ltac solve_Exists :=
  first
    [ assumption
    | apply Exists_cons_hd; reflexivity
    | apply Exists_cons_tl; solve_Exists
    | apply Exists_app; left; solve_Exists
    | apply Exists_app; right; solve_Exists ].

Ltac solve_guarded :=
  repeat first
    [ assumption
    | apply guarded_nil
    | apply guarded_guard; solve [solve_Forall]
    | apply guarded_cons; [reflexivity|]
    | apply guarded_app ].

Ltac use_Exists Ha :=
  repeat match goal with
  | HE : forall a, Ok _ = Ok a -> Exists _ _ |- _ => specialize (HE _ eq_refl)
  | HE : forall a, ?r = Ok a -> Exists _ _ |- _ => specialize (HE _ Ha)
  end.

Ltac solve_trace :=
  cbn [app];
  lazymatch goal with
  | |- trace_spec _ _ _ _ =>
      split;
      [ repeat match goal with
               | H : trace_spec _ _ _ _ |- _ => destruct H as [? _]
               end;
        solve [solve_guarded]
      | let Hne := fresh "Hne" in
        intros Hne; first
        [ contradiction
        | repeat match goal with
                 | H : trace_spec _ _ _ _ |- _ =>
                     let H1 := fresh in
                     destruct H as [_ H1];
                     first [ specialize (H1 Hne) | specialize (H1 I)
                           | specialize (H1 (proj1 Hne)) ];
                     destruct H1 as [? ?]
                 end;
          split;
          [ solve [solve_Forall]
          | let a := fresh "a" in let Ha := fresh "Ha" in
            intros a Ha;
            first [ discriminate | use_Exists Ha; solve_Exists ] ] ] ]
  end.

Lemma bind_unfold {A B} (m : M A) (f : A -> M B) st :
  (m ≫= f) st =
  match out_result (m st) with
  | Ok a =>
      (out_result (f a (out_state (m st))),
       out_state (f a (out_state (m st))),
       out_trace (m st) ++ out_trace (f a (out_state (m st))))
  | Err e => (Err e, out_state (m st), out_trace (m st))
  end.
Proof.
  unfold mbind, M_bind, out_result, out_state, out_trace.
  destruct (m st) as [[[a|e] st1] tr1]; simpl; [|done].
  by destruct (f a st1) as [[r2 st2] tr2].
Qed.

Lemma under_bind d {A B} (m : M A) (f : A -> M B) :
  under d m -> respects same_meta m -> (forall a, under d (f a)) ->
  under d (m ≫= f).
Proof.
  intros Hm Hr Hf st Hst. rewrite bind_unfold.
  specialize (Hm st Hst). destruct (Hr st) as (_&_&Hc).
  destruct (out_result (m st)) as [a|e]; unfold out_trace at 1; simpl; [|done].
  apply Forall_app_2; [done|]. apply Hf. congruence.
Qed.

Lemma quiet_bind {A B} (m : M A) (f : A -> M B) :
  quiet m -> (forall a, quiet (f a)) -> quiet (m ≫= f).
Proof.
  intros Hm Hf st. rewrite bind_unfold. specialize (Hm st).
  destruct (out_result (m st)) as [a|e]; unfold out_trace at 1; simpl; [|done].
  apply Forall_app_2; [done|]. apply Hf.
Qed.

Lemma libfree_bind {A B} (m : M A) (f : A -> M B) :
  libfree m -> (forall a, libfree (f a)) -> libfree (m ≫= f).
Proof.
  intros Hm Hf st. rewrite bind_unfold. specialize (Hm st).
  destruct (out_result (m st)) as [a|e]; unfold out_trace at 1; simpl; [|done].
  apply Forall_app_2; [done|]. apply Hf.
Qed.

Lemma runs_bind_l {A B} (m : M A) (f : A -> M B) :
  runs m -> runs (m ≫= f).
Proof.
  intros Hm st b. rewrite bind_unfold. specialize (Hm st).
  destruct (out_result (m st)) as [a|e];
    unfold out_result at 1, out_trace at 1; simpl; [|done].
  intros _. apply Exists_app. left. by eapply Hm.
Qed.

Lemma runs_bind_r {A B} (m : M A) (f : A -> M B) :
  (forall a, runs (f a)) -> runs (m ≫= f).
Proof.
  intros Hf st b. rewrite bind_unfold.
  destruct (out_result (m st)) as [a|e];
    unfold out_result at 1, out_trace at 1; simpl; [|done].
  intros Hb. apply Exists_app. right. by eapply Hf.
Qed.

Lemma libfree_under d {A} (m : M A) : libfree m -> under d m.
Proof.
  intros H st _. eapply Forall_impl; [apply H|]. by intros [].
Qed.

Lemma libfree_guarded d {A} (m : M A) st : libfree m -> guarded d (out_trace (m st)).
Proof.
  intros H i c cur Hi. specialize (H st). rewrite Forall_lookup in H.
  by specialize (H _ _ Hi).
Qed.

Section Prims.
Context {A : Type}.
Lemma libfree_ret (a : A) : libfree (mret a). Proof. by intros st. Qed.
Lemma libfree_raise msg : libfree (@raise A msg). Proof. by intros st. Qed.
Lemma libfree_lift (r : Result A) : libfree (lift r). Proof. by intros st. Qed.
Lemma quiet_ret (a : A) : quiet (mret a). Proof. by intros st. Qed.
Lemma quiet_raise msg : quiet (@raise A msg). Proof. by intros st. Qed.
Lemma quiet_lift (r : Result A) : quiet (lift r). Proof. by intros st. Qed.
Lemma runs_raise msg : runs (@raise A msg). Proof. by intros st. Qed.
End Prims.

Lemma libfree_emit ev : is_lib ev = false -> libfree (emit ev).
Proof. intros H st. by constructor. Qed.
Lemma libfree_get t : libfree (get t). Proof. by intros st. Qed.
Lemma libfree_get_current_device : libfree get_current_device.
Proof. by intros st. Qed.
Lemma libfree_alloc r : libfree (alloc r). Proof. by intros st. Qed.
Lemma libfree_update t f : libfree (update t f). Proof. by intros st. Qed.
Lemma libfree_TORCH_CHECK c msg : libfree (TORCH_CHECK c msg).
Proof. destruct c; by intros st. Qed.

Lemma quiet_emit ev : host_reduces ev = false -> quiet (emit ev).
Proof. intros H st. by constructor. Qed.
Lemma quiet_get t : quiet (get t). Proof. by intros st. Qed.
Lemma quiet_get_current_device : quiet get_current_device.
Proof. by intros st. Qed.
Lemma quiet_alloc r : quiet (alloc r). Proof. by intros st. Qed.
Lemma quiet_update t f : quiet (update t f). Proof. by intros st. Qed.
Lemma quiet_TORCH_CHECK c msg : quiet (TORCH_CHECK c msg).
Proof. destruct c; by intros st. Qed.
Lemma quiet_lib_event c : quiet (lib_event c).
Proof. intros st. by constructor. Qed.
Lemma quiet_guard {A} d (body : M A) : quiet body -> quiet (with_guard d body).
Proof.
  intros H st. specialize (H (mkState (heap st) d)).
  unfold with_guard, out_trace in *. destruct (body _) as [[r st1] tr].
  by constructor.
Qed.

Lemma under_lib_event d c : under d (lib_event c).
Proof. intros st Hst. by constructor. Qed.

Lemma runs_lib_event c : is_run_call c = true -> runs (lib_event c).
Proof. intros H st a _. by apply Exists_cons_hd. Qed.

#[global] Hint Resolve libfree_ret libfree_raise libfree_lift libfree_emit
  libfree_get libfree_get_current_device libfree_alloc libfree_update
  libfree_TORCH_CHECK quiet_ret quiet_raise quiet_lift quiet_emit quiet_get
  quiet_get_current_device quiet_alloc quiet_update quiet_TORCH_CHECK
  quiet_lib_event quiet_guard under_lib_event runs_raise : trace.

Ltac trace_step :=
  match goal with
  | |- under _ (mbind _ _) =>
      apply under_bind; [|solve [frame]|intros ?]
  | |- quiet (mbind _ _) => apply quiet_bind; [|intros ?]
  | |- libfree (mbind _ _) => apply libfree_bind; [|intros ?]
  | |- quiet (with_guard _ _) => apply quiet_guard
  | |- ?P (if ?c then _ else _) => destruct c
  | |- ?P (match ?x with _ => _ end) => destruct x
  | |- ?P _ (if ?c then _ else _) => destruct c
  | |- ?P _ (match ?x with _ => _ end) => destruct x
  | |- under _ _ => solve [eauto with trace | apply libfree_under; eauto with trace]
  | |- _ => solve [eauto with trace]
  end.
Ltac trace_tac := repeat trace_step.

Section Traces.
Variable E : Env.

Ltac unfold_aux :=
  repeat progress unfold at_empty, zero_, fill_, copy_, to_dtype, to_device, flatten,
    resize_output, resize_, propagate_names, item, host_reduce,
    Contiguous, FormatContiguous, lib, CreateMUTensor, GetMudnnHandle,
    CHECK_MUDNN_STATUS, optional_value, Reduce_Run, Reduce_RunWithIndices,
    Reduce_RunIndices, Cum_Run, norm_p_value, make_proxy.

Ltac aux := intros; unfold_aux; trace_tac.

Lemma libfree_at_empty shape dev dt : libfree (at_empty shape dev dt).
Proof. aux. Qed.
Lemma libfree_zero_ t : libfree (zero_ t). Proof. aux. Qed.
Lemma libfree_fill_ t src : libfree (fill_ t src). Proof. aux. Qed.
Lemma libfree_copy_ dst src : libfree (copy_ dst src). Proof. aux. Qed.
Lemma libfree_to_dtype src dt : libfree (to_dtype src dt). Proof. aux. Qed.
Lemma libfree_to_device src d : libfree (to_device src d). Proof. aux. Qed.
Lemma libfree_flatten src : libfree (flatten src). Proof. aux. Qed.
Lemma libfree_resize_output out shape : libfree (resize_output out shape).
Proof. aux. Qed.
Lemma libfree_resize_ out shape : libfree (resize_ out shape).
Proof. aux. Qed.
Lemma libfree_propagate_names dst src : libfree (propagate_names dst src).
Proof. aux. Qed.
Lemma libfree_item self : libfree (item E self). Proof. aux. Qed.
Lemma libfree_host_reduce f src shape : libfree (host_reduce f src shape).
Proof. aux. Qed.
Lemma libfree_FormatContiguous t : libfree (FormatContiguous t).
Proof. aux. Qed.
Lemma libfree_Contiguous t : libfree (Contiguous t). Proof. aux. Qed.
Lemma libfree_CHECK_MUDNN_STATUS s msg : libfree (CHECK_MUDNN_STATUS s msg).
Proof. aux. Qed.
Lemma libfree_optional_value {A} (o : option A) : libfree (optional_value o).
Proof. aux. Qed.
Lemma libfree_norm_p_value p : libfree (norm_p_value p). Proof. aux. Qed.
Lemma libfree_make_proxy t dt : libfree (make_proxy t dt). Proof. aux. Qed.

Lemma quiet_at_empty shape dev dt : quiet (at_empty shape dev dt).
Proof. aux. Qed.
Lemma quiet_fill_ t src : quiet (fill_ t src). Proof. aux. Qed.
Lemma quiet_copy_ dst src : quiet (copy_ dst src). Proof. aux. Qed.
Lemma quiet_to_dtype src dt : quiet (to_dtype src dt). Proof. aux. Qed.
Lemma quiet_to_device src d : quiet (to_device src d). Proof. aux. Qed.
Lemma quiet_flatten src : quiet (flatten src). Proof. aux. Qed.
Lemma quiet_resize_output out shape : quiet (resize_output out shape).
Proof. aux. Qed.
Lemma quiet_resize_ out shape : quiet (resize_ out shape). Proof. aux. Qed.
Lemma quiet_propagate_names dst src : quiet (propagate_names dst src).
Proof. aux. Qed.
Lemma quiet_item self : quiet (item E self). Proof. aux. Qed.
Lemma quiet_FormatContiguous t : quiet (FormatContiguous t). Proof. aux. Qed.
Lemma quiet_Contiguous t : quiet (Contiguous t). Proof. aux. Qed.
Lemma quiet_CHECK_MUDNN_STATUS s msg : quiet (CHECK_MUDNN_STATUS s msg).
Proof. aux. Qed.
Lemma quiet_optional_value {A} (o : option A) : quiet (optional_value o).
Proof. aux. Qed.
Lemma quiet_norm_p_value p : quiet (norm_p_value p). Proof. aux. Qed.
Lemma quiet_make_proxy t dt : quiet (make_proxy t dt). Proof. aux. Qed.
Lemma quiet_lib c : quiet (lib E c). Proof. aux. Qed.
Lemma quiet_CreateMUTensor t : quiet (CreateMUTensor t). Proof. aux. Qed.
Lemma quiet_GetMudnnHandle : quiet GetMudnnHandle. Proof. aux. Qed.
Lemma quiet_Reduce_Run m dims ord out inp :
  quiet (Reduce_Run E m dims ord out inp).
Proof. aux. Qed.
Lemma quiet_Reduce_RunWithIndices m d out ids inp :
  quiet (Reduce_RunWithIndices E m d out ids inp).
Proof. aux. Qed.
Lemma quiet_Reduce_RunIndices m d out inp :
  quiet (Reduce_RunIndices E m d out inp).
Proof. aux. Qed.
Lemma quiet_Cum_Run m d out inp : quiet (Cum_Run E m d out inp).
Proof. aux. Qed.

Lemma under_lib d c : under d (lib E c). Proof. aux. Qed.
Lemma under_CreateMUTensor d t : under d (CreateMUTensor t). Proof. aux. Qed.
Lemma under_GetMudnnHandle d : under d GetMudnnHandle. Proof. aux. Qed.
Lemma under_Reduce_Run d m dims ord out inp :
  under d (Reduce_Run E m dims ord out inp).
Proof. aux. Qed.
Lemma under_Reduce_RunWithIndices d m dm out ids inp :
  under d (Reduce_RunWithIndices E m dm out ids inp).
Proof. aux. Qed.
Lemma under_Reduce_RunIndices d m dm out inp :
  under d (Reduce_RunIndices E m dm out inp).
Proof. aux. Qed.
Lemma under_Cum_Run d m dm out inp : under d (Cum_Run E m dm out inp).
Proof. aux. Qed.

Lemma runs_lib c : is_run_call c = true -> runs (lib E c).
Proof. intros. apply runs_bind_l. by apply runs_lib_event. Qed.
Lemma runs_Reduce_Run m dims ord out inp :
  runs (Reduce_Run E m dims ord out inp).
Proof. apply runs_bind_l. by apply runs_lib. Qed.
Lemma runs_Reduce_RunWithIndices m d out ids inp :
  runs (Reduce_RunWithIndices E m d out ids inp).
Proof. apply runs_bind_l. by apply runs_lib. Qed.
Lemma runs_Reduce_RunIndices m d out inp :
  runs (Reduce_RunIndices E m d out inp).
Proof. apply runs_bind_l. by apply runs_lib. Qed.
Lemma runs_Cum_Run m d out inp : runs (Cum_Run E m d out inp).
Proof. apply runs_bind_l. by apply runs_lib. Qed.

End Traces.

#[global] Hint Resolve libfree_at_empty libfree_zero_ libfree_fill_
  libfree_copy_ libfree_to_dtype libfree_to_device libfree_flatten
  libfree_resize_output libfree_resize_ libfree_propagate_names libfree_item
  libfree_host_reduce libfree_FormatContiguous libfree_Contiguous
  libfree_CHECK_MUDNN_STATUS libfree_optional_value libfree_norm_p_value
  libfree_make_proxy
  quiet_at_empty quiet_fill_ quiet_copy_ quiet_to_dtype quiet_to_device
  quiet_flatten quiet_resize_output quiet_resize_ quiet_propagate_names
  quiet_item quiet_FormatContiguous quiet_Contiguous
  quiet_CHECK_MUDNN_STATUS quiet_optional_value quiet_norm_p_value
  quiet_make_proxy quiet_lib quiet_CreateMUTensor quiet_GetMudnnHandle
  quiet_Reduce_Run quiet_Reduce_RunWithIndices quiet_Reduce_RunIndices
  quiet_Cum_Run
  under_lib under_CreateMUTensor under_GetMudnnHandle under_Reduce_Run
  under_Reduce_RunWithIndices under_Reduce_RunIndices under_Cum_Run
  runs_Reduce_Run runs_Reduce_RunWithIndices runs_Reduce_RunIndices
  runs_Cum_Run : trace.

Ltac runs_step :=
  match goal with
  | |- runs (mbind _ _) =>
      first [ apply runs_bind_l; solve [eauto with trace]
            | apply runs_bind_r; intros ? ]
  | |- runs (if ?c then _ else _) => destruct c
  | |- runs (match ?x with _ => _ end) => destruct x
  | |- runs _ => solve [eauto with trace]
  end.
Ltac runs_tac := repeat runs_step.

Lemma wp_guarded_body {A} d (P : Prop) (m : M A) st :
  current_device st = d ->
  under d m -> quiet m -> runs m ->
  wp m st (fun r st1 tr => trace_spec d P r (EvGuard d :: tr)).
Proof.
  intros Hst Hu Hq Hr. unfold wp, trace_spec. split.
  - apply guarded_guard. by apply Hu.
  - intros _. split.
    + constructor; [done|]. apply Hq.
    + intros a Ha. apply Exists_cons_tl. by eapply Hr.
Qed.

Section CoreTraces.
Variable E : Env.

Lemma ReduceCall_trace output self dims m p is_norm st :
  wp (ReduceCall E output self dims m p is_norm) st (fun r st' tr =>
    trace_spec (device (tensor st self)) (numel (tensor st self) <> 0) r tr).
Proof.
  unfold ReduceCall. apply wp_bind, wp_get. cbv beta iota. apply wp_guard.
  case_decide.
  - apply wp_ret. solve_trace.
  - apply wp_guarded_body; [done|..].
    + trace_tac.
    + trace_tac.
    + runs_tac.
Qed.

Ltac wp_pre :=
  repeat (lazymatch goal with
          | |- wp (with_guard _ _) _ _ => fail
          | |- _ => wp_step
          end).

Ltac guard_body :=
  lazymatch goal with
  | |- wp (with_guard _ _) _ (fun r st1 tr => trace_spec ?d ?P _ _) =>
      apply wp_guard; eapply wp_wand;
      [ apply (wp_guarded_body d P);
        [ reflexivity | trace_tac | trace_tac | runs_tac ]
      | cbv beta; intros ? ? ? ?; solve_trace ]
  end.

Lemma ReduceIndicesCall_trace output indices self d m st :
  wp (ReduceIndicesCall E output indices self d m) st (fun r st' tr =>
    trace_spec (device (tensor st self)) True r tr).
Proof.
  unfold ReduceIndicesCall. wp_pre; [|solve_trace]. guard_body.
Qed.

Lemma ReduceIndicesOnlyCall_trace output self d m st :
  wp (ReduceIndicesOnlyCall E output self d m) st (fun r st' tr =>
    trace_spec (device (tensor st self)) True r tr).
Proof. unfold ReduceIndicesOnlyCall. wp_pre. guard_body. Qed.

Lemma CumulativeImpl_trace out inp d mode st :
  wp (CumulativeImpl E out inp d mode) st (fun r st' tr =>
    trace_spec (device (tensor st inp)) (numel (tensor st inp) <> 0) r tr).
Proof.
  unfold CumulativeImpl. wp_pre; [solve_trace|..].
  - unfold tensor at 1 2. cbn [heap]. rewrite device_look_alter_set_data.
    fold (tensor st inp). guard_body.
  - guard_body.
Qed.

End CoreTraces.

(* ------------------------------------------------------------------ *)
(** ** The operators, one by one *)
(* ------------------------------------------------------------------ *)

Section OpTraces.
Variable E : Env.

Lemma Reduction_trace self dims keepdim dt m p is_norm st :
  live st self ->
  wp (Reduction E self dims keepdim dt m p is_norm) st (fun r st' tr =>
    trace_spec (device (tensor st self)) (numel (tensor st self) <> 0) r tr).
Proof.
  intros Hl. unfold Reduction. wp_go; try solve_trace.
  eapply wp_wand; [apply ReduceCall_trace|].
  cbv beta. intros [?|?] ? ? Hspec; wp_go; heap_simpl; solve_trace.
Qed.

Ltac core_call :=
  eapply wp_wand;
  [ first [ apply ReduceCall_trace
          | apply ReduceIndicesCall_trace
          | apply ReduceIndicesOnlyCall_trace
          | apply CumulativeImpl_trace
          | apply Reduction_trace; heap_len ]
  | cbv beta; intros [?|?] ? ? ? ].

Ltac op_trace :=
  repeat (wp_go; try core_call); heap_simpl; unfold numel in *;
  cbn [sizes device] in *; try solve_trace.

Lemma ReductionIndices_trace self d keepdim m st :
  live st self ->
  wp (ReductionIndices E self d keepdim m) st (fun r st' tr =>
    trace_spec (device (tensor st self)) True r tr).
Proof. intros Hl. unfold ReductionIndices. op_trace. Qed.

Lemma MaxAllCall_trace self m st :
  live st self ->
  wp (MaxAllCall E self m) st (fun r st' tr =>
    trace_spec (device (tensor st self)) (numel (tensor st self) <> 0) r tr).
Proof. intros Hl. unfold MaxAllCall. op_trace. Qed.

Lemma MinAllCall_trace self m st :
  live st self ->
  wp (MinAllCall E self m) st (fun r st' tr =>
    trace_spec (device (tensor st self)) (numel (tensor st self) <> 0) r tr).
Proof. intros Hl. unfold MinAllCall. op_trace. Qed.

Ltac core_call2 :=
  eapply wp_wand;
  [ first [ apply ReduceCall_trace
          | apply ReduceIndicesCall_trace
          | apply ReduceIndicesOnlyCall_trace
          | apply CumulativeImpl_trace
          | apply Reduction_trace; heap_len
          | apply ReductionIndices_trace; heap_len
          | apply MaxAllCall_trace; heap_len
          | apply MinAllCall_trace; heap_len ]
  | cbv beta; intros [?|?] ? ? ? ].

Ltac op_trace2 :=
  repeat (wp_go; try core_call2); heap_simpl; unfold numel in *;
  cbn [sizes device] in *; try solve_trace.

Ltac use_specs :=
  repeat match goal with
         | H : trace_spec _ _ _ _ |- _ =>
             let H1 := fresh in
             destruct H as [_ H1];
             lazymatch type of H1 with
             | ?P -> _ =>
                 let Hp := fresh in
                 assert P as Hp;
                 [ first
                     [ exact I
                     | repeat case_decide; cbn [sizes set_sizes];
                       first [ assumption
                             | eapply get_reduction_shape_numel;
                               eassumption ] ]
                 | specialize (H1 Hp); destruct H1 as [? ?] ]
             end
         end.

Ltac finish_op :=
  split;
  [ repeat match goal with
           | H : trace_spec _ _ _ _ |- _ => destruct H as [? _]
           end;
    solve [solve_guarded]
  | let Hne := fresh "Hne" in let Hd := fresh "Hd" in
    intros [Hne Hd]; cbn [host_delegated] in Hd; unfold tensor in Hd;
    first
      [ discriminate Hd
      | apply bool_decide_eq_false_1 in Hd; contradiction
      | use_specs;
        split;
        [ solve [solve_Forall]
        | let a := fresh "a" in let Ha := fresh "Ha" in
          intros a Ha;
          first [ discriminate | use_Exists Ha; solve_Exists ] ] ] ].

Lemma exec_trace op st :
  live st (op_self op) ->
  wp (exec E op) st (fun r st' tr =>
    trace_spec (device (tensor st (op_self op)))
      (numel (tensor st (op_self op)) <> 0 /\ host_delegated op st = false)
      r tr).
Proof.
  intros Hl. destruct op; cbn [op_self] in *.
  all: unfold exec, one, pair, none, Mean, MeanDim, MeanOut, MeanNamesDim,
    MeanNamesDimOut, Sum, SumIntListOut, SumDimnameList, SumDimnameListOut,
    SumIntList, Prod, ProdIntOut, NormOut, NormDtypeOut, CumSum, CumSum_,
    CumSumOut, CumProd, CumProd_, CumProdOut, Cumulative, Cumulative_,
    CumulativeOut, Any, AnyOut, AnyDim, AnyDimOut, bool_or_01, MaxAll, MaxDim,
    MaxDimMax, MaxNamesDim, MaxNamesDimMax, All, AllDim, AllDimOut,
    bool_byte_or_01, argmax_out_musa, argmin_out_musa, ArgMinOrMaxOutTemplate,
    MinAll, MinDim, MinDimMin, MinNamesDim, MinNamesDimMin, VarMeanCorrection,
    VarCorrection, VarOutCorrection.
  all: op_trace2.
  all: finish_op.
Qed.


End OpTraces.

(* ------------------------------------------------------------------ *)
(** ** Operators that return *)
(* ------------------------------------------------------------------ *)

Lemma get_reduction_shape_total self_r dims keepdim :
  dims_ok dims (dim self_r) ->
  exists shape,
    get_reduction_shape self_r (wrap_of (Z.max (dim self_r) 1) <$> dims)
      keepdim = Ok shape.
Proof.
  intros (HF & Hnd & H64). assert (0 <= dim self_r) by (unfold dim; lia).
  unfold get_reduction_shape.
  assert (exists mask,
    make_dim_mask (wrap_of (Z.max (dim self_r) 1) <$> dims) (dim self_r)
    = Ok mask) as [mask ->]; [|by eexists].
  destruct dims as [|d0 dims0]; [by eexists|].
  change (make_dim_mask ?l ?n) with (dim_list_to_bitset l n).
  unfold dim_list_to_bitset. rewrite decide_True by by apply H64.
  apply dim_list_to_bitset_loop_total; [done| |done|].
  - apply Forall_fmap. eapply Forall_impl; [done|].
    intros d Hd. unfold compose, wrap_of. cbv beta in *. case_decide; lia.
  - intros. apply Z.testbit_0_l.
Qed.

Lemma total_bind {A B} (m : M A) (f : A -> M B) :
  total m -> (forall a, total (f a)) -> total (m ≫= f).
Proof.
  intros Hm Hf st. rewrite bind_unfold. destruct (Hm st) as [a ->].
  apply Hf.
Qed.

Lemma returns_bind {A B} (m : M A) (f : A -> M B) v :
  returns m v -> total (f v) -> total (m ≫= f).
Proof.
  intros Hm Hf st. rewrite bind_unfold. rewrite Hm. apply Hf.
Qed.

Lemma returns_bind_returns {A B} (m : M A) (f : A -> M B) v w :
  returns m v -> returns (f v) w -> returns (m ≫= f) w.
Proof.
  intros Hm Hf st. rewrite bind_unfold. rewrite Hm. apply Hf.
Qed.

Lemma total_ret {A} (a : A) : total (mret a).
Proof. intros st. by eexists. Qed.
Lemma total_emit ev : total (emit ev).
Proof. intros st. by eexists. Qed.
Lemma total_get t : total (get t).
Proof. intros st. by eexists. Qed.
Lemma total_get_current_device : total get_current_device.
Proof. intros st. by eexists. Qed.
Lemma total_alloc r : total (alloc r).
Proof. intros st. by eexists. Qed.
Lemma total_update t f : total (update t f).
Proof. intros st. by eexists. Qed.
Lemma total_lib_event c : total (lib_event c).
Proof. intros st. by eexists. Qed.
Lemma total_TORCH_CHECK_true msg : total (TORCH_CHECK true msg).
Proof. intros st. by eexists. Qed.
Lemma total_CHECK_MUDNN_STATUS_SUCCESS msg :
  total (CHECK_MUDNN_STATUS SUCCESS msg).
Proof. intros st. by eexists. Qed.
Lemma total_guard {A} d (body : M A) : total body -> total (with_guard d body).
Proof.
  intros H st. destruct (H (mkState (heap st) d)) as [a Ha].
  exists a. unfold with_guard, out_result in *.
  by destruct (body _) as [[r st1] tr].
Qed.
Lemma total_norm_p_value p : norm_ord_ok p -> total (norm_p_value p).
Proof. intros Hp st. destruct p as [[]|]; try done; by eexists. Qed.

Lemma total_wp {A} (m : M A) st :
  total m -> wp m st (fun r _ _ => exists a, r = Ok a).
Proof. intros H. apply H. Qed.

Create HintDb total discriminated.
#[global] Hint Resolve total_ret total_emit total_get total_get_current_device
  total_alloc total_update total_lib_event total_TORCH_CHECK_true
  total_CHECK_MUDNN_STATUS_SUCCESS total_guard total_norm_p_value : total.

Lemma maybe_wrap_dim_total d n :
  0 <= n -> - Z.max n 1 <= d < Z.max n 1 ->
  maybe_wrap_dim d n = Ok (wrap_of (Z.max n 1) d).
Proof.
  intros Hn Hd. unfold maybe_wrap_dim, wrap_of.
  repeat case_decide; try lia; f_equal; lia.
Qed.

Section Totality.
Variable E : Env.
Hypothesis Hlib : lib_succeeds E.

Lemma returns_lib c : returns (lib E c) SUCCESS.
Proof. intros st. unfold lib. rewrite bind_unfold. simpl. by rewrite Hlib. Qed.

Lemma returns_Reduce_Run m dims ord out inp :
  returns (Reduce_Run E m dims ord out inp) SUCCESS.
Proof.
  intros st. unfold Reduce_Run. rewrite bind_unfold, returns_lib.
  by rewrite !bind_unfold.
Qed.
Lemma returns_Reduce_RunWithIndices m d out ids inp :
  returns (Reduce_RunWithIndices E m d out ids inp) SUCCESS.
Proof.
  intros st. unfold Reduce_RunWithIndices. rewrite bind_unfold, returns_lib.
  by rewrite !bind_unfold.
Qed.
Lemma returns_Reduce_RunIndices m d out inp :
  returns (Reduce_RunIndices E m d out inp) SUCCESS.
Proof.
  intros st. unfold Reduce_RunIndices. rewrite bind_unfold, returns_lib.
  by rewrite !bind_unfold.
Qed.
Lemma returns_Cum_Run m d out inp : returns (Cum_Run E m d out inp) SUCCESS.
Proof.
  intros st. unfold Cum_Run. rewrite bind_unfold, returns_lib.
  by rewrite !bind_unfold.
Qed.

Ltac total_step :=
  match goal with
  | |- total (mbind _ (lib _ _)) =>
      eapply returns_bind; [apply returns_lib|]
  | |- total (mbind _ (Reduce_Run _ _ _ _ _ _)) =>
      eapply returns_bind; [apply returns_Reduce_Run|]
  | |- total (mbind _ (Reduce_RunWithIndices _ _ _ _ _ _)) =>
      eapply returns_bind; [apply returns_Reduce_RunWithIndices|]
  | |- total (mbind _ (Reduce_RunIndices _ _ _ _ _)) =>
      eapply returns_bind; [apply returns_Reduce_RunIndices|]
  | |- total (mbind _ (Cum_Run _ _ _ _ _)) =>
      eapply returns_bind; [apply returns_Cum_Run|]
  | |- total (mbind _ _) => apply total_bind; [|intros ?]
  | |- total (with_guard _ _) => apply total_guard
  | |- total (if ?c then _ else _) => destruct c eqn:?
  | |- total (match ?x with _ => _ end) => destruct x eqn:?
  | |- total _ => solve [eauto with total]
  | |- total _ =>
      progress unfold at_empty, zero_, fill_, copy_, to_dtype, to_device,
        flatten, resize_output, resize_, propagate_names, host_reduce,
        Contiguous, FormatContiguous, CreateMUTensor, GetMudnnHandle,
        make_proxy
  end.
Ltac total_tac := repeat total_step.

Lemma ReduceCall_total output self dims m p is_norm :
  (is_norm = true -> norm_ord_ok p) ->
  total (ReduceCall E output self dims m p is_norm).
Proof. intros Hp. unfold ReduceCall. total_tac. Qed.

Lemma Reduction_total self dims keepdim dt m p is_norm st :
  (is_norm = true -> norm_ord_ok p) ->
  dims_ok dims (dim (tensor st self)) ->
  wp (Reduction E self dims keepdim dt m p is_norm) st
     (fun r _ _ => exists out, r = Ok out).
Proof.
  intros Hp Hd. unfold Reduction.
  destruct (get_reduction_shape_total (tensor st self) dims keepdim Hd)
    as [shape Hs].
  destruct Hd as (HF & _ & _).
  apply maybe_wrap_dims_total in HF; [|unfold dim; lia].
  wp_step. wp_step. wp_step. wp_step. wp_step. rewrite HF. cbv beta iota.
  wp_step. wp_step. rewrite Hs. cbv beta iota.
  apply total_wp. pose proof (ReduceCall_total) as HRC. total_tac.
Qed.

Lemma ReduceIndicesCall_total output indices self d m st :
  scalar_type (tensor st self) = scalar_type (tensor st output) ->
  wp (ReduceIndicesCall E output indices self d m) st
     (fun r _ _ => exists a, r = Ok a).
Proof.
  intros Hdt. unfold ReduceIndicesCall.
  wp_step. wp_step. wp_step. wp_step. wp_step.
  rewrite bool_decide_eq_true_2 by done. unfold TORCH_CHECK.
  wp_step. cbv beta iota. apply total_wp. total_tac.
Qed.

Lemma ReductionIndices_total self d keepdim m st :
  live st self ->
  dims_ok [d] (dim (tensor st self)) ->
  wp (ReductionIndices E self d keepdim m) st
     (fun r _ _ => exists v i, r = Ok (v, i)).
Proof.
  intros Hl Hd. unfold ReductionIndices.
  assert (0 <= dim (tensor st self)) as Hn by (unfold dim; lia).
  pose proof Hd as (HF & _ & H64). rewrite Forall_singleton in HF.
  pose proof (maybe_wrap_dim_total d _ Hn HF) as H1.
  remember (wrap_of (Z.max (dim (tensor st self)) 1) d) as w eqn:Hw.
  assert (0 <= w < Z.max (dim (tensor st self)) 1) as Hwr
    by (subst w; unfold wrap_of; case_decide; lia).
  assert (dims_ok [w] (dim (tensor st self))) as Hdw.
  { split; [|split].
    - apply Forall_singleton. lia.
    - apply NoDup_singleton.
    - intros _. by apply H64. }
  pose proof (get_reduction_shape_total _ [w] keepdim Hdw) as [shape Hs].
  pose proof (maybe_wrap_dims_total [w] _ (proj1 Hdw) Hn) as HFw.
  assert (wrap_of (Z.max (dim (tensor st self)) 1) <$> [w] = [w]) as Hww.
  { simpl. unfold wrap_of at 1. by rewrite decide_False by lia. }
  rewrite Hww in Hs, HFw.
  wp_step. wp_step. wp_step. wp_step. rewrite H1. cbv beta iota.
  wp_step. wp_step. rewrite HFw. cbv beta iota.
  wp_step. wp_step. rewrite Hs. cbv beta iota.
  wp_go.
  eapply wp_wand; [apply ReduceIndicesCall_total|].
  - heap_simpl. done.
  - cbv beta. intros r st' tr [[] ->]. wp_go. eauto.
Qed.

End Totality.

Section Shapes.
Variable E : Env.

Lemma maybe_wrap_dim_Ok d n w :
  0 <= n -> maybe_wrap_dim d n = Ok w ->
  - Z.max n 1 <= d < Z.max n 1 /\ w = wrap_of (Z.max n 1) d.
Proof.
  intros Hn. unfold maybe_wrap_dim, wrap_of.
  repeat case_decide; intros [= <-]; split; try lia.
  all: repeat case_decide; try lia.
  all: replace (Z.max n 1) with 1 by lia; lia.
Qed.

Lemma ReductionIndices_result self d keepdim m st :
  live st self ->
  wp (ReductionIndices E self d keepdim m) st (fun r st' tr =>
    forall v i, r = Ok (v, i) ->
      exists w dims_vec shape,
        maybe_wrap_dim d (dim (tensor st self)) = Ok w
        /\ maybe_wrap_dims [w] (dim (tensor st self)) = Ok dims_vec
        /\ get_reduction_shape (tensor st self) dims_vec keepdim = Ok shape
        /\ sizes (tensor st' v) = shape
        /\ sizes (tensor st' i) = shape
        /\ scalar_type (tensor st' v) = scalar_type (tensor st self)
        /\ scalar_type (tensor st' i) = kLong).
Proof.
  intros Hself. unfold ReductionIndices.
  wp_go; try (intros; discriminate).
  eapply (wp_respects same_shape).
  { apply respects_ReduceIndicesCall; [apply _|apply same_shape_set_data]. }
  intros r st' tr Hle. destruct r; [|intros; discriminate].
  wp_go. intros v i [= <- <-]. exists a, a0, a1.
  pose proof (st_le_tensor _ _ _ (length (heap st)) Hle) as Ht1.
  pose proof (st_le_tensor _ _ _ (length (heap st) + 1)%nat Hle) as Ht2.
  heap_simpl.
  destruct Ht1 as ((_&Hdt1&_)&Hsz1&_); [lia|].
  destruct Ht2 as ((_&Hdt2&_)&Hsz2&_); [lia|].
  cbn [sizes scalar_type] in *. repeat split; done.
Qed.

End Shapes.

(* ------------------------------------------------------------------ *)
(** ** Shapes and scalar types of results *)
(* ------------------------------------------------------------------ *)

Lemma wp_conj {A} (m : M A) st (Q1 Q2 : Result A -> State -> list Event -> Prop) :
  wp m st Q1 -> wp m st Q2 ->
  wp m st (fun r st' tr => Q1 r st' tr /\ Q2 r st' tr).
Proof. unfold wp. auto. Qed.

Lemma wp_exists {A} (m : M A) st : exists r st' tr, m st = (r, st', tr).
Proof. destruct (m st) as [[r st'] tr]. eauto. Qed.

Section ResultTypes.
Variable E : Env.

Lemma is_reduced_singleton d n i :
  0 <= n -> - Z.max n 1 <= d < Z.max n 1 -> Z.of_nat i < n ->
  is_reduced [wrap_of (Z.max n 1) d] n i = is_reduced [d] n i.
Proof.
  intros Hn Hd Hi.
  rewrite !is_reduced_wrapped; try done.
  - apply bool_decide_ext. simpl. rewrite !list_elem_of_singleton.
    unfold wrap_of. repeat case_decide; lia.
  - by apply Forall_singleton.
  - apply Forall_singleton. unfold wrap_of. case_decide; lia.
Qed.

(** C3: [Reduction] returns a tensor whose shape is the reduction shape
    of the host framework: negative dims are wrapped into range, each
    reduced dimension is removed, or kept with size 1 when [keepdim] is
    set; [ReductionIndices] gives its values and its indices that same
    shape.  Both return when the library succeeds and the dims are
    ones the host framework accepts. *)
Theorem Reduction_shape self dims d keepdim dt m p is_norm st :
  live st self ->
  dim (tensor st self) <= dim_bitset_size ->
  let self_r := tensor st self in
  (forall out st' tr,
      Reduction E self dims keepdim dt m p is_norm st = (Ok out, st', tr) ->
      sizes (tensor st' out) =
      reduction_shape_spec (is_reduced dims (dim self_r)) keepdim
        (sizes self_r))
  /\ (forall values indices st' tr,
        ReductionIndices E self d keepdim m st
          = (Ok (values, indices), st', tr) ->
        sizes (tensor st' values) =
          reduction_shape_spec (is_reduced [d] (dim self_r)) keepdim
            (sizes self_r)
        /\ sizes (tensor st' indices) = sizes (tensor st' values))
  /\ (lib_succeeds E -> (is_norm = true -> norm_ord_ok p) ->
      dims_ok dims (dim self_r) ->
      exists out st' tr,
        Reduction E self dims keepdim dt m p is_norm st = (Ok out, st', tr))
  /\ (lib_succeeds E -> dims_ok [d] (dim self_r) ->
      exists values indices st' tr,
        ReductionIndices E self d keepdim m st
          = (Ok (values, indices), st', tr)).
Proof.
  intros Hl H64 self_r. assert (0 <= dim self_r) as Hn by (unfold dim; lia).
  split; [|split; [|split]].
  - intros out st' tr Hrun.
    pose proof (wp_run _ _ _ _ _ _
      (Reduction_result E self dims keepdim dt m p is_norm st Hl) Hrun) as H.
    destruct (H _ eq_refl) as (dv & shape & Hw & Hs & _ & Hsz & _).
    rewrite Hsz. by eapply get_reduction_shape_spec.
  - intros v i st' tr Hrun.
    pose proof (wp_run _ _ _ _ _ _
      (ReductionIndices_result E self d keepdim m st Hl) Hrun) as H.
    destruct (H _ _ eq_refl) as (w & dv & shape & Hw & Hws & Hs & Hv & Hi & _).
    rewrite Hv, Hi. split; [|done].
    apply maybe_wrap_dim_Ok in Hw as [Hd ->]; [|done].
    rewrite (get_reduction_shape_spec _ _ _ _ _ H64 Hws Hs).
    apply reduction_shape_spec_ext. intros j Hj.
    apply is_reduced_singleton; [done|done|]. subst self_r. unfold dim. lia.
  - intros Hlib Hp Hd.
    pose proof (Reduction_total E Hlib self dims keepdim dt m p is_norm st
                  Hp Hd) as H.
    destruct (wp_exists (Reduction E self dims keepdim dt m p is_norm) st)
      as (r & st' & tr & Hrun).
    destruct (wp_run _ _ _ _ _ _ H Hrun) as [out ->]. eauto.
  - intros Hlib Hd.
    pose proof (ReductionIndices_total E Hlib self d keepdim m st Hl Hd) as H.
    destruct (wp_exists (ReductionIndices E self d keepdim m) st)
      as (r & st' & tr & Hrun).
    destruct (wp_run _ _ _ _ _ _ H Hrun) as (v & i & ->). eauto.
Qed.

Lemma dims_ok_nil n : dims_ok [] n.
Proof. split; [constructor|]. split; [constructor|done]. Qed.

Lemma Any_All_total self m st :
  lib_succeeds E ->
  live st self ->
  wp (self_r ← get self;
      out ← Reduction E self [] false (Some (scalar_type self_r)) m None false;
      self_r ← get self;
      if decide (scalar_type self_r <> Bool) then to_dtype out Bool
      else mret out) st
    (fun r st' tr => exists out, r = Ok out).
Proof.
  intros Hlib Hl. wp_step. wp_step. wp_step.
  eapply wp_wand; [apply Reduction_total; [done|done|apply dims_ok_nil]|].
  cbv beta. intros r st1 tr1 [out ->]. wp_go; eauto.
Qed.

End ResultTypes.

(* ------------------------------------------------------------------ *)
(** ** Cumulative operators *)
(* ------------------------------------------------------------------ *)

Lemma st_le_eq_tensor st st' t :
  st_le eq st st' -> live st t -> tensor st' t = tensor st t /\ live st' t.
Proof.
  intros (Hlen & H & _) Hl. split; [symmetry; by apply H|].
  unfold live in *. lia.
Qed.

Lemma st_le_eq_alloc st r :
  st_le eq st (mkState (heap st ++ [r]) (current_device st)).
Proof.
  split; [|split]; [simpl; rewrite length_app; simpl; lia| |done].
  intros t Hl. unfold tensor. simpl. by rewrite look_app_l.
Qed.

Lemma st_le_eq_refl st : st_le eq st st.
Proof. repeat split; done. Qed.

Lemma st_le_eq_trans st1 st2 st3 :
  st_le eq st1 st2 -> st_le eq st2 st3 -> st_le eq st1 st3.
Proof. apply st_le_trans. apply _. Qed.

Lemma is_contiguous_look_alter_set_data h d t t' :
  is_contiguous (look (alter (set_data d) t h) t')
  = is_contiguous (look h t').
Proof. rewrite look_alter. by case_decide. Qed.

(** Steps up to the call of a function that has a specification. *)
Ltac wp_to_run :=
  repeat lazymatch goal with
         | |- wp (mbind _ (make_proxy _ _)) _ _ => fail
         | |- _ => wp_step
         end.

Section CumulativeResults.
Variable E : Env.

Lemma make_proxy_spec t dt st :
  live st t ->
  wp (make_proxy t dt) st (fun r st' tr =>
    st_le eq st st'
    /\ exists c, r = Ok c /\ live st' c
       /\ scalar_type (tensor st' c) = dt
       /\ data (tensor st' c) =
          (if decide (scalar_type (tensor st t) = dt) then data (tensor st t)
           else DCast dt (data (tensor st t)))
       /\ is_contiguous (tensor st' c) = is_contiguous (tensor st t)
       /\ (scalar_type (tensor st t) = dt -> c = t)).
Proof.
  intros Hl. wp_go.
  - congruence.
  - split; [apply st_le_eq_alloc|]. eexists. split; [done|].
    heap_simpl. simpl. repeat split; try done. lia.
  - split; [apply st_le_eq_refl|]. exists t.
    assert (scalar_type (tensor st t) = dt) as Heq
      by (by destruct (decide (scalar_type (tensor st t) = dt)); [|exfalso; auto]).
    rewrite decide_True by done. done.
Qed.

Lemma FormatContiguous_spec t st :
  live st t ->
  wp (FormatContiguous t) st (fun r st' tr =>
    st_le eq st st'
    /\ exists c, r = Ok c /\ live st' c
       /\ scalar_type (tensor st' c) = scalar_type (tensor st t)
       /\ data (tensor st' c) = data (tensor st t)
       /\ (is_contiguous (tensor st t) = true -> c = t)
       /\ (is_contiguous (tensor st t) = false -> c = length (heap st))).
Proof.
  intros Hl. wp_go.
  - split; [apply st_le_eq_refl|]. exists t. repeat split; done || congruence.
  - split; [apply st_le_eq_alloc|]. eexists. split; [done|].
    heap_simpl. simpl. repeat split; done || lia || congruence.
Qed.

Lemma cumulative_run_result out inp in_ctype out_ctype d mode st :
  live st out -> live st inp ->
  wp (c_in ← make_proxy inp in_ctype;
      c_out ← make_proxy out out_ctype;
      contig_c_in ← FormatContiguous c_in;
      contig_c_out ← FormatContiguous c_out;
      mudnn_out ← CreateMUTensor contig_c_out;
      mudnn_in ← CreateMUTensor contig_c_in;
      GetMudnnHandle;;
      s ← lib E (LCum_SetDim (static_cast_int d));
      CHECK_MUDNN_STATUS s "SetDim";;
      s ← lib E (LCum_SetMode mode);
      CHECK_MUDNN_STATUS s "SetMode";;
      s ← Cum_Run E mode (static_cast_int d) mudnn_out mudnn_in;
      CHECK_MUDNN_STATUS s "CumRun";;
      out_r ← get out;
      if decide (out_ctype <> scalar_type out_r) then copy_ out contig_c_out
      else mret tt) st
    (fun r st' tr =>
       let res := DCum mode (static_cast_int d)
                    (cum_source in_ctype (tensor st inp)) in
       (lib_succeeds E -> r = Ok tt)
       /\ (r = Ok tt ->
           (out_ctype <> scalar_type (tensor st out) ->
            data (tensor st' out) = DCast (scalar_type (tensor st out)) res)
           /\ (out_ctype = scalar_type (tensor st out) ->
               is_contiguous (tensor st out) = true ->
               data (tensor st' out) = res)
           /\ (out_ctype = scalar_type (tensor st out) ->
               is_contiguous (tensor st out) = false ->
               data (tensor st' out) = data (tensor st out)))).
Proof.
  intros Hout Hinp.
  apply wp_bind. eapply wp_wand; [by apply make_proxy_spec|]. cbv beta.
  intros ? st1 tr1 (Hle1 & c_in & -> & Hl1 & Ht1 & Hd1 & Hc1 & He1).
  destruct (st_le_eq_tensor _ _ _ Hle1 Hout) as [Hout1 Hlo1].
  apply wp_bind. eapply wp_wand; [by apply make_proxy_spec|]. cbv beta.
  intros ? st2 tr2 (Hle2 & c_out & -> & Hl2 & Ht2 & Hd2 & Hc2 & He2).
  destruct (st_le_eq_tensor _ _ _ Hle2 Hl1) as [Hin2 Hli2].
  destruct (st_le_eq_tensor _ _ _ Hle2 Hlo1) as [Hout2 Hlo2].
  apply wp_bind. eapply wp_wand; [by apply FormatContiguous_spec|]. cbv beta.
  intros ? st3 tr3 (Hle3 & cc_in & -> & Hl3 & Ht3 & Hd3 & Hc3 & _).
  destruct (st_le_eq_tensor _ _ _ Hle3 Hl2) as [Hcout3 Hlc3].
  destruct (st_le_eq_tensor _ _ _ Hle3 Hlo2) as [Hout3 Hlo3].
  apply wp_bind. eapply wp_wand; [by apply FormatContiguous_spec|]. cbv beta.
  intros ? st4 tr4 (Hle4 & cc_out & -> & Hl4 & Ht4 & Hd4 & Hc4 & Hf4).
  destruct (st_le_eq_tensor _ _ _ Hle4 Hl3) as [Hcin4 Hlci4].
  destruct (st_le_eq_tensor _ _ _ Hle4 Hlo3) as [Hout4 Hlo4].
  wp_go.
  all: split; [intros Hlib; try done; rewrite Hlib in *; discriminate|].
  all: try (intros; discriminate).
  all: repeat match goal with H : decide _ = _ |- _ => clear H end.
  all: intros _; unfold cum_source; heap_simpl.
  all: rewrite Hout4, Hout3, Hout2, Hout1 in *.
  all: rewrite ?Hcin4, ?Hd3, ?Hin2, ?Hd1 in *.
  all: assert (scalar_type (look (heap st4) cc_out) = out_ctype) as Hty
         by congruence.
  all: repeat split; intros; try congruence; try tauto.
  all: try (assert (c_out = out) as -> by (apply He2; congruence);
            rewrite Hout3 in * ).
  all: try (assert (cc_out = out) as -> by (apply Hc4; congruence)).
  all: try (assert (cc_out = length (heap st3)) as -> by
              (apply Hf4; congruence)).
  all: repeat case_decide; simpl in *; destruct_and?; try congruence;
         try tauto; try lia.
Qed.

Lemma CumulativeImpl_result out inp d mode st :
  live st out -> live st inp ->
  wp (CumulativeImpl E out inp d mode) st (fun r st' tr =>
    let in_r := tensor st inp in
    let out_r := tensor st out in
    let cts := cumulative_ctypes E (scalar_type in_r) (scalar_type out_r) in
    (lib_succeeds E -> r = Ok tt)
    /\ (r = Ok tt -> numel in_r <> 0 ->
        exists src,
          (dim in_r <> 0 \/ out <> inp -> src = cum_source cts.1 in_r)
          /\ (cts.2 <> scalar_type out_r ->
              data (tensor st' out) =
                DCast (scalar_type out_r) (DCum mode (static_cast_int d) src))
          /\ (cts.2 = scalar_type out_r -> is_contiguous out_r = true ->
              data (tensor st' out) = DCum mode (static_cast_int d) src))).
Proof.
  intros Hout Hinp. unfold CumulativeImpl. wp_to_run.
  1: { split; [done|]. intros _ Hne. done. }
  all: eapply wp_wand; [apply cumulative_run_result; heap_len|].
  all: cbv beta zeta; intros r st2 tr2 [Htot Hres]; split; [done|].
  all: intros -> Hne; destruct (Hres eq_refl) as (HA & HB & _).
  all: clear Hres Heqs Heqs0.
  all: match type of HA with context [cum_source ?a ?x] =>
         exists (cum_source a x) end.
  all: unfold tensor in *; cbn [heap] in *.
  all: rewrite ?scalar_type_look_alter_set_data in *.
  all: rewrite ?is_contiguous_look_alter_set_data in *.
  all: match goal with H : cumulative_ctypes _ _ _ = _ |- _ => rewrite H end;
       cbn [fst snd].
  all: split; [|split]; [intros Hd|intros Hc|intros Hc Hcont]; auto.
  rewrite look_alter, decide_False; [done|]. intros [-> _].
  destruct Hd; done.
Qed.

Lemma CumulativeOut_result self d dtype out mode st :
  live st self -> live st out ->
  dtype = None \/ dtype = Some (scalar_type (tensor st out)) ->
  wp (CumulativeOut E self d dtype out mode) st (fun r st' tr =>
    let in_r := tensor st self in
    let out_r := tensor st out in
    let cts := cumulative_ctypes E (scalar_type in_r) (scalar_type out_r) in
    (lib_succeeds E -> r = Ok out)
    /\ (forall t, r = Ok t ->
        t = out
        /\ sizes (tensor st' out) = sizes in_r
        /\ (numel in_r <> 0 ->
            is_contiguous out_r = true \/ sizes out_r <> sizes in_r
              \/ cts.2 <> scalar_type out_r ->
            exists src,
              (out <> self -> src = cum_source cts.1 in_r)
              /\ data (tensor st' out) =
                 if decide (cts.2 = scalar_type out_r)
                 then DCum mode (static_cast_int d) src
                 else DCast (scalar_type out_r)
                        (DCum mode (static_cast_int d) src)))).
Proof.
  intros Hself Hout Hdt. unfold CumulativeOut.
  apply wp_bind.
  apply (wp_wand _ _ (fun r st' tr => r = Ok tt /\ st' = st)).
  { destruct Hdt as [->| ->]; [done|]. wp_go; [done|].
    exfalso. by apply bool_decide_eq_false in Heqb. }
  intros ? ? ? [-> ->]. wp_to_run.
  all: eapply wp_wand;
    [ apply wp_conj;
      [ apply CumulativeImpl_result; heap_len
      | apply (wp_respects same_shape);
        [ apply respects_CumulativeImpl; [apply _|apply same_shape_set_data]
        | intros ? ? ? H; exact H ] ]
    | ].
  all: cbv beta zeta; intros [[]|e'] st1 ? [[Htot Hres] Hle];
    [|split; [intros Hlib; by specialize (Htot Hlib)|intros; discriminate]].
  all: apply wp_ret; split; [done|]; intros t [= <-]; split; [done|].
  all: specialize (Hres eq_refl).
  all: destruct (st_le_tensor _ _ _ out Hle) as (_ & Hsz & _); [heap_len|].
  all: repeat match goal with H : decide _ = _ |- _ => clear H end.
  all: unfold tensor in *; cbn [heap] in *.
  - split; [congruence|]. intros Hne Hcase.
    destruct (Hres Hne) as (src & Hsrc & HA & HB). exists src.
    split; [auto|]. case_decide; [|by apply HA].
    apply HB; [done|]. by destruct Hcase as [?|[?|?]].
  - assert (out <> self) as Hos by (intros ->; done).
    rewrite !scalar_type_look_alter_set_sizes in *.
    rewrite (look_alter _ _ out self), decide_False in * by tauto.
    rewrite (look_alter _ _ out out), decide_True in * by done.
    cbn [sizes is_contiguous set_sizes] in *.
    split; [done|]. intros Hne _.
    destruct (Hres Hne) as (src & Hsrc & HA & HB). exists src.
    split; [auto|]. case_decide; [by apply HB|by apply HA].
Qed.

(** X1: when an explicit dtype is given and differs from the scalar type
    of [out], [CumulativeOut] raises at once: the store is as it was, [out]
    is neither resized nor written, and nothing has been called. *)
Theorem CumulativeOut_rejects_dtype_mismatch self d dt out mode st :
  dt <> scalar_type (tensor st out) ->
  exists msg,
    CumulativeOut E self d (Some dt) out mode st = (Err msg, st, []).
Proof.
  intros Hne. unfold CumulativeOut. eexists.
  unfold mbind, M_bind, get, TORCH_CHECK. simpl.
  rewrite bool_decide_eq_false_2 by done. reflexivity.
Qed.

(** X2: when the dtype is absent or is the scalar type of [out],
    [CumulativeOut] returns [out] with the sizes of [self]; and when [out]
    is contiguous, or had to be resized, or the library computes in another
    scalar type than that of [out], [out] holds the cumulative result of
    the library, converted to the scalar type of [out] in the last case. *)
Theorem CumulativeOut_resizes_and_fills self d dtype out mode st :
  live st self -> live st out ->
  dtype = None \/ dtype = Some (scalar_type (tensor st out)) ->
  let o := CumulativeOut E self d dtype out mode st in
  let in_r := tensor st self in
  let out_r := tensor st out in
  let cts := cumulative_ctypes E (scalar_type in_r) (scalar_type out_r) in
  (lib_succeeds E -> out_result o = Ok out)
  /\ (forall t, out_result o = Ok t ->
      t = out
      /\ sizes (tensor (out_state o) out) = sizes in_r
      /\ (numel in_r <> 0 ->
          is_contiguous out_r = true \/ sizes out_r <> sizes in_r
            \/ cts.2 <> scalar_type out_r ->
          exists src,
            (out <> self -> src = cum_source cts.1 in_r)
            /\ data (tensor (out_state o) out) =
               if decide (cts.2 = scalar_type out_r)
               then DCum mode (static_cast_int d) src
               else DCast (scalar_type out_r)
                      (DCum mode (static_cast_int d) src))).
Proof.
  intros Hself Hout Hdt.
  exact (CumulativeOut_result self d dtype out mode st Hself Hout Hdt).
Qed.

End CumulativeResults.

(* ------------------------------------------------------------------ *)
(** ** Scalar types, guards and library runs *)
(* ------------------------------------------------------------------ *)

Section Cumulative.
Variable E : Env.

Lemma respects_CumulativeOut self d dtype out mode :
  respects same_meta (CumulativeOut E self d dtype out mode).
Proof. unfold CumulativeOut. frame. Qed.

Lemma respects_Cumulative_ self d dtype mode :
  respects same_meta (Cumulative_ E self d dtype mode).
Proof. unfold Cumulative_. frame. Qed.

Lemma respects_scalar_type {A} (m : M A) st t :
  respects same_meta m -> live st t ->
  scalar_type (tensor (out_state (m st)) t) = scalar_type (tensor st t).
Proof.
  intros Hm Hl. destruct (st_le_tensor _ _ _ t (Hm st) Hl) as (_ & H & _).
  done.
Qed.

(** C9: [CumulativeImpl] never changes the scalar type of [out]: when
    the library computes in a scalar type other than that of [out], the
    result is copied back into [out], converted to the scalar type [out]
    had; the scalar type of [out] is the same after [CumulativeImpl],
    [CumulativeOut] and [Cumulative_] as before.  What is copied back is
    the cumulative result of the library over the input in the scalar
    type the library computes in (over what [fill_] left when a 0-dim
    tensor is its own output). *)
Theorem cumulative_keeps_out_dtype out inp self d dtype mode st :
  live st out ->
  scalar_type (tensor (out_state (CumulativeImpl E out inp d mode st)) out)
    = scalar_type (tensor st out)
  /\ scalar_type
       (tensor (out_state (CumulativeOut E self d dtype out mode st)) out)
     = scalar_type (tensor st out)
  /\ scalar_type
       (tensor (out_state (Cumulative_ E out d dtype mode st)) out)
     = scalar_type (tensor st out)
  /\ (live st inp -> numel (tensor st inp) <> 0 ->
      out_result (CumulativeImpl E out inp d mode st) = Ok tt ->
      (cumulative_ctypes E (scalar_type (tensor st inp))
         (scalar_type (tensor st out))).2 <> scalar_type (tensor st out) ->
      exists src,
        (dim (tensor st inp) <> 0 \/ out <> inp ->
         src = cum_source
                 (cumulative_ctypes E (scalar_type (tensor st inp))
                    (scalar_type (tensor st out))).1 (tensor st inp))
        /\ data (tensor (out_state (CumulativeImpl E out inp d mode st)) out)
           = DCast (scalar_type (tensor st out))
                   (DCum mode (static_cast_int d) src)).
Proof.
  intros Hl. split; [|split; [|split]].
  - apply respects_scalar_type; [|done].
    apply respects_CumulativeImpl; [apply _|apply same_meta_set_data].
  - apply respects_scalar_type; [|done]. apply respects_CumulativeOut.
  - apply respects_scalar_type; [|done]. apply respects_Cumulative_.
  - intros Hi Hne Hrun Hct.
    destruct (CumulativeImpl_result E out inp d mode st Hl Hi) as [_ H].
    destruct (H Hrun Hne) as (src & Hsrc & HA & _). exists src.
    split; [exact Hsrc|by apply HA].
Qed.

(** C5: every operator that calls the primitive library first switches,
    by a device guard, to the device of its input tensor: each library
    call of its record, the creation of a tensor handle and the run entry
    point alike, is made under that device and after the guard. *)
Theorem library_calls_are_guarded op st :
  live st (op_self op) ->
  guarded (device (tensor st (op_self op))) (out_trace (exec E op st)).
Proof. intros Hl. by destruct (exec_trace E op st Hl) as [H _]. Qed.

End Cumulative.


(* ------------------------------------------------------------------ *)
(** ** The store and the devices after an operator *)
(* ------------------------------------------------------------------ *)

Section OperatorFrame.
Variable E : Env.


(** X4: [Cumulative] ([CumSum], [CumProd]) returns a new tensor with the
    sizes of [self], whose scalar type is [dtype] when given and otherwise
    that of [self], Long for an integral [self]; it returns when the
    library succeeds. *)
Theorem Cumulative_result self d dtype mode st :
  live st self ->
  let o := Cumulative E self d dtype mode st in
  let in_dtype := scalar_type (tensor st self) in
  (lib_succeeds E -> exists out, out_result o = Ok out)
  /\ (forall out, out_result o = Ok out ->
      ~ live st out
      /\ sizes (tensor (out_state o) out) = sizes (tensor st self)
      /\ scalar_type (tensor (out_state o) out) =
         default (if isIntegralType in_dtype true then Long else in_dtype)
                 dtype).
Proof.
  intros Hl o in_dtype. subst o. unfold Cumulative.
  change (wp
    (self_r ← get self;
     out ← at_empty (sizes self_r) (device self_r)
             (default (if isIntegralType (scalar_type self_r) true
                       then Long else scalar_type self_r) dtype);
     CumulativeImpl E out self d mode;; mret out) st
    (fun r st' _ =>
       (lib_succeeds E -> exists out, r = Ok out)
       /\ (forall out, r = Ok out ->
           ~ live st out
           /\ sizes (tensor st' out) = sizes (tensor st self)
           /\ scalar_type (tensor st' out) =
              default (if isIntegralType in_dtype true then Long
                       else in_dtype) dtype))).
  wp_to_run.
  eapply wp_wand;
    [ apply wp_conj;
      [ apply CumulativeImpl_result; heap_len
      | apply (wp_respects same_shape);
        [ apply respects_CumulativeImpl; [apply _|apply same_shape_set_data]
        | intros ? ? ? H; exact H ] ]
    | ].
  cbv beta zeta. intros [[]|e'] st1 ? [[Htot Hres] Hle].
  - apply wp_ret. split; [eauto|]. intros out [= <-].
    destruct (st_le_tensor _ _ _ (length (heap st)) Hle)
      as ((_ & Hdt & _) & Hsz & _); [heap_len|].
    heap_simpl. cbn [sizes scalar_type] in *.
    split; [lia|]. by split.
  - split; [intros Hlib; by specialize (Htot Hlib)|intros; discriminate].
Qed.

(** X5: the values of [ReductionIndices] have the scalar type of [self],
    its indices are Long; the result of [Reduction] has the scalar type
    that [musa_infer_dtype_from_optional] infers without a result
    tensor. *)
Theorem reduction_result_dtypes self dims d keepdim dt m p is_norm st :
  live st self ->
  (forall out st' tr,
     Reduction E self dims keepdim dt m p is_norm st = (Ok out, st', tr) ->
     scalar_type (tensor st' out) =
       reduction_dtype_rule (scalar_type (tensor st self)) dt None)
  /\ (forall values indices st' tr,
        ReductionIndices E self d keepdim m st
          = (Ok (values, indices), st', tr) ->
        scalar_type (tensor st' values) = scalar_type (tensor st self)
        /\ scalar_type (tensor st' indices) = Long).
Proof.
  intros Hl. split.
  - intros out st' tr Hrun.
    pose proof (wp_run _ _ _ _ _ _
      (Reduction_result E self dims keepdim dt m p is_norm st Hl) Hrun) as H.
    destruct (H _ eq_refl) as (dv & shape & _ & _ & _ & _ & Hdt).
    rewrite Hdt. unfold musa_infer_dtype_from_optional,
      musa_get_dtype_from_self, reduction_dtype_rule. simpl.
    by destruct dt.
  - intros v i st' tr Hrun.
    pose proof (wp_run _ _ _ _ _ _
      (ReductionIndices_result E self d keepdim m st Hl) Hrun) as H.
    destruct (H _ _ eq_refl) as (w & dv & shape & _ & _ & _ & _ & _ & Hv & Hi).
    by split.
Qed.

End OperatorFrame.

Lemma with_device_guard_device {A} d (body : R A) rt :
  rt_device (with_device_guard d body rt).2 = rt_device rt.
Proof. unfold with_device_guard. by destruct (body _). Qed.

Section StreamGuards.
Variable RT : Runtime.

(** X6: [synchronize] returns exactly when the runtime reports success
    for the stream and raises otherwise; [query], [synchronize] and
    [priority] ask the runtime under the device of the stream and leave
    the current device as it was. *)
Theorem stream_calls_restore_device (s : MUSAStream) (rt : RuntimeState) :
  let e := streamSynchronize RT s
             (mkRuntime (stream_device (stream_ s)) (rt_last_error rt)) in
  ((synchronize RT s rt).1 = Ok tt <-> e = musaSuccess)
  /\ (e <> musaSuccess -> exists msg, (synchronize RT s rt).1 = Err msg)
  /\ rt_device (synchronize RT s rt).2 = rt_device rt
  /\ rt_device (query RT s rt).2 = rt_device rt
  /\ rt_device (priority RT s rt).2 = rt_device rt.
Proof.
  intros e. split; [|split; [|split; [|split]]].
  - unfold synchronize, with_device_guard, musaStreamSynchronize, mbind,
      R_bind, TORCH_MUSA_CHECK, R_raise, mret, R_ret. fold e.
    destruct e; simpl; split; done.
  - unfold synchronize, with_device_guard, musaStreamSynchronize, mbind,
      R_bind, TORCH_MUSA_CHECK, R_raise, mret, R_ret. fold e.
    destruct e; simpl; intros; [done|eauto|eauto].
  - apply with_device_guard_device.
  - apply with_device_guard_device.
  - apply with_device_guard_device.
Qed.

End StreamGuards.

Lemma Cumulative_result_witness :
  exists out, out_result (CumSum E_ok 0%nat 1 None (st1 Int)) = Ok out.
Proof.
  destruct (Cumulative_result E_ok 0%nat 1 None CUM_ADD (st1 Int)) as [H _].
  - unfold live. simpl. lia.
  - apply H. intros c. reflexivity.
Defined.

Lemma reduction_result_dtypes_witness :
  scalar_type
    (tensor (out_state (Reduction E_ok 0%nat [] false None ADD None false
                          (st1 Int)))
            1%nat) = Long.
Proof.
  destruct (reduction_result_dtypes E_ok 0%nat [] 0 false None ADD None false
              (st1 Int)) as [H _].
  - unfold live. simpl. lia.
  - apply (H 1%nat _ _ eq_refl).
Defined.

(* ------------------------------------------------------------------ *)
(** ** Concrete runs *)
(* ------------------------------------------------------------------ *)

Lemma priority_and_priority_range_witness :
  (priority RT_ok stream0 rt0).1 = Ok 0
  /\ (priority_range RT_ok rt0).1 = Ok (0, -1).
Proof.
  destruct (priority_and_priority_range RT_ok stream0 rt0 1 musaSuccess 1 0)
    as (_ & H1 & _ & _ & H2).
  - reflexivity.
  - lia.
  - reflexivity.
  - split; [by apply H1|apply H2; [reflexivity|lia|lia]].
Defined.

(** C4 at an [out] that is not contiguous and has the sizes and the
    scalar type asked for: [CumSumOut] returns [out], the library has run,
    and the result is in the contiguous copy (handle 2) that the library
    was given; [out] holds what it held before. *)
Theorem CumSumOut_noncontiguous_out_unfilled :
  let o := CumSumOut E_ok 0%nat 1 None 1%nat st2 in
  out_result o = Ok 1%nat
  /\ Exists (fun ev => is_lib_run ev = true) (out_trace o)
  /\ sizes (tensor (out_state o) 1%nat) = sizes (tensor st2 0%nat)
  /\ data (tensor (out_state o) 1%nat) = data (tensor st2 1%nat)
  /\ data (tensor (out_state o) 2%nat) = DCum CUM_ADD 1 (DInput 0).
Proof.
  vm_compute. split; [done|]. split; [|done].
  repeat first [ by apply Exists_cons_hd | apply Exists_cons_tl ].
Qed.

Lemma Reduction_shape_witness :
  exists out st' tr,
    Reduction E_ok 0%nat [-1] true None ADD None false (st1 Float)
      = (Ok out, st', tr)
    /\ sizes (tensor st' out) = [2; 1].
Proof.
  destruct (Reduction_shape E_ok 0%nat [-1] (-1) true None ADD None false
              (st1 Float)) as (Hs & _ & Ht & _).
  - unfold live. simpl. lia.
  - vm_compute. discriminate.
  - destruct Ht as (out & st' & tr & Hrun).
    + intros c. reflexivity.
    + discriminate.
    + split; [|split].
      * constructor; [|constructor]. vm_compute.
        split; [discriminate|reflexivity].
      * apply NoDup_singleton.
      * intros _. vm_compute. discriminate.
    + exists out, st', tr. split; [done|]. by rewrite (Hs _ _ _ Hrun).
Defined.

Lemma cumulative_keeps_out_dtype_witness :
  let o := CumulativeImpl E_ok 0%nat 0%nat 1 CUM_ADD (st1 Byte) in
  scalar_type (tensor (out_state o) 0%nat) = Byte
  /\ data (tensor (out_state o) 0%nat)
     = DCast Byte (DCum CUM_ADD 1 (DCast Int (DInput 0))).
Proof.
  destruct (cumulative_keeps_out_dtype E_ok 0%nat 0%nat 0%nat 1 None CUM_ADD
              (st1 Byte) ltac:(unfold live; simpl; lia))
    as (H1 & _ & _ & H4).
  split; [exact H1|].
  destruct H4 as (src & Hsrc & Hdata).
  - unfold live. simpl. lia.
  - vm_compute. discriminate.
  - reflexivity.
  - vm_compute. discriminate.
  - rewrite Hdata, Hsrc; [reflexivity|]. left. vm_compute. discriminate.
Defined.

Lemma library_calls_are_guarded_witness :
  guarded musa0 (out_trace (exec E_ok (OpSum 0%nat None) (st1 Float))).
Proof.
  apply (library_calls_are_guarded E_ok (OpSum 0%nat None) (st1 Float)).
  unfold live. simpl. lia.
Defined.

Lemma CumulativeOut_rejects_dtype_mismatch_witness :
  exists msg,
    CumulativeOut E_ok 0%nat 1 (Some Double) 1%nat CUM_ADD st2
    = (Err msg, st2, []).
Proof.
  apply (CumulativeOut_rejects_dtype_mismatch E_ok 0%nat 1 Double 1%nat
           CUM_ADD st2).
  vm_compute. discriminate.
Defined.

Lemma CumulativeOut_resizes_and_fills_witness :
  out_result (CumulativeOut E_ok 0%nat 1 None 0%nat CUM_MUL (st1 Float))
    = Ok 0%nat.
Proof.
  destruct (CumulativeOut_resizes_and_fills E_ok 0%nat 1 None 0%nat CUM_MUL
              (st1 Float)) as [H _].
  - unfold live. simpl. lia.
  - unfold live. simpl. lia.
  - by left.
  - apply H. intros c. reflexivity.
Defined.

(* ------------------------------------------------------------------ *)
(** ** What the reductions leave in their results *)
(* ------------------------------------------------------------------ *)

Lemma look_alter_eq h f t :
  (t < length h)%nat -> look (alter f t h) t = f (look h t).
Proof. intros. rewrite look_alter. by rewrite decide_True. Qed.

Lemma look_alter_ne h f t t' : t <> t' -> look (alter f t h) t' = look h t'.
Proof. intros. rewrite look_alter. rewrite decide_False; [done|tauto]. Qed.

Ltac neq_tac :=
  first [ assumption | apply not_eq_sym; assumption | lia ].

Ltac look_simpl :=
  repeat first
    [ rewrite look_alter_ne by neq_tac
    | rewrite look_alter_eq by (rewrite ?length_alter; lia) ];
  cbn [data set_data].

Ltac wp_to_contig :=
  repeat lazymatch goal with
         | |- wp (mbind _ (FormatContiguous _)) _ _ => fail
         | |- _ => wp_step
         end.

Section ReduceResults.
Variable E : Env.

Lemma ReduceCall_result output self dims m p is_norm st :
  live st output -> live st self ->
  wp (ReduceCall E output self dims m p is_norm) st (fun r st' tr =>
    r = Ok tt ->
    let self_r := tensor st self in
    (forall t, t <> output -> live st t -> tensor st' t = tensor st t)
    /\ (numel self_r = 0 ->
        heap st' = heap st /\ Forall (fun ev => is_lib ev = false) tr)
    /\ (numel self_r <> 0 ->
        data (tensor st' output) =
          DReduce m (run_dims self_r dims) (run_ord p is_norm) (data self_r))).
Proof.
  intros Ho Hs. unfold ReduceCall.
  wp_go.
  all: try (intros; discriminate).
  all: intros _; split; [intros t Hne Ht|split; [intros Hz|intros Hnz]];
    try congruence.
  all: repeat match goal with H : decide _ = _ |- _ => clear H end.
  all: try (heap_simpl;
            rewrite ?decide_False by (intros [? _]; congruence); reflexivity).
  1: { split; [done|]. simpl. repeat constructor. }
  all: unfold run_dims, run_ord, norm_ord_value; heap_simpl.
  all: rewrite ?decide_True by done; cbn [data set_data].
  all: repeat case_decide; try tauto.
  all: repeat match goal with
         | s : Scalar |- _ => destruct s; try discriminate
         end; try reflexivity.
  all: exfalso; match goal with
       | H : ~ (_ /\ _) |- _ => apply H; split; [done|lia]
       end.
Qed.

(** The dims [Reduction] hands to the library are the wrapped ones. *)
Lemma static_cast_int_wrapped dims n :
  n <= dim_bitset_size ->
  Forall (fun d => - Z.max n 1 <= d < Z.max n 1) dims ->
  static_cast_int <$> (wrap_of (Z.max n 1) <$> dims)
  = wrap_of (Z.max n 1) <$> dims.
Proof.
  intros Hn HF. rewrite <- list_fmap_compose.
  apply Forall_fmap_ext. eapply Forall_impl; [done|].
  intros d Hd. unfold compose, static_cast_int, wrap_of, dim_bitset_size in *.
  cbv beta in *. case_decide; rewrite Z.mod_small; lia.
Qed.

Lemma get_reduction_shape_bound self_r dims_vec keepdim shape :
  get_reduction_shape self_r dims_vec keepdim = Ok shape ->
  dims_vec <> [] -> dim self_r <= dim_bitset_size.
Proof.
  unfold get_reduction_shape, make_dim_mask, dim_list_to_bitset.
  destruct dims_vec; [done|]. intros H _.
  by destruct (decide (dim self_r <= dim_bitset_size)).
Qed.

Lemma Reduction_data self dims keepdim dt m p is_norm st :
  live st self ->
  wp (Reduction E self dims keepdim dt m p is_norm) st (fun r st' tr =>
    forall out, r = Ok out ->
    let self_r := tensor st self in
    ~ live st out
    /\ (forall t, live st t -> tensor st' t = tensor st t)
    /\ (numel self_r = 0 ->
        data (tensor st' out) = DZero
        /\ Forall (fun ev => is_lib ev = false) tr)
    /\ (numel self_r <> 0 ->
        data (tensor st' out) =
          DReduce m
            (if decide (dim self_r = 0 /\ numel self_r = 1) then []
             else wrap_of (Z.max (dim self_r) 1) <$> dims)
            (run_ord p is_norm) (data self_r))).
Proof.
  intros Hl. unfold Reduction. wp_to_run.
  all: try (intros; discriminate).
  - intros out [= <-]. split; [heap_len|]. split; [|split; [|done]].
    + intros t Ht. heap_simpl. rewrite decide_False by lia. done.
    + intros _. split; [|simpl; repeat constructor].
      heap_simpl. by rewrite decide_True by (split; [done|lia]).
  - eapply wp_wand; [apply ReduceCall_result; heap_len|].
    cbv beta zeta. intros [[]|e'] st1 tr1 Hres; [|intros; discriminate].
    apply wp_ret. intros out [= <-]. specialize (Hres eq_refl).
    destruct Hres as (Hfr & _ & Hd).
    assert (0 <= dim (tensor st self)) as Hn by (unfold dim; lia).
    destruct (maybe_wrap_dims_Ok _ _ _ Hn Heqr) as [HF ->].
    split; [heap_len|]. split; [|split; [done|]].
    + intros t Ht. unfold tensor, live in *. cbn [heap] in *.
      rewrite Hfr; [|lia|rewrite length_app; simpl; lia].
      by rewrite look_app_l.
    + intros _. unfold tensor, live in *. cbn [heap] in *.
      rewrite look_app_l in Hd by done. rewrite (Hd n). f_equal.
      unfold run_dims.
      match goal with |- context [decide ?P] => destruct (decide P) end;
        [done|].
      destruct dims as [|d0 dims0]; [done|].
      apply static_cast_int_wrapped; [|done].
      eapply get_reduction_shape_bound; [exact Heqr0|done].
Qed.

(** X7: [Reduction] returns a new tensor and leaves every tensor
    it was given as it was.  For an input without elements the result is
    zero-filled and the library is not called; otherwise the result is what
    the library's run computes from the input, in mode [m], along the
    wrapped dims (no dims for a 0-dim input), with the order of the norm
    when one is asked for. *)
Theorem Reduction_output self dims keepdim dt m p is_norm st out st' tr :
  live st self ->
  Reduction E self dims keepdim dt m p is_norm st = (Ok out, st', tr) ->
  let self_r := tensor st self in
  ~ live st out
  /\ (forall t, live st t -> tensor st' t = tensor st t)
  /\ (numel self_r = 0 ->
      data (tensor st' out) = DZero
      /\ Forall (fun ev => is_lib ev = false) tr)
  /\ (numel self_r <> 0 ->
      data (tensor st' out) =
        DReduce m
          (if decide (dim self_r = 0 /\ numel self_r = 1) then []
           else wrap_of (Z.max (dim self_r) 1) <$> dims)
          (run_ord p is_norm) (data self_r)).
Proof.
  intros Hl Hrun.
  exact (wp_run _ _ _ _ _ _
           (Reduction_data self dims keepdim dt m p is_norm st Hl) Hrun
           out eq_refl).
Qed.

Lemma ReduceIndicesCall_result output indices self d m st :
  live st output -> live st indices -> live st self ->
  output <> indices ->
  wp (ReduceIndicesCall E output indices self d m) st (fun r st' tr =>
    (scalar_type (tensor st self) <> scalar_type (tensor st output) ->
     exists msg, r = Err msg /\ st' = st /\ tr = [])
    /\ (r = Ok tt ->
        data (tensor st' output) =
          DReduceValues m (static_cast_int d) (data (tensor st self))
        /\ data (tensor st' indices) =
           DReduceIndices m (static_cast_int d) (data (tensor st self))
        /\ (forall t, t <> output -> t <> indices -> live st t ->
            tensor st' t = tensor st t))).
Proof.
  intros Ho Hi Hs Hne. unfold ReduceIndicesCall.
  wp_to_contig.
  2: { split; [intros _; eauto|intros; discriminate]. }
  apply bool_decide_eq_true in Heqb.
  apply wp_bind. eapply wp_wand; [by apply FormatContiguous_spec|]. cbv beta.
  intros ? st1 tr1 (Hle1 & out_tmp & -> & Hl1 & Ht1 & _ & Hc1 & Hf1).
  destruct (st_le_eq_tensor _ _ _ Hle1 Hi) as [Hi1 Hli1].
  destruct (st_le_eq_tensor _ _ _ Hle1 Ho) as [Ho1 Hlo1].
  destruct (st_le_eq_tensor _ _ _ Hle1 Hs) as [Hs1 Hls1].
  apply wp_bind. eapply wp_wand; [by apply FormatContiguous_spec|]. cbv beta.
  intros ? st2 tr2 (Hle2 & ids_tmp & -> & Hl2 & Ht2 & _ & Hc2 & Hf2).
  destruct (st_le_eq_tensor _ _ _ Hle2 Hli1) as [Hi2 Hli2].
  destruct (st_le_eq_tensor _ _ _ Hle2 Hlo1) as [Ho2 Hlo2].
  destruct (st_le_eq_tensor _ _ _ Hle2 Hls1) as [Hs2 Hls2].
  destruct (st_le_eq_tensor _ _ _ Hle2 Hl1) as [Hot2 Hlot2].
  pose proof (st_le_length _ _ _ Hle1) as Hlen1.
  unfold tensor, live in *. cbn [heap] in *.
  assert (out_tmp <> ids_tmp) as Hti.
  { destruct (is_contiguous (look (heap st) output));
      destruct (is_contiguous (look (heap st1) indices));
      rewrite ?(Hc1 eq_refl), ?(Hf1 eq_refl), ?(Hc2 eq_refl), ?(Hf2 eq_refl)
        in *; lia. }
  assert (out_tmp = output \/ (length (heap st) <= out_tmp)%nat) as Hot
    by (destruct (is_contiguous (look (heap st) output));
        [left; by apply Hc1|right; rewrite Hf1 by done; lia]).
  assert (ids_tmp = indices \/ (length (heap st) <= ids_tmp)%nat) as Hit
    by (destruct (is_contiguous (look (heap st1) indices));
        [left; by apply Hc2|right; rewrite Hf2 by done; lia]).
  clear Hc1 Hf1 Hc2 Hf2.
  assert (scalar_type (look (heap st2) out_tmp)
          = scalar_type (look (heap st2) output)) as Hty1 by congruence.
  assert (scalar_type (look (heap st2) ids_tmp)
          = scalar_type (look (heap st2) indices)) as Hty2 by congruence.
  assert (data (look (heap st2) self) = data (look (heap st) self)) as Hds
    by congruence.
  assert (forall t, (t < length (heap st))%nat ->
            look (heap st2) t = look (heap st) t) as Hold.
  { intros t Ht. rewrite Ho2 || idtac.
    transitivity (look (heap st1) t).
    - destruct Hle2 as (_ & H2 & _). symmetry. apply H2. unfold live. lia.
    - destruct Hle1 as (_ & H1 & _). symmetry. by apply H1. }
  clear Hle1 Hle2.
  wp_go.
  all: repeat match goal with H : decide _ = _ |- _ => clear H end.
  all: split; [intros Hdt; congruence|intros Hr; try discriminate].
  all: unfold tensor; cbn [heap].
  all: rewrite ?scalar_type_look_alter_set_data.
  all: rewrite ?decide_True by done.
  all: destruct Hot as [->|Hot]; destruct Hit as [->|Hit]; try done.
  all: try (exfalso;
            match goal with
            | H : ~ (?a <> ?b) |- _ =>
                destruct (decide (a = b)); [lia|done]
            end).
  all: split; [|split; [|intros t Hto Htii Ht]].
  all: look_simpl; rewrite ?Hds; try done.
  all: by apply Hold.
Qed.


(** X9: [ReduceIndicesCall] raises at once when [self] and [output]
    differ in scalar type: the store is as it was and nothing, not even
    the device guard, has been called. *)
Theorem ReduceIndicesCall_rejects_dtype_mismatch output indices self d m st :
  scalar_type (tensor st self) <> scalar_type (tensor st output) ->
  exists msg,
    ReduceIndicesCall E output indices self d m st = (Err msg, st, []).
Proof.
  intros Hne. unfold ReduceIndicesCall. eexists.
  unfold mbind, M_bind, get, TORCH_CHECK. simpl.
  rewrite bool_decide_eq_false_2 by done. reflexivity.
Qed.

Lemma ReductionIndices_data self d keepdim m st :
  live st self ->
  wp (ReductionIndices E self d keepdim m) st (fun r st' tr =>
    forall values indices, r = Ok (values, indices) ->
    let self_r := tensor st self in
    let w := wrap_of (Z.max (dim self_r) 1) d in
    data (tensor st' values) = DReduceValues m w (data self_r)
    /\ data (tensor st' indices) = DReduceIndices m w (data self_r)
    /\ values <> indices /\ ~ live st values /\ ~ live st indices
    /\ (forall t, live st t -> tensor st' t = tensor st t)).
Proof.
  intros Hl. unfold ReductionIndices. wp_to_contig.
  all: try (intros; discriminate).
  eapply wp_wand; [apply ReduceIndicesCall_result; heap_len|].
  cbv beta zeta. intros [[]|e'] st1 tr1 [_ Hres]; [|intros; discriminate].
  apply wp_ret. intros v i [= <- <-]. specialize (Hres eq_refl).
  destruct Hres as (Hv & Hi & Hfr).
  assert (0 <= dim (tensor st self)) as Hn by (unfold dim; lia).
  apply maybe_wrap_dim_Ok in Heqr as [Hd ->]; [|done].
  assert (static_cast_int (wrap_of (Z.max (dim (tensor st self)) 1) d)
          = wrap_of (Z.max (dim (tensor st self)) 1) d) as Hw.
  { pose proof (get_reduction_shape_bound _ _ _ _ Heqr1) as Hb.
    destruct (maybe_wrap_dims_Ok _ _ _ Hn Heqr0) as [_ Ha0].
    assert (a0 <> []) as Hne0 by (by rewrite Ha0).
    specialize (Hb Hne0). unfold static_cast_int, wrap_of, dim_bitset_size in *.
    case_decide; rewrite Z.mod_small; lia. }
  rewrite Hw in *.
  unfold tensor, live in *. cbn [heap] in *.
  rewrite !length_app in *. cbn [length] in *.
  rewrite !look_app_l in Hv, Hi by (rewrite ?length_app; simpl; lia).
  split; [done|]. split; [done|]. split; [lia|]. split; [lia|].
  split; [lia|]. intros t Ht. rewrite Hfr by lia.
  by rewrite !look_app_l by (rewrite ?length_app; simpl; lia).
Qed.

(** X10: [ReductionIndices] returns two new, distinct tensors, the
    values and the indices the library computed from [self] along the
    wrapped dim, and leaves every tensor it was given as it was. *)
Theorem ReductionIndices_output self d keepdim m st values indices st' tr :
  live st self ->
  ReductionIndices E self d keepdim m st = (Ok (values, indices), st', tr) ->
  let self_r := tensor st self in
  let w := wrap_of (Z.max (dim self_r) 1) d in
  data (tensor st' values) = DReduceValues m w (data self_r)
  /\ data (tensor st' indices) = DReduceIndices m w (data self_r)
  /\ values <> indices /\ ~ live st values /\ ~ live st indices
  /\ (forall t, live st t -> tensor st' t = tensor st t).
Proof.
  intros Hl Hrun.
  exact (wp_run _ _ _ _ _ _ (ReductionIndices_data self d keepdim m st Hl)
           Hrun values indices eq_refl).
Qed.

End ReduceResults.

(* ------------------------------------------------------------------ *)
(** ** Arg-min and arg-max *)
(* ------------------------------------------------------------------ *)

Ltac find_in :=
  lazymatch goal with
  | |- In _ (_ ++ _) => apply in_or_app; first [ left; find_in | right; find_in ]
  | |- In _ (_ :: _) => first [ left; reflexivity | right; find_in ]
  end.

Section ArgResults.
Variable E : Env.

Lemma ReduceIndicesOnlyCall_result output self d m st :
  live st output -> live st self ->
  wp (ReduceIndicesOnlyCall E output self d m) st (fun r st' tr =>
    r = Ok tt ->
    data (tensor st' output) =
      DReduceIndices m (static_cast_int d) (data (tensor st self))
    /\ (forall t, t <> output -> live st t -> tensor st' t = tensor st t)
    /\ exists out_h dev, In (EvLib (LReduce_RunIndices out_h self) dev) tr).
Proof.
  intros Ho Hs. unfold ReduceIndicesOnlyCall.
  wp_to_contig.
  apply wp_bind. eapply wp_wand; [by apply FormatContiguous_spec|]. cbv beta.
  intros ? st1 tr1 (Hle1 & out_tmp & -> & Hl1 & Ht1 & _ & Hc1 & Hf1).
  destruct (st_le_eq_tensor _ _ _ Hle1 Ho) as [Ho1 Hlo1].
  destruct (st_le_eq_tensor _ _ _ Hle1 Hs) as [Hs1 Hls1].
  unfold tensor, live in *. cbn [heap] in *.
  assert (out_tmp = output \/ (length (heap st) <= out_tmp)%nat) as Hot
    by (destruct (is_contiguous (look (heap st) output));
        [left; by apply Hc1|right; rewrite Hf1 by done; lia]).
  assert (scalar_type (look (heap st1) out_tmp)
          = scalar_type (look (heap st1) output)) as Hty1 by congruence.
  assert (forall t, (t < length (heap st))%nat ->
            look (heap st1) t = look (heap st) t) as Hold.
  { intros t Ht. destruct Hle1 as (_ & H1 & _). symmetry. by apply H1. }
  clear Hc1 Hf1 Hle1.
  wp_go.
  all: repeat match goal with H : decide _ = _ |- _ => clear H end.
  all: intros Hr; try discriminate.
  all: unfold tensor; cbn [heap].
  all: rewrite ?scalar_type_look_alter_set_data.
  all: rewrite ?decide_True by done.
  all: destruct Hot as [->|Hot]; try done.
  all: try (exfalso;
            match goal with
            | H : ~ (?a <> ?b) |- _ =>
                destruct (decide (a = b)); [lia|done]
            end).
  all: split; [|split; [intros t Hto Ht|eexists _, _; find_in]].
  all: look_simpl; rewrite ?Hs1; try done.
  all: by apply Hold.
Qed.

Lemma ArgMinOrMaxOutTemplate_result self d result m st :
  live st self -> live st result ->
  wp (ArgMinOrMaxOutTemplate E self d result m) st (fun r st' tr =>
    r = Ok tt ->
    data (tensor st' result) =
      DReduceIndices m (static_cast_int (arg_dim (tensor st self) d))
        (data (tensor st self))
    /\ sizes (tensor st' result) = sizes (tensor st result)
    /\ scalar_type (tensor st' result) = scalar_type (tensor st result)
    /\ (forall t, t <> result -> live st t -> tensor st' t = tensor st t)
    /\ exists inp out_h dev,
         In (EvLib (LReduce_RunIndices out_h inp) dev) tr
         /\ sizes (tensor st' inp) = arg_input_sizes (tensor st self) d
         /\ (forall v, d = Some v -> inp = self)).
Proof.
  intros Hs Hr. unfold ArgMinOrMaxOutTemplate. wp_to_contig.
  all: try (intros; discriminate).
  all: eapply wp_wand;
    [ apply wp_conj;
      [ apply ReduceIndicesOnlyCall_result; heap_len
      | apply (wp_respects same_shape);
        [ apply respects_ReduceIndicesOnlyCall;
          [apply _|apply same_shape_set_data]
        | intros ? ? ? H; exact H ] ]
    | ].
  all: cbv beta zeta; intros [[]|e'] st1 ? [Hres Hle];
    [|intros; discriminate].
  all: intros _; destruct (Hres eq_refl) as (Hd & Hfr & out_h & dev & Hin).
  all: destruct (st_le_tensor _ _ _ result Hle) as ((_ & Hdt & _) & Hsz & _);
    [heap_len|].
  all: match type of Hin with
       | In (EvLib (LReduce_RunIndices _ ?i) _) _ =>
           destruct (st_le_tensor _ _ _ i Hle) as (_ & Hszi & _);
           [heap_len|]
       end.
  all: unfold tensor, live, arg_dim, arg_input_sizes in *; cbn [heap] in *.
  all: try (apply maybe_wrap_dim_Ok in Heqr as [_ ->]; [|unfold dim; lia]).
  all: rewrite ?length_app in *; cbn [length] in *.
  all: rewrite ?look_app_new, ?look_app_l in * by lia;
    cbn [data sizes] in *.
  all: split; [done|]; split; [done|]; split; [done|].
  all: split;
    [ intros t Hne Ht; rewrite Hfr by lia; try done;
      by rewrite look_app_l by lia
    | ].
  all: match type of Hin with
       | In (EvLib (LReduce_RunIndices _ ?i) _) _ => exists i, out_h, dev
       end.
  all: split; [simpl; tauto|]; split; [|intros; congruence].
  all: rewrite <- Hszi; try reflexivity.
  unfold dim, numel in *.
  destruct (sizes (look (heap st) self)) as [|x [|y l]]; simpl in *;
    try lia.
  f_equal. lia.
Qed.

(** X11: [argmax_out_musa] and [argmin_out_musa] write into [result]
    the indices the library computes in mode MAX, respectively MIN, along
    the wrapped dim of [self], or along dim 0 of the flattened input when
    no dim is given: the tensor the run is given is [self] itself in the
    first case and in the second one whose only size is the number of
    elements of [self].  [keepdim] is not looked at and [result] keeps
    its sizes and its scalar type. *)
Theorem argmax_argmin_result self d keepdim result st st' tr :
  live st self -> live st result ->
  (argmax_out_musa E self d keepdim result st = (Ok tt, st', tr) ->
   data (tensor st' result) =
     DReduceIndices MAX (static_cast_int (arg_dim (tensor st self) d))
       (data (tensor st self))
   /\ sizes (tensor st' result) = sizes (tensor st result)
   /\ scalar_type (tensor st' result) = scalar_type (tensor st result)
   /\ exists inp out_h dev,
        In (EvLib (LReduce_RunIndices out_h inp) dev) tr
        /\ sizes (tensor st' inp) = arg_input_sizes (tensor st self) d
        /\ (forall v, d = Some v -> inp = self))
  /\ (argmin_out_musa E self d keepdim result st = (Ok tt, st', tr) ->
      data (tensor st' result) =
        DReduceIndices MIN (static_cast_int (arg_dim (tensor st self) d))
          (data (tensor st self))
      /\ sizes (tensor st' result) = sizes (tensor st result)
      /\ scalar_type (tensor st' result) = scalar_type (tensor st result)
      /\ exists inp out_h dev,
           In (EvLib (LReduce_RunIndices out_h inp) dev) tr
           /\ sizes (tensor st' inp) = arg_input_sizes (tensor st self) d
           /\ (forall v, d = Some v -> inp = self)).
Proof.
  intros Hs Hr. split; intros Hrun.
  - destruct (wp_run _ _ _ _ _ _
      (ArgMinOrMaxOutTemplate_result self d result MAX st Hs Hr) Hrun eq_refl)
      as (? & ? & ? & _ & ?). done.
  - destruct (wp_run _ _ _ _ _ _
      (ArgMinOrMaxOutTemplate_result self d result MIN st Hs Hr) Hrun eq_refl)
      as (? & ? & ? & _ & ?). done.
Qed.

End ArgResults.

(* ------------------------------------------------------------------ *)
(** ** Norms *)
(* ------------------------------------------------------------------ *)

Section NormResults.
Variable E : Env.



End NormResults.

(* ------------------------------------------------------------------ *)
(** ** Edges: empty inputs, shapes, the host framework *)
(* ------------------------------------------------------------------ *)

Section OperatorEdges.
Variable E : Env.

(** X13: for an input without elements [ReduceCall] and
    [CumulativeImpl] return at once: the store is as it was and the library
    is not called ([ReduceCall] has taken the device guard,
    [CumulativeImpl] has propagated the names). *)
Theorem empty_input_returns_early output self dims m p is_norm d mode st :
  numel (tensor st self) = 0 ->
  ReduceCall E output self dims m p is_norm st
    = (Ok tt, st, [EvGuard (device (tensor st self))])
  /\ CumulativeImpl E output self d mode st
     = (Ok tt, st, [EvHost (Hpropagate_names output self)]).
Proof.
  intros Hz. destruct st as [h cur]. split.
  - unfold ReduceCall, mbind, M_bind, get, with_guard. simpl.
    unfold tensor in Hz. simpl in Hz. by rewrite decide_True by done.
  - unfold CumulativeImpl, mbind, M_bind, get, propagate_names, emit. simpl.
    unfold tensor in Hz. simpl in Hz. by rewrite decide_True by done.
Qed.

Lemma respects_same_shape_exec op :
  resizes op = false -> respects same_shape (exec E op).
Proof.
  destruct op; intros Hr; try discriminate Hr; unfold exec, one, pair, none.
  all: repeat progress unfold Mean, MeanDim, MeanOut, MeanNamesDim,
    MeanNamesDimOut, Sum, SumDimnameList, SumDimnameListOut,
    SumIntList, Prod, ProdIntOut, NormDtypeOut, NormOut, CumSum, CumSum_,
    CumProd, CumProd_, Cumulative, Cumulative_,
    Any, AnyOut, AnyDim, AnyDimOut, MaxAll, MaxDim,
    MaxNamesDim, MaxNamesDimMax, All, AllDim, AllDimOut, argmax_out_musa,
    argmin_out_musa, ArgMinOrMaxOutTemplate, MinAll, MinDim, MinDimMin,
    MinNamesDim, MinNamesDimMin, VarMeanCorrection, VarCorrection,
    MaxAllCall, MinAllCall, with_optional_guard,
    at_reduce_all, to_musa, bool_or_01, bool_byte_or_01.
  all: frame.
Qed.

(** X14: apart from [SumIntListOut], [CumSumOut], [CumProdOut],
    [MaxDimMax] and [VarOutCorrection], no operator changes the sizes or
    the contiguity of a tensor it is given, whatever its outcome. *)
Theorem only_resizing_operators_change_shapes op st t :
  resizes op = false -> live st t ->
  sizes (tensor (out_state (exec E op st)) t) = sizes (tensor st t)
  /\ is_contiguous (tensor (out_state (exec E op st)) t)
     = is_contiguous (tensor st t).
Proof.
  intros Hr Hl.
  destruct (respects_same_shape_exec op Hr st) as (_ & Ht & _).
  destruct (Ht t Hl) as (_ & Hsz & Hc). by split.
Qed.

(** X15: the operators handed to the host framework ([MaxAll] and
    [MinAll] of a Double tensor, and the variance operators) make no call
    into the primitive library at all. *)
Theorem host_delegated_makes_no_library_call op st :
  host_delegated op st = true ->
  Forall (fun ev => is_lib ev = false) (out_trace (exec E op st)).
Proof.
  intros Hd.
  change (wp (exec E op) st (fun _ _ tr =>
            Forall (fun ev => is_lib ev = false) tr)).
  destruct op; try discriminate Hd; unfold exec, one, pair, none.
  all: try apply bool_decide_eq_true in Hd.
  all: repeat progress unfold MaxAll, MinAll, VarMeanCorrection,
         VarCorrection, VarOutCorrection.
  all: repeat (wp_step; try (exfalso; congruence)).
  all: simpl; repeat constructor.
Qed.

End OperatorEdges.

(* ------------------------------------------------------------------ *)
(** ** Gates and out variants *)
(* ------------------------------------------------------------------ *)

Section Gates.
Variable E : Env.

Lemma bool_or_01_spec self st :
  wp (bool_or_01 E self) st (fun r st' tr =>
    r = Ok true ->
    scalar_type (tensor st self) = Bool \/ item_is_01 E (tensor st self)).
Proof.
  unfold bool_or_01, item_is_01. wp_go; intros Hr; try discriminate.
  - by left.
  - right. left. congruence.
  - right. right. injection Hr as Hr. apply bool_decide_eq_true in Hr.
    congruence.
Qed.

Lemma bool_byte_or_01_spec self st :
  wp (bool_byte_or_01 E self) st (fun r st' tr =>
    r = Ok true ->
    scalar_type (tensor st self) = Bool \/ scalar_type (tensor st self) = Byte
    \/ item_is_01 E (tensor st self)).
Proof.
  unfold bool_byte_or_01, item_is_01. wp_go; intros Hr; try discriminate.
  - by left.
  - right. by left.
  - right. right. left. congruence.
  - right. right. right. injection Hr as Hr.
    apply bool_decide_eq_true in Hr. congruence.
Qed.

Ltac gate spec :=
  apply wp_bind; eapply wp_wand; [apply spec|];
  cbv beta; intros [[|]|?] ? ? Hc; cbv beta iota;
  [ unfold wp; intros ? _; by apply Hc
  | apply wp_bind, wp_raise; intros; discriminate
  | intros; discriminate ].

(** X16: [AnyDim] and [AnyDimOut] return only for a Bool input or
    an input whose [item<int>()] reads 0 or 1; [AllDim] and [AllDimOut]
    also for a Byte input.  Otherwise they raise. *)
Theorem dim_reductions_need_bool_or_01 self d keepdim out st :
  (forall t, out_result (AnyDim E self d keepdim st) = Ok t ->
     scalar_type (tensor st self) = Bool \/ item_is_01 E (tensor st self))
  /\ (forall t, out_result (AnyDimOut E self d keepdim out st) = Ok t ->
       scalar_type (tensor st self) = Bool \/ item_is_01 E (tensor st self))
  /\ (forall t, out_result (AllDim E self d keepdim st) = Ok t ->
       scalar_type (tensor st self) = Bool
       \/ scalar_type (tensor st self) = Byte
       \/ item_is_01 E (tensor st self))
  /\ (forall t, out_result (AllDimOut E self d keepdim out st) = Ok t ->
       scalar_type (tensor st self) = Bool
       \/ scalar_type (tensor st self) = Byte
       \/ item_is_01 E (tensor st self)).
Proof.
  split; [|split; [|split]].
  - change (wp (AnyDim E self d keepdim) st (fun r _ _ => forall t, r = Ok t ->
      scalar_type (tensor st self) = Bool \/ item_is_01 E (tensor st self))).
    unfold AnyDim. gate bool_or_01_spec.
  - change (wp (AnyDimOut E self d keepdim out) st (fun r _ _ =>
      forall t, r = Ok t ->
      scalar_type (tensor st self) = Bool \/ item_is_01 E (tensor st self))).
    unfold AnyDimOut. gate bool_or_01_spec.
  - change (wp (AllDim E self d keepdim) st (fun r _ _ => forall t, r = Ok t ->
      scalar_type (tensor st self) = Bool
      \/ scalar_type (tensor st self) = Byte
      \/ item_is_01 E (tensor st self))).
    unfold AllDim. gate bool_byte_or_01_spec.
  - change (wp (AllDimOut E self d keepdim out) st (fun r _ _ =>
      forall t, r = Ok t ->
      scalar_type (tensor st self) = Bool
      \/ scalar_type (tensor st self) = Byte
      \/ item_is_01 E (tensor st self))).
    unfold AllDimOut. gate bool_byte_or_01_spec.
Qed.

End Gates.

Section OutVariants.
Variable E : Env.

Lemma SumIntListOut_result self dims keepdim dt output st :
  live st self -> live st output -> output <> self ->
  dim (tensor st self) <= dim_bitset_size ->
  wp (SumIntListOut E self dims keepdim dt output) st (fun r st' tr =>
    forall t, r = Ok t ->
    let self_r := tensor st self in
    t = output
    /\ exists dl, dims = Some dl
       /\ sizes (tensor st' output) =
          reduction_shape_spec (is_reduced dl (dim self_r)) keepdim
            (sizes self_r)
       /\ (numel self_r <> 0 ->
           data (tensor st' output) =
             DReduce ADD (run_dims self_r dl) None (data self_r))).
Proof.
  intros Hs Ho Hne H64. unfold SumIntListOut. wp_to_contig.
  all: try (intros; discriminate).
  all: eapply wp_wand;
    [ apply wp_conj;
      [ apply ReduceCall_result; heap_len
      | apply (wp_respects same_shape);
        [ apply respects_ReduceCall; [apply _|apply same_shape_set_data]
        | intros ? ? ? H; exact H ] ]
    | ].
  all: cbv beta zeta; intros [[]|e'] st1 ? [Hres Hle];
    [|intros; discriminate].
  all: apply wp_ret; intros t [= <-]; split; [done|].
  all: destruct (Hres eq_refl) as (_ & _ & Hd).
  all: destruct (st_le_tensor _ _ _ output Hle) as (_ & Hsz & _); [heap_len|].
  all: exists l; split; [done|].
  all: unfold tensor, live, run_ord in *; cbn [heap] in *.
  all: rewrite ?look_alter_ne in Hd by done.
  all: rewrite ?look_alter_eq in Hsz by done; cbn [sizes set_sizes] in Hsz.
  all: split; [|exact Hd].
  all: rewrite <- ?Hsz, ?e.
  all: by eapply get_reduction_shape_spec.
Qed.

(** X17: [SumIntListOut] needs a dim list; it resizes [output] to the
    reduction shape of the wrapped dims, and for an input with elements
    [output] then holds the sum the library computed, run with the dims as
    the caller gave them. *)
Theorem SumIntListOut_output self dims keepdim dt output st t st' tr :
  live st self -> live st output -> output <> self ->
  dim (tensor st self) <= dim_bitset_size ->
  SumIntListOut E self dims keepdim dt output st = (Ok t, st', tr) ->
  let self_r := tensor st self in
  t = output
  /\ exists dl, dims = Some dl
     /\ sizes (tensor st' output) =
        reduction_shape_spec (is_reduced dl (dim self_r)) keepdim
          (sizes self_r)
     /\ (numel self_r <> 0 ->
         data (tensor st' output) =
           DReduce ADD (run_dims self_r dl) None (data self_r)).
Proof.
  intros Hs Ho Hne H64 Hrun.
  exact (wp_run _ _ _ _ _ _
           (SumIntListOut_result self dims keepdim dt output st Hs Ho Hne H64)
           Hrun t eq_refl).
Qed.

End OutVariants.

Lemma singleton_reduction_shape self_r d keepdim a a0 a1 :
  dim self_r <= dim_bitset_size ->
  maybe_wrap_dim d (dim self_r) = Ok a ->
  maybe_wrap_dims [a] (dim self_r) = Ok a0 ->
  get_reduction_shape self_r a0 keepdim = Ok a1 ->
  a = wrap_of (Z.max (dim self_r) 1) d
  /\ static_cast_int a = a
  /\ a1 = reduction_shape_spec (is_reduced [d] (dim self_r)) keepdim
            (sizes self_r).
Proof.
  intros H64 Hw Hws Hsh.
  assert (0 <= dim self_r) as Hn by (unfold dim; lia).
  apply maybe_wrap_dim_Ok in Hw as [Hd ->]; [|done].
  split; [done|]. split.
  - unfold static_cast_int, wrap_of, dim_bitset_size in *.
    case_decide; rewrite Z.mod_small; lia.
  - rewrite (get_reduction_shape_spec _ _ _ _ _ H64 Hws Hsh).
    apply reduction_shape_spec_ext. intros j Hj.
    apply is_reduced_singleton; [done|done|]. unfold dim. lia.
Qed.

Section MaxOut.
Variable E : Env.

Lemma MaxDimMax_result self d keepdim output indices st :
  live st self -> live st output -> live st indices ->
  output <> indices -> self <> output -> self <> indices ->
  dim (tensor st self) <= dim_bitset_size ->
  wp (MaxDimMax E self d keepdim output indices) st (fun r st' tr =>
    forall o i, r = Ok (o, i) ->
    let self_r := tensor st self in
    let w := wrap_of (Z.max (dim self_r) 1) d in
    let shape :=
      reduction_shape_spec (is_reduced [d] (dim self_r)) keepdim
        (sizes self_r) in
    o = output /\ i = indices
    /\ sizes (tensor st' output) =
       (if decide (numel (tensor st output) = 0) then shape
        else sizes (tensor st output))
    /\ sizes (tensor st' indices) =
       (if decide (numel (tensor st indices) = 0) then shape
        else sizes (tensor st indices))
    /\ data (tensor st' output) = DReduceValues MAX w (data self_r)
    /\ data (tensor st' indices) = DReduceIndices MAX w (data self_r)).
Proof.
  intros Hs Ho Hi Hoi Hso Hsi H64. unfold MaxDimMax. wp_to_contig.
  all: try (intros; discriminate).
  all: eapply wp_wand;
    [ apply wp_conj;
      [ apply ReduceIndicesCall_result; [heap_len|heap_len|heap_len|done]
      | apply (wp_respects same_shape);
        [ apply respects_ReduceIndicesCall;
          [apply _|apply same_shape_set_data]
        | intros ? ? ? H; exact H ] ]
    | ].
  all: cbv beta zeta; intros [[]|e'] st1 ? [[_ Hres] Hle];
    [|intros; discriminate].
  all: apply wp_ret; intros o i [= <- <-]; split; [done|]; split; [done|].
  all: destruct (Hres eq_refl) as (Hv & Hix & _).
  all: destruct (st_le_tensor _ _ _ output Hle) as (_ & Hszo & _);
    [heap_len|].
  all: destruct (st_le_tensor _ _ _ indices Hle) as (_ & Hszi & _);
    [heap_len|].
  all: repeat match goal with H : decide _ = _ |- _ => clear H end.
  all: unfold tensor, live in *; cbn [heap] in *.
  all: destruct (singleton_reduction_shape _ _ _ _ _ _ H64 Heqr Heqr0 Heqr1)
         as (Ha & Hcast & Hshape).
  all: rewrite Hcast in *; rewrite <- Ha.
  all: rewrite ?look_alter_ne in * by neq_tac.
  all: rewrite ?look_alter_eq in * by (rewrite ?length_alter; lia).
  all: cbn [sizes set_sizes] in *.
  all: rewrite <- Hszo, <- Hszi.
  all: repeat case_decide; try lia; try congruence.
  all: repeat split; congruence.
Qed.

(** X18: [MaxDimMax] resizes [output] and [indices] to the reduction
    shape only when they have no elements, and leaves their sizes alone
    otherwise; they hold the values and the indices the library computed
    along the wrapped dim. *)
Theorem MaxDimMax_output self d keepdim output indices st o i st' tr :
  live st self -> live st output -> live st indices ->
  output <> indices -> self <> output -> self <> indices ->
  dim (tensor st self) <= dim_bitset_size ->
  MaxDimMax E self d keepdim output indices st = (Ok (o, i), st', tr) ->
  let self_r := tensor st self in
  let w := wrap_of (Z.max (dim self_r) 1) d in
  let shape :=
    reduction_shape_spec (is_reduced [d] (dim self_r)) keepdim
      (sizes self_r) in
  o = output /\ i = indices
  /\ sizes (tensor st' output) =
     (if decide (numel (tensor st output) = 0) then shape
      else sizes (tensor st output))
  /\ sizes (tensor st' indices) =
     (if decide (numel (tensor st indices) = 0) then shape
      else sizes (tensor st indices))
  /\ data (tensor st' output) = DReduceValues MAX w (data self_r)
  /\ data (tensor st' indices) = DReduceIndices MAX w (data self_r).
Proof.
  intros Hs Ho Hi Hoi Hso Hsi H64 Hrun.
  exact (wp_run _ _ _ _ _ _
           (MaxDimMax_result self d keepdim output indices st
              Hs Ho Hi Hoi Hso Hsi H64) Hrun o i eq_refl).
Qed.

End MaxOut.

(* ------------------------------------------------------------------ *)
(** ** Contents of the cumulative results; stream construction *)
(* ------------------------------------------------------------------ *)

Section CumulativeData.
Variable E : Env.

Lemma Cumulative_data self d dtype mode st :
  live st self ->
  wp (Cumulative E self d dtype mode) st (fun r st' tr =>
    forall out, r = Ok out ->
    let self_r := tensor st self in
    numel self_r <> 0 ->
    data (tensor st' out) =
      cum_result E mode d self_r
        (default (if isIntegralType (scalar_type self_r) true then Long
                  else scalar_type self_r) dtype)).
Proof.
  intros Hl. unfold Cumulative. wp_to_run.
  eapply wp_wand; [apply CumulativeImpl_result; heap_len|].
  cbv beta zeta. intros [[]|e'] st1 ? [_ Hres]; [|intros; discriminate].
  apply wp_ret. intros out [= <-] Hne.
  unfold tensor, live, cum_result in *. cbn [heap] in *.
  rewrite look_app_l, look_app_new in Hres by done.
  cbn [scalar_type is_contiguous] in Hres.
  destruct (Hres eq_refl Hne) as (src & Hsrc & HA & HB).
  rewrite (Hsrc ltac:(right; lia)) in *.
  case_decide; [by apply HB|by apply HA].
Qed.

(** X19: for an input with elements, the tensor [Cumulative]
    ([CumSum], [CumProd]) returns holds the cumulative result the library
    computed from [self], read in the scalar type the library computes in
    and converted to the scalar type of the result when that differs. *)
Theorem Cumulative_output self d dtype mode st out st' tr :
  live st self ->
  Cumulative E self d dtype mode st = (Ok out, st', tr) ->
  let self_r := tensor st self in
  numel self_r <> 0 ->
  data (tensor st' out) =
    cum_result E mode d self_r
      (default (if isIntegralType (scalar_type self_r) true then Long
                else scalar_type self_r) dtype).
Proof.
  intros Hl Hrun.
  exact (wp_run _ _ _ _ _ _ (Cumulative_data self d dtype mode st Hl) Hrun
           out eq_refl).
Qed.

Lemma Cumulative__data self d dtype mode st :
  live st self ->
  wp (Cumulative_ E self d dtype mode) st (fun r st' tr =>
    let self_r := tensor st self in
    let cts :=
      cumulative_ctypes E (scalar_type self_r) (scalar_type self_r) in
    (lib_succeeds E -> r = Ok self)
    /\ (forall t, r = Ok t ->
        t = self
        /\ (numel self_r <> 0 -> dim self_r <> 0 ->
            is_contiguous self_r = true \/ cts.2 <> scalar_type self_r ->
            data (tensor st' self) =
              cum_result E mode d self_r (scalar_type self_r)))).
Proof.
  intros Hl. unfold Cumulative_. apply wp_bind.
  eapply wp_wand; [by apply CumulativeImpl_result|].
  cbv beta zeta. intros [[]|e'] st1 ? [Htot Hres].
  - apply wp_ret. split; [done|]. intros t [= <-]. split; [done|].
    intros Hne Hd Hc. unfold cum_result.
    destruct (Hres eq_refl Hne) as (src & Hsrc & HA & HB).
    rewrite (Hsrc ltac:(by left)) in *.
    case_decide as Hct; [|by apply HA].
    apply HB; [done|]. by destruct Hc.
  - split; [intros Hlib; by specialize (Htot Hlib)|intros; discriminate].
Qed.

(** X20: [Cumulative_] ([CumSum_], [CumProd_]) returns [self], ignores
    [dtype], and returns when the library succeeds; when [self] is
    contiguous, or the library computes in another scalar type, [self]
    then holds the cumulative result of its former contents. *)
Theorem Cumulative__output self d dtype mode st :
  live st self ->
  let o := Cumulative_ E self d dtype mode st in
  let self_r := tensor st self in
  let cts := cumulative_ctypes E (scalar_type self_r) (scalar_type self_r) in
  (lib_succeeds E -> out_result o = Ok self)
  /\ (forall t, out_result o = Ok t ->
      t = self
      /\ (numel self_r <> 0 -> dim self_r <> 0 ->
          is_contiguous self_r = true \/ cts.2 <> scalar_type self_r ->
          data (tensor (out_state o) self) =
            cum_result E mode d self_r (scalar_type self_r))).
Proof.
  intros Hl. exact (Cumulative__data self d dtype mode st Hl).
Qed.

End CumulativeData.

Section StreamConstruction.

(** X21: the checked constructor accepts exactly the streams of
    device type kMUSA, and for those [device()], [device_type()],
    [device_index()] and [id()] agree with the wrapped stream; a stream of
    another device type put in through the unchecked constructor reports a
    device and a device type it does not have. *)
Theorem checked_constructor_accessors (stream : Stream) :
  (Stream_device_type stream = kMUSA ->
   exists s, MUSAStream_of stream = Ok s
     /\ unwrap s = stream
     /\ MUSAStream_device s = stream_device stream
     /\ device_type s = Stream_device_type stream
     /\ device_index s = Stream_device_index stream
     /\ id s = stream_id stream)
  /\ (Stream_device_type stream <> kMUSA ->
      (exists msg, MUSAStream_of stream = Err msg)
      /\ MUSAStream_device (MUSAStream_unchecked stream)
         <> stream_device stream
      /\ device_type (MUSAStream_unchecked stream)
         <> Stream_device_type (unwrap (MUSAStream_unchecked stream))).
Proof.
  destruct stream as [[ty ix] i].
  unfold MUSAStream_of, MUSAStream_unchecked, unwrap, MUSAStream_device,
    device_type, device_index, id, Stream_device_type, Stream_device_index.
  simpl. split.
  - intros ->. rewrite decide_True by done. eexists. repeat split.
  - intros Hne. rewrite decide_False by done. split; [eauto|].
    split; [intros [= H]|]; congruence.
Qed.

(** X22: [unpack3] returns exactly for the device type kMUSA, and
    the stream it returns packs back into the three fields it was made
    from. *)
Theorem unpack3_then_pack3 (i : Z) (ix : Z) (ty : DeviceType) :
  (forall s, unpack3 i ix ty = Ok s ->
     ty = kMUSA /\ pack3 s = mkStreamData3 i ix ty
     /\ id s = i /\ device_index s = ix
     /\ MUSAStream_device s = mkDevice ty ix)
  /\ (ty = kMUSA -> exists s, unpack3 i ix ty = Ok s)
  /\ (ty <> kMUSA -> exists msg, unpack3 i ix ty = Err msg).
Proof.
  unfold unpack3, Stream_unpack3, MUSAStream_of, pack3, Stream_pack3, id,
    device_index, MUSAStream_device, Stream_device_type, Stream_device_index,
    mbind, Result_bind.
  split; [|split].
  - intros s. destruct ty; simpl; intros [= <-]; try done.
  - intros ->. simpl. eauto.
  - intros Hne. destruct ty; simpl; try eauto. done.
Qed.

End StreamConstruction.

(* ------------------------------------------------------------------ *)
(** ** ReduceCall *)
(* ------------------------------------------------------------------ *)

Section ReduceCallFacts.
Variable E : Env.


Lemma ReduceCall_norm_order output self dims m p st :
  wp (ReduceCall E output self dims m p true) st (fun r st' tr =>
    numel (tensor st self) <> 0 -> ~ norm_ord_ok p ->
    (exists msg, r = Err msg)
    /\ Forall (fun ev => is_lib_run ev = false) tr).
Proof.
  unfold ReduceCall. wp_go.
  all: intros Hne Hp; try done.
  all: repeat match goal with
         | s : Scalar |- _ => destruct s; try discriminate
         end; simpl in Hp; try tauto.
  all: split; [eauto|simpl; repeat constructor].
Qed.

(** X24: for a norm whose order is neither an integer nor a
    floating-point scalar, [ReduceCall] raises and the run entry point of
    the library is not called. *)
Theorem ReduceCall_rejects_norm_order output self dims m p st :
  numel (tensor st self) <> 0 -> ~ norm_ord_ok p ->
  (exists msg, out_result (ReduceCall E output self dims m p true st)
                 = Err msg)
  /\ Forall (fun ev => is_lib_run ev = false)
       (out_trace (ReduceCall E output self dims m p true st)).
Proof. intros Hne Hp. by apply ReduceCall_norm_order. Qed.

End ReduceCallFacts.

(* ------------------------------------------------------------------ *)
(** ** The scalar types the library is run on *)
(* ------------------------------------------------------------------ *)

Lemma cum_run_types_libfree st a b tr :
  Forall (fun ev => is_lib ev = false) tr ->
  Forall (cum_run_types st a b) tr.
Proof.
  intros H. eapply Forall_impl; [exact H|].
  intros [| c cur |]; simpl; done.
Qed.

Lemma wp_libfree {A} (m : M A) st :
  libfree m -> wp m st (fun _ _ tr => Forall (fun ev => is_lib ev = false) tr).
Proof. intros H. apply H. Qed.

(** The muDNN workarounds, lines 412-431: without a floating type the
    library computes into Int or Long and never reads Byte or Short. *)
Lemma cumulative_ctypes_integral E (a b : ScalarType) :
  isFloatingType a = false -> isFloatingType b = false ->
  ((cumulative_ctypes E a b).2 = Int \/ (cumulative_ctypes E a b).2 = Long)
  /\ (cumulative_ctypes E a b).1 <> Byte
  /\ (cumulative_ctypes E a b).1 <> Short.
Proof.
  intros Ha Hb. unfold cumulative_ctypes. rewrite Ha, Hb. simpl.
  repeat case_decide; simpl; destruct_or?; subst; try done;
    repeat split; try tauto; try congruence; auto.
  all: intros ->; tauto.
Qed.

Section CumulativeTypes.
Variable E : Env.

Lemma cumulative_run_types out inp in_ctype out_ctype d mode st :
  live st out -> live st inp ->
  wp (c_in ← make_proxy inp in_ctype;
      c_out ← make_proxy out out_ctype;
      contig_c_in ← FormatContiguous c_in;
      contig_c_out ← FormatContiguous c_out;
      mudnn_out ← CreateMUTensor contig_c_out;
      mudnn_in ← CreateMUTensor contig_c_in;
      GetMudnnHandle;;
      s ← lib E (LCum_SetDim (static_cast_int d));
      CHECK_MUDNN_STATUS s "SetDim";;
      s ← lib E (LCum_SetMode mode);
      CHECK_MUDNN_STATUS s "SetMode";;
      s ← Cum_Run E mode (static_cast_int d) mudnn_out mudnn_in;
      CHECK_MUDNN_STATUS s "CumRun";;
      out_r ← get out;
      if decide (out_ctype <> scalar_type out_r) then copy_ out contig_c_out
      else mret tt) st
    (fun r st' tr => Forall (cum_run_types st' in_ctype out_ctype) tr).
Proof.
  intros Hout Hinp.
  apply wp_bind. eapply wp_wand;
    [apply wp_conj;
      [by apply make_proxy_spec|apply wp_libfree, libfree_make_proxy]|].
  cbv beta.
  intros ? st1 tr1 [(Hle1 & c_in & -> & Hl1 & Ht1 & _) Hf1].
  destruct (st_le_eq_tensor _ _ _ Hle1 Hout) as [Hout1 Hlo1].
  apply wp_bind. eapply wp_wand;
    [apply wp_conj;
      [by apply make_proxy_spec|apply wp_libfree, libfree_make_proxy]|].
  cbv beta.
  intros ? st2 tr2 [(Hle2 & c_out & -> & Hl2 & Ht2 & _) Hf2].
  destruct (st_le_eq_tensor _ _ _ Hle2 Hl1) as [Hin2 Hli2].
  apply wp_bind. eapply wp_wand;
    [apply wp_conj;
      [by apply FormatContiguous_spec
      |apply wp_libfree, libfree_FormatContiguous]|].
  cbv beta.
  intros ? st3 tr3 [(Hle3 & cc_in & -> & Hl3 & Ht3 & _) Hf3].
  destruct (st_le_eq_tensor _ _ _ Hle3 Hl2) as [Hcout3 Hlc3].
  apply wp_bind. eapply wp_wand;
    [apply wp_conj;
      [by apply FormatContiguous_spec
      |apply wp_libfree, libfree_FormatContiguous]|].
  cbv beta.
  intros ? st4 tr4 [(Hle4 & cc_out & -> & Hl4 & Ht4 & _) Hf4].
  destruct (st_le_eq_tensor _ _ _ Hle4 Hl3) as [Hcin4 Hlci4].
  assert (scalar_type (tensor st4 cc_out) = out_ctype) as Hto by congruence.
  assert (scalar_type (tensor st4 cc_in) = in_ctype) as Hti by congruence.
  clear - Hf1 Hf2 Hf3 Hf4 Hto Hti.
  wp_go.
  all: repeat match goal with H : decide _ = _ |- _ => clear H end.
  all: repeat (apply Forall_app_2);
         try (apply cum_run_types_libfree; assumption).
  all: repeat first [ apply Forall_nil_2 | apply Forall_cons_2 ];
         try exact I.
  all: unfold cum_run_types, tensor in *; cbn [heap] in *.
  all: rewrite ?scalar_type_look_alter_set_data; by split.
Qed.

Lemma CumulativeImpl_types out inp d mode st :
  live st out -> live st inp ->
  wp (CumulativeImpl E out inp d mode) st (fun r st' tr =>
    let cts := cumulative_ctypes E (scalar_type (tensor st inp))
                 (scalar_type (tensor st out)) in
    Forall (cum_run_types st' cts.1 cts.2) tr).
Proof.
  intros Hout Hinp. unfold CumulativeImpl. wp_to_run.
  1: { simpl. repeat constructor. }
  all: eapply wp_wand; [apply cumulative_run_types; heap_len|].
  all: cbv beta zeta; intros r st2 tr2 Hf.
  all: repeat match goal with H : decide _ = _ |- _ => clear H end.
  all: unfold tensor in *; cbn [heap] in *.
  all: rewrite ?scalar_type_look_alter_set_data in *.
  all: match goal with H : cumulative_ctypes _ _ _ = _ |- _ => rewrite H end;
       cbn [fst snd].
  all: repeat first [ apply Forall_app_2 | apply Forall_cons_2
                    | apply Forall_nil_2 ]; try exact I.
  all: exact Hf.
Qed.

(** X25: every run of the cumulative primitive that
    [CumulativeImpl] makes is given an output and an input of the scalar
    types its promotion rule computes; when neither [out] nor [inp] is
    floating, the library writes Int or Long and never reads Byte or
    Short. *)
Theorem cumulative_library_types out inp d mode st :
  live st out -> live st inp ->
  let o := CumulativeImpl E out inp d mode st in
  let in_t := scalar_type (tensor st inp) in
  let out_t := scalar_type (tensor st out) in
  Forall (cum_run_types (out_state o) (cumulative_ctypes E in_t out_t).1
            (cumulative_ctypes E in_t out_t).2) (out_trace o)
  /\ (isFloatingType in_t = false -> isFloatingType out_t = false ->
      forall o_h i_h cur,
        In (EvLib (LCum_Run o_h i_h) cur) (out_trace o) ->
        (scalar_type (tensor (out_state o) o_h) = Int
         \/ scalar_type (tensor (out_state o) o_h) = Long)
        /\ scalar_type (tensor (out_state o) i_h) <> Byte
        /\ scalar_type (tensor (out_state o) i_h) <> Short).
Proof.
  intros Hout Hinp o in_t out_t.
  pose proof (CumulativeImpl_types out inp d mode st Hout Hinp) as H.
  unfold wp in H. cbv zeta in H. fold o in_t out_t in H.
  split; [exact H|]. intros Hi Ho o_h i_h cur Hin.
  rewrite Forall_forall in H. apply list_elem_of_In in Hin.
  specialize (H _ Hin). simpl in H.
  destruct H as [-> ->]. by apply cumulative_ctypes_integral.
Qed.

End CumulativeTypes.

(* ------------------------------------------------------------------ *)
(** ** Further concrete runs *)
(* ------------------------------------------------------------------ *)

Lemma Reduction_output_witness :
  data (tensor (out_state (Reduction E_ok 0%nat [-1] true None ADD None false
                             (st1 Float))) 1%nat)
  = DReduce ADD [1] None (DInput 0).
Proof.
  destruct (Reduction_output E_ok 0%nat [-1] true None ADD None false
              (st1 Float) _ _ _ ltac:(unfold live; simpl; lia) eq_refl)
    as (_ & _ & _ & H).
  apply H. vm_compute. discriminate.
Defined.


Lemma ReduceIndicesCall_rejects_dtype_mismatch_witness :
  exists msg,
    ReduceIndicesCall E_ok 2%nat 1%nat 0%nat 1 MAX st3 = (Err msg, st3, []).
Proof.
  apply (ReduceIndicesCall_rejects_dtype_mismatch E_ok 2%nat 1%nat 0%nat 1
           MAX st3).
  vm_compute. discriminate.
Defined.

Lemma ReductionIndices_output_witness :
  data (tensor (out_state (ReductionIndices E_ok 0%nat (-1) false MIN
                             (st1 Float))) 2%nat)
  = DReduceIndices MIN 1 (DInput 0).
Proof.
  destruct (ReductionIndices_output E_ok 0%nat (-1) false MIN (st1 Float)
              _ _ _ _ ltac:(unfold live; simpl; lia) eq_refl)
    as (_ & H & _).
  exact H.
Defined.

Lemma argmax_argmin_result_witness :
  let o := argmax_out_musa E_ok 0%nat None false 2%nat st3 in
  data (tensor (out_state o) 2%nat) = DReduceIndices MAX 0 (DInput 0)
  /\ exists inp out_h dev,
       In (EvLib (LReduce_RunIndices out_h inp) dev) (out_trace o)
       /\ sizes (tensor (out_state o) inp) = [6].
Proof.
  destruct (argmax_argmin_result E_ok 0%nat None false 2%nat st3
              (out_state (argmax_out_musa E_ok 0%nat None false 2%nat st3))
              (out_trace (argmax_out_musa E_ok 0%nat None false 2%nat st3))
              ltac:(unfold live; simpl; lia) ltac:(unfold live; simpl; lia))
    as [H _].
  destruct H as (Hd & _ & _ & inp & out_h & dev & Hin & Hsz & _);
    [reflexivity|].
  split; [exact Hd|]. exists inp, out_h, dev. split; [exact Hin|].
  rewrite Hsz. reflexivity.
Defined.


Lemma empty_input_returns_early_witness :
  ReduceCall E_ok 1%nat 0%nat [0] MEAN None false st_empty
  = (Ok tt, st_empty, [EvGuard musa0]).
Proof.
  destruct (empty_input_returns_early E_ok 1%nat 0%nat [0] MEAN None false 0
              CUM_ADD st_empty) as [H _].
  - reflexivity.
  - exact H.
Defined.

Lemma only_resizing_operators_change_shapes_witness :
  sizes (tensor (out_state (exec E_ok (OpMinDimMin 0%nat 1 false 1%nat 2%nat)
                              st3)) 1%nat) = [2].
Proof.
  destruct (only_resizing_operators_change_shapes E_ok
              (OpMinDimMin 0%nat 1 false 1%nat 2%nat) st3 1%nat)
    as [H _].
  - reflexivity.
  - unfold live. simpl. lia.
  - exact H.
Defined.

Lemma host_delegated_makes_no_library_call_witness :
  Forall (fun ev => is_lib ev = false)
    (out_trace (exec E_ok (OpMinAll 0%nat) (st1 Double))).
Proof.
  apply (host_delegated_makes_no_library_call E_ok (OpMinAll 0%nat)
           (st1 Double)).
  reflexivity.
Defined.

Lemma SumIntListOut_output_witness :
  sizes (tensor (out_state (SumIntListOut E_ok 0%nat (Some [1]) false None
                              1%nat st2)) 1%nat) = [2].
Proof.
  destruct (SumIntListOut_output E_ok 0%nat (Some [1]) false None 1%nat st2
              _ _ _ ltac:(unfold live; simpl; lia)
              ltac:(unfold live; simpl; lia) ltac:(lia)
              ltac:(vm_compute; discriminate) eq_refl)
    as (_ & dl & Hdl & Hsz & _).
  injection Hdl as <-. exact Hsz.
Defined.

Lemma MaxDimMax_output_witness :
  sizes (tensor (out_state (MaxDimMax E_ok 0%nat 1 false 1%nat 2%nat st3))
                1%nat) = [2].
Proof.
  destruct (MaxDimMax_output E_ok 0%nat 1 false 1%nat 2%nat st3 _ _ _ _
              ltac:(unfold live; simpl; lia) ltac:(unfold live; simpl; lia)
              ltac:(unfold live; simpl; lia) ltac:(lia) ltac:(lia) ltac:(lia)
              ltac:(vm_compute; discriminate) eq_refl)
    as (_ & _ & H & _).
  exact H.
Defined.

Lemma Cumulative_output_witness :
  data (tensor (out_state (CumSum E_ok 0%nat 1 None (st1 Float))) 1%nat)
  = DCum CUM_ADD 1 (DInput 0).
Proof.
  destruct (Cumulative_output E_ok 0%nat 1 None CUM_ADD (st1 Float) _ _ _
              ltac:(unfold live; simpl; lia) eq_refl) as [].
  - vm_compute. discriminate.
  - reflexivity.
Defined.

Lemma Cumulative__output_witness :
  out_result (CumProd_ E_ok 0%nat 1 None (st1 Float)) = Ok 0%nat.
Proof.
  destruct (Cumulative__output E_ok 0%nat 1 None CUM_MUL (st1 Float))
    as [H _].
  - unfold live. simpl. lia.
  - apply H. intros c. reflexivity.
Defined.


Lemma ReduceCall_rejects_norm_order_witness :
  exists msg,
    out_result (ReduceCall E_ok 1%nat 0%nat [1] NORM
                  (Some (ScalarBool true)) true st2) = Err msg.
Proof.
  destruct (ReduceCall_rejects_norm_order E_ok 1%nat 0%nat [1] NORM
              (Some (ScalarBool true)) st2) as [H _].
  - vm_compute. discriminate.
  - simpl. tauto.
  - exact H.
Defined.

Lemma cumulative_library_types_witness :
  Forall (cum_run_types
            (out_state (CumulativeImpl E_ok 0%nat 0%nat 1 CUM_ADD (st1 Byte)))
            Int Int)
    (out_trace (CumulativeImpl E_ok 0%nat 0%nat 1 CUM_ADD (st1 Byte))).
Proof.
  destruct (cumulative_library_types E_ok 0%nat 0%nat 1 CUM_ADD (st1 Byte))
    as [H _].
  - unfold live. simpl. lia.
  - unfold live. simpl. lia.
  - exact H.
Defined.

(* ------------------------------------------------------------------ *)
(** ** Reductions over all elements *)
(* ------------------------------------------------------------------ *)

Section ReduceAll.
Variable E : Env.

Ltac reduce_all_tac st :=
  wp_to_contig;
  try (intros; discriminate);
  try (intros out [= <-] Hne;
       repeat match goal with H : decide _ = _ |- _ => clear H end;
       unfold tensor, live, reduce_all_data in *; cbn [heap] in *;
       rewrite ?length_app in *; cbn [length] in *;
       repeat first
         [ rewrite look_app_new
         | rewrite look_app_new_eq by (rewrite ?length_app; simpl; lia)
         | rewrite look_app_l by (rewrite ?length_app; simpl; lia)
         | rewrite look_alter_eq by (rewrite ?length_app; simpl; lia) ];
       cbn [sizes scalar_type data set_data];
       first [ rewrite decide_True by done | congruence | idtac ];
       solve [repeat split; done || congruence]);
  [ eapply wp_wand;
    [ apply wp_conj;
      [ apply ReduceCall_result; heap_len
      | apply (wp_respects same_shape);
        [ apply respects_ReduceCall; [apply _|apply same_shape_set_data]
        | intros ? ? ? H; exact H ] ]
    | ];
    cbv beta zeta; intros [[]|e'] st1 ? [Hres Hle]; [|intros; discriminate];
    apply wp_ret; intros out [= <-] Hne;
    destruct (Hres eq_refl) as (_ & _ & Hd);
    destruct (st_le_tensor _ _ _ (length (heap st)) Hle)
      as ((_ & Hdt & _) & Hsz & _); [heap_len|];
    unfold tensor, live, reduce_all_data, run_dims, run_ord in *;
    cbn [heap] in *;
    rewrite look_app_new in *; rewrite look_app_l in * by done;
    cbn [sizes scalar_type] in *;
    rewrite decide_False by done;
    split; [done|]; split; [done|];
    rewrite (Hd Hne); f_equal; by case_decide ].

Lemma MaxAll_result self st :
  live st self ->
  wp (MaxAll E self) st (fun r st' tr =>
    forall out, r = Ok out ->
    let self_r := tensor st self in
    numel self_r <> 0 ->
    sizes (tensor st' out) = []
    /\ scalar_type (tensor st' out) = scalar_type self_r
    /\ data (tensor st' out) = reduce_all_data HostMax MAX self_r).
Proof.
  intros Hl. unfold MaxAll, MaxAllCall. reduce_all_tac st.
Qed.

Lemma MinAll_result self st :
  live st self ->
  wp (MinAll E self) st (fun r st' tr =>
    forall out, r = Ok out ->
    let self_r := tensor st self in
    numel self_r <> 0 ->
    sizes (tensor st' out) = []
    /\ scalar_type (tensor st' out) = scalar_type self_r
    /\ data (tensor st' out) = reduce_all_data HostMin MIN self_r).
Proof.
  intros Hl. unfold MinAll, MinAllCall. reduce_all_tac st.
Qed.

(** X26: for an input with elements, [MaxAll] and [MinAll] return a
    0-dim tensor of the scalar type of [self]; it holds the maximum,
    respectively the minimum, over all elements: computed by the library,
    or, for a Double input, by the host framework. *)
Theorem MaxAll_MinAll_output self st :
  live st self -> numel (tensor st self) <> 0 ->
  (forall out st' tr, MaxAll E self st = (Ok out, st', tr) ->
     sizes (tensor st' out) = []
     /\ scalar_type (tensor st' out) = scalar_type (tensor st self)
     /\ data (tensor st' out) = reduce_all_data HostMax MAX (tensor st self))
  /\ (forall out st' tr, MinAll E self st = (Ok out, st', tr) ->
       sizes (tensor st' out) = []
       /\ scalar_type (tensor st' out) = scalar_type (tensor st self)
       /\ data (tensor st' out)
          = reduce_all_data HostMin MIN (tensor st self)).
Proof.
  intros Hl Hne. split; intros out st' tr Hrun.
  - exact (wp_run _ _ _ _ _ _ (MaxAll_result self st Hl) Hrun out eq_refl Hne).
  - exact (wp_run _ _ _ _ _ _ (MinAll_result self st Hl) Hrun out eq_refl Hne).
Qed.

End ReduceAll.

Lemma MaxAll_MinAll_output_witness :
  data (tensor (out_state (MaxAll E_ok 0%nat (st1 Float))) 1%nat)
  = DReduce MAX [] None (DInput 0).
Proof.
  destruct (MaxAll_MinAll_output E_ok 0%nat (st1 Float)) as [H _].
  - unfold live. simpl. lia.
  - vm_compute. discriminate.
  - destruct (H 1%nat _ _ eq_refl) as (_ & _ & Hd). exact Hd.
Defined.

(* ------------------------------------------------------------------ *)
(** ** AnyOut *)
(* ------------------------------------------------------------------ *)

Section AnyOutResult.
Variable E : Env.

Lemma AnyOut_result self out st :
  live st self -> live st out ->
  wp (AnyOut E self out) st (fun r st' tr =>
    forall t, r = Ok t ->
    let self_r := tensor st self in
    let red := DReduce OR [] None (data self_r) in
    numel self_r <> 0 ->
    data (tensor st' out) = red
    /\ scalar_type (tensor st' out) = scalar_type (tensor st out)
    /\ (scalar_type self_r = Bool -> t = out)
    /\ (scalar_type self_r <> Bool ->
        scalar_type (tensor st' t) = Bool
        /\ data (tensor st' t) =
           if decide (scalar_type (tensor st out) = Bool) then red
           else DCast Bool red)).
Proof.
  intros Hs Ho. unfold AnyOut. apply wp_bind.
  eapply wp_wand;
    [ apply wp_conj;
      [ by apply ReduceCall_result
      | apply (wp_respects same_shape);
        [ apply respects_ReduceCall; [apply _|apply same_shape_set_data]
        | intros ? ? ? H; exact H ] ]
    | ].
  cbv beta zeta. intros [[]|e'] st1 ? [Hres Hle]; [|intros; discriminate].
  destruct (Hres eq_refl) as (_ & _ & Hd).
  destruct (st_le_tensor _ _ _ out Hle Ho) as ((_ & Hdto & _) & _).
  destruct (st_le_tensor _ _ _ self Hle Hs) as ((_ & Hdts & _) & _).
  pose proof (st_le_length _ _ _ Hle) as Hlen.
  wp_go; intros t [= <-] Hne; specialize (Hd Hne).
  all: repeat match goal with H : decide _ = _ |- _ => clear H end.
  all: unfold tensor, live, run_dims, run_ord in *; cbn [heap] in *.
  all: assert (data (look (heap st1) out)
               = DReduce OR [] None (data (look (heap st) self))) as Hd'
         by (rewrite Hd; f_equal; by case_decide).
  all: repeat first
         [ rewrite look_app_new_eq by (rewrite ?length_app; simpl; lia)
         | rewrite look_app_new
         | rewrite look_app_l by lia ].
  all: cbn [scalar_type data].
  all: rewrite ?decide_True by congruence; rewrite ?decide_False by congruence.
  all: repeat split; try done; try congruence.
  all: exfalso; match goal with
       | H : ~ (_ <> _) |- _ => apply H; congruence
       end.
Qed.

(** X27: for an input with elements, when [AnyOut] returns, the tensor
    [out] that was passed holds the OR reduction the library computed over
    all of [self], in the scalar type [out] had; for a Bool input [out]
    itself is returned, for any other input what is returned is of scalar
    type Bool: [out] itself when it is Bool, a converted copy otherwise. *)
Theorem AnyOut_output self out st t st' tr :
  live st self -> live st out ->
  numel (tensor st self) <> 0 ->
  AnyOut E self out st = (Ok t, st', tr) ->
  let self_r := tensor st self in
  let red := DReduce OR [] None (data self_r) in
  data (tensor st' out) = red
  /\ scalar_type (tensor st' out) = scalar_type (tensor st out)
  /\ (scalar_type self_r = Bool -> t = out)
  /\ (scalar_type self_r <> Bool ->
      scalar_type (tensor st' t) = Bool
      /\ data (tensor st' t) =
         if decide (scalar_type (tensor st out) = Bool) then red
         else DCast Bool red).
Proof.
  intros Hs Ho Hne Hrun.
  exact (wp_run _ _ _ _ _ _ (AnyOut_result self out st Hs Ho) Hrun
           t eq_refl Hne).
Qed.

End AnyOutResult.

Lemma AnyOut_output_witness :
  data (tensor (out_state (AnyOut E_ok 0%nat 1%nat st2)) 2%nat)
  = DCast Bool (DReduce OR [] None (DInput 0)).
Proof.
  destruct (AnyOut_output E_ok 0%nat 1%nat st2 _ _ _
              ltac:(unfold live; simpl; lia) ltac:(unfold live; simpl; lia)
              ltac:(vm_compute; discriminate) eq_refl) as (_ & _ & _ & H).
  destruct H as [_ Hd]; [discriminate|exact Hd].
Defined.

(* ------------------------------------------------------------------ *)
(** ** Any and All *)
(* ------------------------------------------------------------------ *)

Section AnyAll.
Variable E : Env.

Lemma Any_All_result self m st :
  live st self ->
  wp (self_r ← get self;
      out ← Reduction E self [] false (Some (scalar_type self_r)) m None false;
      self_r ← get self;
      if decide (scalar_type self_r <> Bool) then to_dtype out Bool
      else mret out) st
    (fun r st' tr => forall out, r = Ok out ->
       scalar_type (tensor st' out) = Bool
       /\ data (tensor st' out) = any_all_data m (tensor st self)
       /\ ~ live st out
       /\ (forall t, live st t -> tensor st' t = tensor st t)).
Proof.
  intros Hl. wp_step. wp_step. wp_step.
  eapply wp_wand.
  { apply wp_conj; [by apply Reduction_result|by apply Reduction_data]. }
  cbv beta. intros [out|e] st1 tr1 [Hres Hdat]; [|intros; discriminate].
  destruct (Hres _ eq_refl) as (dv & shape & _ & _ & Hlo & _ & Hdt).
  destruct (Hdat _ eq_refl) as (Hfresh & Hfr & Hz & Hnz).
  unfold musa_infer_dtype_from_optional, musa_get_dtype_from_self in Hdt.
  simpl in Hdt.
  assert (data (tensor st1 out) =
          if decide (numel (tensor st self) = 0) then DZero
          else DReduce m [] None (data (tensor st self))) as Hd.
  { destruct (decide (numel (tensor st self) = 0)) as [Hn|Hn];
      [by apply Hz|].
    rewrite (Hnz Hn). unfold run_ord. by case_decide. }
  clear Hz Hnz Hdat Hres.
  pose proof (Hfr _ Hl) as Hself.
  unfold any_all_data.
  wp_go; intros out' [= <-].
  all: repeat match goal with H : decide _ = _ |- _ => clear H end.
  all: unfold tensor, live in *; cbn [heap] in *.
  all: try rewrite Hself in *.
  - exfalso. congruence.
  - rewrite look_app_new. cbn [scalar_type data]. rewrite Hd.
    rewrite (decide_False (P := scalar_type _ = Bool)) by done.
    split; [done|]. split; [done|]. split; [lia|].
    intros t Ht. rewrite look_app_l by lia. by apply Hfr.
  - assert (scalar_type (look (heap st) self) = Bool) as Hb
      by (by destruct (decide (scalar_type (look (heap st) self) = Bool))).
    rewrite (decide_True (P := scalar_type _ = Bool)) by done.
    split; [congruence|]. split; [done|]. split; [done|]. done.
Qed.

(** C10: [Any(self)] and [All(self)], the reductions over all
    dimensions, return a new tensor of scalar type Bool.  It holds the
    reduction of the elements of [self] that the library computes in mode
    OR, respectively AND (the zero fill when [self] has no elements); when
    the scalar type of [self] is not Bool, that reduction is computed in
    the scalar type of [self] and what is returned is its conversion to
    Bool.  Both return when the library succeeds. *)
Theorem Any_All_return_Bool self st :
  live st self ->
  (forall out st' tr, Any E self st = (Ok out, st', tr) ->
     scalar_type (tensor st' out) = Bool
     /\ data (tensor st' out) = any_all_data OR (tensor st self)
     /\ ~ live st out
     /\ (forall t, live st t -> tensor st' t = tensor st t))
  /\ (forall out st' tr, All E self st = (Ok out, st', tr) ->
        scalar_type (tensor st' out) = Bool
        /\ data (tensor st' out) = any_all_data AND (tensor st self)
        /\ ~ live st out
        /\ (forall t, live st t -> tensor st' t = tensor st t))
  /\ (lib_succeeds E ->
      (exists out st' tr, Any E self st = (Ok out, st', tr))
      /\ (exists out st' tr, All E self st = (Ok out, st', tr))).
Proof.
  intros Hl. split; [|split].
  - intros out st' tr Hrun.
    by apply (wp_run _ _ _ _ _ _ (Any_All_result self OR st Hl) Hrun).
  - intros out st' tr Hrun.
    by apply (wp_run _ _ _ _ _ _ (Any_All_result self AND st Hl) Hrun).
  - intros Hlib. split.
    + destruct (wp_exists (Any E self) st) as (r & st' & tr & Hrun).
      destruct (wp_run _ _ _ _ _ _ (Any_All_total E self OR st Hlib Hl) Hrun)
        as [out ->]. eauto.
    + destruct (wp_exists (All E self) st) as (r & st' & tr & Hrun).
      destruct (wp_run _ _ _ _ _ _ (Any_All_total E self AND st Hlib Hl) Hrun)
        as [out ->]. eauto.
Qed.

End AnyAll.

Lemma Any_All_return_Bool_witness :
  exists out st' tr,
    Any E_ok 0%nat (st1 Float) = (Ok out, st', tr)
    /\ scalar_type (tensor st' out) = Bool
    /\ data (tensor st' out) = DCast Bool (DReduce OR [] None (DInput 0)).
Proof.
  destruct (Any_All_return_Bool E_ok 0%nat (st1 Float)) as (HA & _ & Ht).
  - unfold live. simpl. lia.
  - destruct Ht as [(out & st' & tr & Hrun) _].
    + intros c. reflexivity.
    + exists out, st', tr. split; [done|].
      destruct (HA _ _ _ Hrun) as (H1 & H2 & _). split; [done|].
      rewrite H2. reflexivity.
Defined.

(* ------------------------------------------------------------------ *)
(** ** What an operator may write to *)
(* ------------------------------------------------------------------ *)

Section Ownership.
Variable W : nat -> Prop.
Variable n : nat.

Lemma ww_weaken {A} (m : M A) (P Q : A -> Prop) :
  writes_within W n m P -> (forall a, P a -> Q a) -> writes_within W n m Q.
Proof.
  intros Hm HPQ st Hn. destruct (Hm st Hn) as (? & ? & HP).
  split; [done|]. split; [done|]. intros a Ha. by apply HPQ, HP.
Qed.

Lemma ww_ret {A} (a : A) (P : A -> Prop) :
  P a -> writes_within W n (mret a) P.
Proof.
  intros HP st Hn. split; [done|]. split; [done|]. by intros ? [= <-].
Qed.

Lemma ww_raise {A} msg (P : A -> Prop) : writes_within W n (raise msg) P.
Proof. intros st Hn. split; [done|]. split; [done|]. intros ? [=]. Qed.

Lemma ww_lift {A} (r : Result A) : writes_within W n (lift r) (fun _ => True).
Proof. intros st Hn. split; [done|]. split; done. Qed.

Lemma ww_emit ev : writes_within W n (emit ev) (fun _ => True).
Proof. intros st Hn. split; [done|]. split; done. Qed.

Lemma ww_get t : writes_within W n (get t) (fun _ => True).
Proof. intros st Hn. split; [done|]. split; done. Qed.

Lemma ww_get_current_device :
  writes_within W n get_current_device (fun _ => True).
Proof. intros st Hn. split; [done|]. split; done. Qed.

Lemma ww_lib_event c : writes_within W n (lib_event c) (fun _ => True).
Proof. intros st Hn. split; [done|]. split; done. Qed.

Lemma ww_alloc r : writes_within W n (alloc r) (owned W n).
Proof.
  intros st Hn. unfold alloc, out_state, out_result. simpl.
  split; [rewrite length_app; lia|]. split.
  - intros t Ht _. unfold tensor. simpl. rewrite look_app_l; [done|lia].
  - intros a [= <-]. by right.
Qed.

Lemma ww_update t f :
  owned W n t -> writes_within W n (update t f) (fun _ => True).
Proof.
  intros Ho st Hn. unfold update, out_state, out_result. simpl.
  split; [by rewrite length_alter|]. split; [|done].
  intros t' Ht' HW. unfold tensor. simpl. rewrite look_alter.
  rewrite decide_False; [done|]. intros [-> _].
  destruct Ho as [?|?]; [done|lia].
Qed.

Lemma ww_bind {A B} (P : A -> Prop) (m : M A) (f : A -> M B) Q :
  writes_within W n m P -> (forall a, P a -> writes_within W n (f a) Q) ->
  writes_within W n (m ≫= f) Q.
Proof.
  intros Hm Hf st Hn. destruct (Hm st Hn) as (Hlen & Hfr & HP).
  unfold mbind, M_bind, out_state, out_result in *.
  destruct (m st) as [[[a|e] st1] tr1]; simpl in *; [|by repeat split].
  pose proof (Hf a (HP a eq_refl) st1) as Hf1.
  destruct (f a st1) as [[r2 st2] tr2]; simpl in *.
  destruct Hf1 as (Hlen2 & Hfr2 & HQ); [lia|].
  unfold out_state, out_result in *. simpl in *.
  split; [lia|]. split; [|done].
  intros t Ht HW. rewrite Hfr2 by done. by apply Hfr.
Qed.

Lemma ww_guard {A} d (body : M A) P :
  writes_within W n body P -> writes_within W n (with_guard d body) P.
Proof.
  intros Hb st Hn. specialize (Hb (mkState (heap st) d) Hn).
  unfold with_guard, out_state, out_result in *.
  destruct (body _) as [[r st1] tr]; simpl in *. done.
Qed.

End Ownership.

Create HintDb ww discriminated.

Ltac ww_post :=
  cbv beta; simpl;
  first [ exact I | assumption
        | solve [unfold owned in *; simpl in *; intuition (subst; auto)] ].

Ltac ww_unfold :=
  lazymatch goal with
  | |- writes_within ?W ?n ?m ?P =>
      let m' := eval cbv delta
        [at_empty zero_ fill_ copy_ to_dtype to_device flatten resize_output
         resize_ propagate_names item host_reduce FormatContiguous Contiguous
         lib CreateMUTensor GetMudnnHandle CHECK_MUDNN_STATUS TORCH_CHECK
         optional_value Reduce_Run Reduce_RunWithIndices Reduce_RunIndices
         Cum_Run norm_p_value make_proxy to_musa at_reduce_all
         with_optional_guard bool_or_01 bool_byte_or_01 MaxAllCall MinAllCall
         one pair none] in m in
      progress change (writes_within W n m' P)
  end.

Ltac ww_step :=
  lazymatch goal with
  | |- writes_within ?W ?n (mbind ?m ?f) ?Q =>
      first
        [ apply (ww_bind W n (owned W n)); [solve [ww_go]|intros ? ?]
        | apply (ww_bind W n (fun p => owned W n p.1 /\ owned W n p.2));
          [solve [ww_go]|intros ? [? ?]]
        | apply (ww_bind W n (fun _ => True)); [solve [ww_go]|intros ? _] ]
  | |- writes_within _ _ (with_guard _ _) _ => apply ww_guard
  | |- writes_within _ _ (mret _) _ => apply ww_ret; ww_post
  | |- writes_within _ _ (raise _) _ => apply ww_raise
  | |- writes_within _ _ (lift _) _ =>
      eapply ww_weaken; [apply ww_lift|intros ? ?; ww_post]
  | |- writes_within _ _ (emit _) _ =>
      eapply ww_weaken; [apply ww_emit|intros ? ?; ww_post]
  | |- writes_within _ _ (get _) _ =>
      eapply ww_weaken; [apply ww_get|intros ? ?; ww_post]
  | |- writes_within _ _ get_current_device _ =>
      eapply ww_weaken; [apply ww_get_current_device|intros ? ?; ww_post]
  | |- writes_within _ _ (lib_event _) _ =>
      eapply ww_weaken; [apply ww_lib_event|intros ? ?; ww_post]
  | |- writes_within _ _ (alloc _) _ =>
      eapply ww_weaken; [apply ww_alloc|intros ? ?; ww_post]
  | |- writes_within _ _ (update _ _) _ =>
      eapply ww_weaken; [apply ww_update; ww_post|intros ? ?; ww_post]
  | |- writes_within _ _ (if ?c then _ else _) _ => destruct c
  | |- writes_within _ _ (match ?x with _ => _ end) _ => destruct x
  | |- writes_within _ _ (let '(_, _) := ?x in _) _ => destruct x
  | |- writes_within _ _ _ _ =>
      first [ eapply ww_weaken;
              [solve [eauto 3 with ww nocore]|intros ? ?; ww_post]
            | ww_unfold ]
  end; cbv beta iota zeta
with ww_go := repeat ww_step.

#[global] Hint Extern 1 (owned _ _ _) => solve [ww_post] : ww.

Section OperatorOwnership.
Variable E : Env.
Variable W : nat -> Prop.
Variable n : nat.

Lemma ww_ReduceCall output self dims m p is_norm :
  owned W n output ->
  writes_within W n (ReduceCall E output self dims m p is_norm)
    (fun _ => True).
Proof. intros Ho. unfold ReduceCall. ww_go. Qed.

#[local] Hint Resolve ww_ReduceCall : ww.

Lemma ww_Reduction self dims keepdim dt m p is_norm :
  writes_within W n (Reduction E self dims keepdim dt m p is_norm)
    (owned W n).
Proof. unfold Reduction. ww_go. Qed.
#[local] Hint Resolve ww_Reduction : ww.

Lemma ww_CumulativeImpl out inp d mode :
  owned W n out ->
  writes_within W n (CumulativeImpl E out inp d mode) (fun _ => True).
Proof. intros Ho. unfold CumulativeImpl. ww_go. Qed.
#[local] Hint Resolve ww_CumulativeImpl : ww.

Lemma ww_ReduceIndicesCall output indices self d m :
  owned W n output -> owned W n indices ->
  writes_within W n (ReduceIndicesCall E output indices self d m)
    (fun _ => True).
Proof. intros Ho Hi. unfold ReduceIndicesCall. ww_go. Qed.
#[local] Hint Resolve ww_ReduceIndicesCall : ww.

Lemma ww_ReduceIndicesOnlyCall output self d m :
  owned W n output ->
  writes_within W n (ReduceIndicesOnlyCall E output self d m)
    (fun _ => True).
Proof. intros Ho. unfold ReduceIndicesOnlyCall. ww_go. Qed.
#[local] Hint Resolve ww_ReduceIndicesOnlyCall : ww.

Lemma ww_ReductionIndices self d keepdim m :
  writes_within W n (ReductionIndices E self d keepdim m)
    (fun p => owned W n p.1 /\ owned W n p.2).
Proof. unfold ReductionIndices. ww_go. Qed.
#[local] Hint Resolve ww_ReductionIndices : ww.


End OperatorOwnership.

Section OperatorFrames.
Variable E : Env.


End OperatorFrames.

(* ------------------------------------------------------------------ *)
(** ** Who computes the values *)
(* ------------------------------------------------------------------ *)

Section Never.
Variable P : Event -> bool.




End Never.



Section HostValues.
Variable E : Env.




















End HostValues.

Section LibraryComputes.
Variable E : Env.


End LibraryComputes.

